(** * istio-operator: control-plane reconciler and platform workarounds

    A shallow embedding of
    - package [hacks] (the CRD schema sanitizer and the CRD-rejection
      predicate), and
    - package [controlplane] (the control-plane instance reconciler:
      value merging, template resolution, install ordering, status
      posting and the reconciliation cycle),
    together with the properties proved about them.

    Go maps are [gmap]s, Go string sets are [gset]s, nil-able pointers are
    [option]s, and a Go [error] is an [option error] ([None] is nil).
    Calls that leave the process (cluster client, file system, chart
    renderer, event recorder) are answered by a [World] of oracles and are
    recorded in an event log. *)

From stdpp Require Import gmap strings list fin_maps pretty sorting.
From Stdlib Require Import Ascii.

Set Warnings "-register-all,-clear-no-such-hyp".
Set Default Proof Using "Type".

(** ** Errors *)

(** The reason codes of an API status error that the code inspects. *)
Inductive StatusReason :=
  | StatusReasonNotFound
  | StatusReasonGone
  | StatusReasonOther.

(** A Go [error] value: a plain error ([fmt.Errorf]), an API status error,
    an error wrapped with a message ([errors.Wrap]) or an aggregate
    ([utilerrors.NewAggregate]). *)
Inductive error :=
  | Errorf (msg : string)
  | StatusError (reason : StatusReason) (msg : string)
  | Wrap (cause : error) (msg : string)
  | NewAggregate (errs : list error).

(** [err.Error()] *)
Fixpoint Error (e : error) : string :=
  match e with
  | Errorf msg => msg
  | StatusError _ msg => msg
  | Wrap cause msg => msg +:+ ": " +:+ Error cause
  | NewAggregate errs =>
      match errs with
      | [e] => Error e
      | _ => "[" +:+ String.concat ", " (map Error errs) +:+ "]"
      end
  end.

(** [errors.Cause(err)] *)
Fixpoint Cause (e : error) : error :=
  match e with
  | Wrap cause _ => Cause cause
  | _ => e
  end.

(** [apierrors.IsNotFound], [apierrors.IsGone]: the reason of the error
    itself, without unwrapping. *)
Definition IsNotFound (e : error) : bool :=
  match e with StatusError StatusReasonNotFound _ => true | _ => false end.
Definition IsGone (e : error) : bool :=
  match e with StatusError StatusReasonGone _ => true | _ => false end.

(** ** Strings *)

(** A string between double quotes, as the Go literal escapes them. *)
Definition quoted (s : string) : string :=
  String (ascii_of_nat 34) (s +:+ String (ascii_of_nat 34) EmptyString).

(** [strings.HasPrefix(s, prefix)] *)
Definition HasPrefix (s prefix : string) : bool := String.prefix prefix s.
Global Arguments HasPrefix : simpl never.
(** [strings.Contains(s, substr)] *)
Fixpoint Contains (s substr : string) : bool :=
  if HasPrefix s substr then true
  else match s with
       | EmptyString => false
       | String _ s' => Contains s' substr
       end.

(** * Package hacks: platform workarounds *)

Module hacks.

Section schema.
(** The fields of a schema node that hold no sub-schema (ID, Description,
    Format, Default, Maximum, Required, Enum, ...) are carried as one value
    of type [Rest]; the CRD fields outside [spec.validation] as [Meta]. *)
Context {Rest Meta : Type}.

Record JSONSchemaPropsOrArray (A : Type) := {
  items_Schema : option A;
  items_JSONSchemas : list A }.
Record JSONSchemaPropsOrBool (A : Type) := {
  Allows : bool;
  bool_Schema : option A }.
Record JSONSchemaPropsOrStringArray (A : Type) := {
  dep_Schema : option A;
  dep_Property : list string }.
Global Arguments items_Schema {A} _.
Global Arguments items_JSONSchemas {A} _.
Global Arguments Allows {A} _.
Global Arguments bool_Schema {A} _.
Global Arguments dep_Schema {A} _.
Global Arguments dep_Property {A} _.

Unset Elimination Schemes.
Inductive JSONSchemaProps := {
  Type_ : string;
  OtherFields : Rest;
  Items : option (JSONSchemaPropsOrArray JSONSchemaProps);
  AllOf : list JSONSchemaProps;
  OneOf : list JSONSchemaProps;
  AnyOf : list JSONSchemaProps;
  Not : option JSONSchemaProps;
  Properties : gmap string JSONSchemaProps;
  AdditionalProperties : option (JSONSchemaPropsOrBool JSONSchemaProps);
  PatternProperties : gmap string JSONSchemaProps;
  Dependencies : gmap string (JSONSchemaPropsOrStringArray JSONSchemaProps);
  AdditionalItems : option (JSONSchemaPropsOrBool JSONSchemaProps);
  Definitions : gmap string JSONSchemaProps }.
Set Elimination Schemes.

Record CustomResourceValidation := {
  OpenAPIV3Schema : option JSONSchemaProps }.
Record CustomResourceDefinitionSpec := {
  Validation : option CustomResourceValidation;
  SpecOther : Meta }.
Record CustomResourceDefinition := {
  ObjectMeta : Meta;
  Spec : CustomResourceDefinitionSpec }.

(** [removeTypeObjectField]: the schema is updated in place in the source;
    here the updated schema is returned.  A nil pointer is [None] and is
    skipped by the [option] map. *)
Fixpoint removeTypeObjectField (schema : JSONSchemaProps) : JSONSchemaProps :=
  {| Type_ := if decide (Type_ schema = "object") then EmptyString else Type_ schema;
     OtherFields := OtherFields schema;
     OneOf := removeTypeObjectField <$> (OneOf schema);
     AnyOf := removeTypeObjectField <$> (AnyOf schema);
     AllOf := removeTypeObjectField <$> (AllOf schema);
     Properties := removeTypeObjectField <$> Properties schema;
     PatternProperties := removeTypeObjectField <$> PatternProperties schema;
     Definitions := removeTypeObjectField <$> Definitions schema;
     Not := removeTypeObjectField <$> (Not schema);
     Items :=
       fmap (M:=option) (fun items =>
         {| items_Schema := removeTypeObjectField <$> (items_Schema items);
            items_JSONSchemas := removeTypeObjectField <$> (items_JSONSchemas items) |})
         (Items schema);
     AdditionalProperties :=
       fmap (M:=option) (fun ap =>
         {| Allows := Allows ap;
            bool_Schema := removeTypeObjectField <$> (bool_Schema ap) |})
         (AdditionalProperties schema);
     AdditionalItems :=
       fmap (M:=option) (fun ai =>
         {| Allows := Allows ai;
            bool_Schema := removeTypeObjectField <$> (bool_Schema ai) |})
         (AdditionalItems schema);
     Dependencies :=
       (fun v =>
         {| dep_Schema := removeTypeObjectField <$> (dep_Schema v);
            dep_Property := dep_Property v |}) <$> Dependencies schema |}.

(** The two loops of the source, over a slice and over a map. *)
Definition removeTypeObjectFieldFromArray (array : list JSONSchemaProps)
  : list JSONSchemaProps := removeTypeObjectField <$> array.
Definition removeTypeObjectFieldFromMap (m : gmap string JSONSchemaProps)
  : gmap string JSONSchemaProps := removeTypeObjectField <$> m.

Definition errNoSchema : error :=
  Errorf "Could not remove type:object fields from CRD schema as no spec.validation.openAPIV3Schema exists".

(** [RemoveTypeObjectFieldsFromCRDSchema]: returns the CRD as it is after
    the call, and the error. *)
Definition RemoveTypeObjectFieldsFromCRDSchema (crd : CustomResourceDefinition)
  : CustomResourceDefinition * option error :=
  match Validation (Spec crd) with
  | None => (crd, Some errNoSchema)
  | Some validation =>
      match OpenAPIV3Schema validation with
      | None => (crd, Some errNoSchema)
      | Some schema =>
          ({| ObjectMeta := ObjectMeta crd;
              Spec := {| Validation :=
                           Some {| OpenAPIV3Schema := Some (removeTypeObjectField schema) |};
                         SpecOther := SpecOther (Spec crd) |} |},
           None)
      end
  end.

(** The positions at which a schema node holds a sub-schema. *)
Inductive position :=
  | InOneOf (i : nat)
  | InAnyOf (i : nat)
  | InAllOf (i : nat)
  | InProperties (k : string)
  | InPatternProperties (k : string)
  | InDefinitions (k : string)
  | InNot
  | InItemsSchema
  | InItemsJSONSchemas (i : nat)
  | InAdditionalProperties
  | InAdditionalItems
  | InDependencies (k : string).

Definition child (p : position) (s : JSONSchemaProps) : option JSONSchemaProps :=
  match p with
  | InOneOf i => OneOf s !! i
  | InAnyOf i => AnyOf s !! i
  | InAllOf i => AllOf s !! i
  | InProperties k => Properties s !! k
  | InPatternProperties k => PatternProperties s !! k
  | InDefinitions k => Definitions s !! k
  | InNot => Not s
  | InItemsSchema => Items s ≫= items_Schema
  | InItemsJSONSchemas i => Items s ≫= fun items => items_JSONSchemas items !! i
  | InAdditionalProperties => AdditionalProperties s ≫= bool_Schema
  | InAdditionalItems => AdditionalItems s ≫= bool_Schema
  | InDependencies k => Dependencies s !! k ≫= dep_Schema
  end.

(** The node reached from the root along a path of positions. *)
Fixpoint node_at (path : list position) (s : JSONSchemaProps)
  : option JSONSchemaProps :=
  match path with
  | [] => Some s
  | p :: path' => child p s ≫= node_at path'
  end.

(** What a node holds besides its type and its sub-schemas. *)
Definition Items_present (s : JSONSchemaProps) : bool := bool_decide (is_Some (Items s)).
Definition Dependencies_Property (s : JSONSchemaProps) : gmap string (list string) :=
  dep_Property <$> Dependencies s.

(** [unchanged_but_type n n']: node [n'] holds what node [n] holds, except
    for a type that was "object" and is now empty.  (The sub-schemas are
    compared position by position with [node_at].) *)
Definition unchanged_but_type (n n' : JSONSchemaProps) : Prop :=
  OtherFields n' = OtherFields n
  /\ Type_ n' = (if decide (Type_ n = "object") then EmptyString else Type_ n)
  /\ Items_present n' = Items_present n
  /\ Allows <$> AdditionalProperties n' = Allows <$> AdditionalProperties n
  /\ Allows <$> AdditionalItems n' = Allows <$> AdditionalItems n
  /\ Dependencies_Property n' = Dependencies_Property n.

End schema.

Global Arguments JSONSchemaProps : clear implicits.
Global Arguments CustomResourceValidation : clear implicits.
Global Arguments CustomResourceDefinitionSpec : clear implicits.
Global Arguments CustomResourceDefinition : clear implicits.

(** The message with which the API server rejects [type: object]. *)
Definition typeObjectProblem : string :=
  "must only have " +:+ quoted "properties" +:+ ", " +:+ quoted "required"
  +:+ " or " +:+ quoted "description"
  +:+ " at the root if the status subresource is enabled".

(** [IsTypeObjectProblemInCRDSchemas] *)
Definition IsTypeObjectProblemInCRDSchemas (err : option error) : bool :=
  match err with
  | None => false
  | Some e => Contains (Error e) typeObjectProblem
  end.

End hacks.

(** * Decoded documents *)

(** A value of a decoded YAML or JSON document (a Go [interface{}]): nil, a
    boolean, a number, a string, a slice or a [map[string]interface{}].  A
    nil map reads like the empty map. *)
Unset Elimination Schemes.
Inductive value :=
  | VNil
  | VBool (b : bool)
  | VNumber (n : Z)
  | VString (s : string)
  | VSlice (l : list value)
  | VMap (m : gmap string value).
Set Elimination Schemes.

Fixpoint value_eq_dec (v1 v2 : value) {struct v1} : Decision (v1 = v2).
Proof.
  refine (
    match v1, v2 with
    | VNil, VNil => left _
    | VBool a, VBool b => cast_if (decide (a = b))
    | VNumber a, VNumber b => cast_if (decide (a = b))
    | VString a, VString b => cast_if (decide (a = b))
    | VSlice a, VSlice b =>
        cast_if (@decide (a = b) (@list_eq_dec _ value_eq_dec a b))
    | VMap a, VMap b =>
        cast_if (@decide (a = b) (@gmap_eq_dec _ _ _ _ value_eq_dec a b))
    | _, _ => right _
    end); congruence.
Defined.
Global Instance value_eq : EqDecision value := value_eq_dec.

(** The value found by descending from [v] along a path of keys. *)
Fixpoint get_path (path : list string) (v : value) : option value :=
  match path with
  | [] => Some v
  | key :: path' =>
      match v with
      | VMap m => m !! key ≫= get_path path'
      | _ => None
      end
  end.

Definition is_map (v : value) : bool :=
  match v with VMap _ => true | _ => false end.

(** [unstructured.NestedFieldNoCopy(obj, fields...)]: the value, whether
    it was found, and an error when the path runs into a value that is
    not a map. *)
Fixpoint NestedFieldNoCopy (val : value) (fields : list string)
  : option value * option error :=
  match fields with
  | [] => (Some val, None)
  | field :: fields' =>
      match val with
      | VNil => (None, None)
      | VMap m =>
          match m !! field with
          | None => (None, None)
          | Some val' => NestedFieldNoCopy val' fields'
          end
      | _ => (None, Some (Errorf "accessor error: expected map[string]interface{}"))
      end
  end.

(** [unstructured.SetNestedField(obj, value, fields...)]: maps that are
    missing on the way are created; a value on the way that is not a map
    is an error, and then nothing has been written. *)
Fixpoint SetNestedField (obj : gmap string value) (val : value)
    (fields : list string) : gmap string value * option error :=
  match fields with
  | [] => (obj, None)
  | [field] => (<[field := val]> obj, None)
  | field :: fields' =>
      match obj !! field with
      | Some (VMap valMap) =>
          let '(valMap', err) := SetNestedField valMap val fields' in
          (<[field := VMap valMap']> obj, err)
      | Some _ =>
          (obj, Some (Errorf "value cannot be set because a field on the path is not a map[string]interface{}"))
      | None =>
          let '(newVal, err) := SetNestedField ∅ val fields' in
          (<[field := VMap newVal]> obj, err)
      end
  end.

(** * Package status: the typed status-condition model *)

(** Modelled from the spec: package [status] is not under src/.  A
    condition has a type, a status, a reason and a message (section 3);
    the transition times are left out.  [GetCondition] of a type that is
    not set is the condition of that type with status Unknown. *)
Module status.

Inductive ConditionType :=
  | ConditionTypeInstalled
  | ConditionTypeReconciled
  | ConditionTypeReady.

Inductive ConditionStatus :=
  | ConditionStatusTrue
  | ConditionStatusFalse
  | ConditionStatusUnknown.

Global Instance ConditionType_eq : EqDecision ConditionType.
Proof. solve_decision. Defined.
Global Instance ConditionStatus_eq : EqDecision ConditionStatus.
Proof. solve_decision. Defined.

Definition ConditionReasonReconcileError : string := "ReconcileError".
Definition ConditionReasonProbeError : string := "ProbeError".
Definition ConditionReasonPausingInstall : string := "PausingInstall".
Definition ConditionReasonPausingUpdate : string := "PausingUpdate".
Definition ConditionReasonUpdateSuccessful : string := "UpdateSuccessful".
Definition ConditionReasonInstallSuccessful : string := "InstallSuccessful".
Definition ConditionReasonSpecUpdated : string := "SpecUpdated".
Definition ConditionReasonResourceCreated : string := "ResourceCreated".

Record Condition := {
  Type_ : ConditionType;
  Status : ConditionStatus;
  Reason : string;
  Message : string }.

Global Instance Condition_eq : EqDecision Condition.
Proof. solve_decision. Defined.

Fixpoint GetCondition (conditions : list Condition) (conditionType : ConditionType)
  : Condition :=
  match conditions with
  | [] => {| Type_ := conditionType; Status := ConditionStatusUnknown;
             Reason := EmptyString; Message := EmptyString |}
  | c :: conditions' =>
      if decide (Type_ c = conditionType) then c
      else GetCondition conditions' conditionType
  end.

Fixpoint SetCondition (conditions : list Condition) (condition : Condition)
  : list Condition :=
  match conditions with
  | [] => [condition]
  | prevCondition :: conditions' =>
      if decide (Type_ prevCondition = Type_ condition) then condition :: conditions'
      else prevCondition :: SetCondition conditions' condition
  end.

Record ComponentStatus := {
  Resource : string;
  Conditions : list Condition }.

Global Instance ComponentStatus_eq : EqDecision ComponentStatus.
Proof. solve_decision. Defined.

Definition NewComponentStatus : ComponentStatus :=
  {| Resource := EmptyString; Conditions := [] |}.

End status.

(** * Package v1: the internal spec shape *)

(** Modelled from the spec: package [v1] is not under src/.  A
    [*HelmValues] is an [option] of the value tree it wraps; the accessors
    split their path at the dots. *)
Module v1.

Record ControlPlaneSpec := {
  Version : string;
  Template : string;
  Istio : option (gmap string value);
  ThreeScale : option (gmap string value) }.

Global Instance ControlPlaneSpec_eq : EqDecision ControlPlaneSpec.
Proof. solve_decision. Defined.

Definition set_Version (v : string) (s : ControlPlaneSpec) : ControlPlaneSpec :=
  {| Version := v; Template := Template s; Istio := Istio s; ThreeScale := ThreeScale s |}.
Definition set_Template (t : string) (s : ControlPlaneSpec) : ControlPlaneSpec :=
  {| Version := Version s; Template := t; Istio := Istio s; ThreeScale := ThreeScale s |}.
Definition set_Istio (h : option (gmap string value)) (s : ControlPlaneSpec)
  : ControlPlaneSpec :=
  {| Version := Version s; Template := Template s; Istio := h; ThreeScale := ThreeScale s |}.
Definition set_ThreeScale (h : option (gmap string value)) (s : ControlPlaneSpec)
  : ControlPlaneSpec :=
  {| Version := Version s; Template := Template s; Istio := Istio s; ThreeScale := h |}.

(** The identifier of the template used when none is named. *)
Definition DefaultTemplate : string := "default".

(** [strings.Split(path, ".")] *)
Fixpoint Split (s : string) (sep : ascii) : list string :=
  match s with
  | EmptyString => [EmptyString]
  | String c s' =>
      if decide (c = sep) then EmptyString :: Split s' sep
      else match Split s' sep with
           | field :: fields => String c field :: fields
           | [] => [String c EmptyString]
           end
  end.

Definition dot : ascii := ascii_of_nat 46.

(** [NewHelmValues(values)], for the non-nil maps that [mergeValues]
    returns. *)
Definition NewHelmValues (values : gmap string value) : option (gmap string value) :=
  Some values.

(** [h.GetContent()]: the nil map for the nil pointer. *)
Definition GetContent (h : option (gmap string value)) : gmap string value :=
  default ∅ h.

(** [h.GetString(path)] *)
Definition GetString (h : option (gmap string value)) (path : string)
  : string * bool * option error :=
  match h with
  | None => (EmptyString, false, None)
  | Some data =>
      match NestedFieldNoCopy (VMap data) (Split path dot) with
      | (Some (VString s), None) => (s, true, None)
      | (Some _, None) =>
          (EmptyString, false, Some (Errorf "accessor error: expected string"))
      | (_, err) => (EmptyString, false, err)
      end
  end.

(** [h.GetBool(path)] *)
Definition GetBool (h : option (gmap string value)) (path : string)
  : bool * bool * option error :=
  match h with
  | None => (false, false, None)
  | Some data =>
      match NestedFieldNoCopy (VMap data) (Split path dot) with
      | (Some (VBool b), None) => (b, true, None)
      | (Some _, None) =>
          (false, false, Some (Errorf "accessor error: expected bool"))
      | (_, err) => (false, false, err)
      end
  end.

(** [h.GetMap(path)] *)
Definition GetMap (h : option (gmap string value)) (path : string)
  : gmap string value * bool * option error :=
  match h with
  | None => (∅, false, None)
  | Some data =>
      match NestedFieldNoCopy (VMap data) (Split path dot) with
      | (Some (VMap m), err) => (m, true, err)
      | (Some _, _) =>
          (∅, false, Some (Errorf "accessor error: expected map[]interface{}"))
      | (None, err) => (∅, false, err)
      end
  end.

End v1.

(** * Package v2: the control-plane resource *)

(** Modelled from the spec: package [v2] is not under src/.  The resource
    carries its name, namespace, generation, spec and status (section 3). *)
Module v2.

Record ControlPlaneSpec := {
  Version : string;
  Content : value }.

Global Instance ControlPlaneSpec_eq : EqDecision ControlPlaneSpec.
Proof. solve_decision. Defined.

Record ControlPlaneStatus := {
  Conditions : list status.Condition;
  ObservedGeneration : Z;
  ReconciledVersion : string;
  ComponentStatus : list status.ComponentStatus;
  LastAppliedConfiguration : v1.ControlPlaneSpec }.

Global Instance ControlPlaneStatus_eq : EqDecision ControlPlaneStatus.
Proof. solve_decision. Defined.

Definition set_Conditions (c : list status.Condition) (s : ControlPlaneStatus)
  : ControlPlaneStatus :=
  {| Conditions := c; ObservedGeneration := ObservedGeneration s;
     ReconciledVersion := ReconciledVersion s;
     ComponentStatus := ComponentStatus s;
     LastAppliedConfiguration := LastAppliedConfiguration s |}.
Definition set_ObservedGeneration (g : Z) (s : ControlPlaneStatus)
  : ControlPlaneStatus :=
  {| Conditions := Conditions s; ObservedGeneration := g;
     ReconciledVersion := ReconciledVersion s;
     ComponentStatus := ComponentStatus s;
     LastAppliedConfiguration := LastAppliedConfiguration s |}.
Definition set_ReconciledVersion (v : string) (s : ControlPlaneStatus)
  : ControlPlaneStatus :=
  {| Conditions := Conditions s; ObservedGeneration := ObservedGeneration s;
     ReconciledVersion := v;
     ComponentStatus := ComponentStatus s;
     LastAppliedConfiguration := LastAppliedConfiguration s |}.
Definition set_ComponentStatus (c : list status.ComponentStatus)
    (s : ControlPlaneStatus) : ControlPlaneStatus :=
  {| Conditions := Conditions s; ObservedGeneration := ObservedGeneration s;
     ReconciledVersion := ReconciledVersion s;
     ComponentStatus := c;
     LastAppliedConfiguration := LastAppliedConfiguration s |}.
Definition set_LastAppliedConfiguration (c : v1.ControlPlaneSpec)
    (s : ControlPlaneStatus) : ControlPlaneStatus :=
  {| Conditions := Conditions s; ObservedGeneration := ObservedGeneration s;
     ReconciledVersion := ReconciledVersion s;
     ComponentStatus := ComponentStatus s;
     LastAppliedConfiguration := c |}.

(** [s.GetCondition(t)], [s.SetCondition(c)] *)
Definition GetCondition (s : ControlPlaneStatus) (t : status.ConditionType)
  : status.Condition := status.GetCondition (Conditions s) t.
Definition SetCondition (c : status.Condition) (s : ControlPlaneStatus)
  : ControlPlaneStatus := set_Conditions (status.SetCondition (Conditions s) c) s.

(** [s.FindComponentByName(name)] *)
Definition FindComponentByName (s : ControlPlaneStatus) (name : string)
  : option status.ComponentStatus :=
  List.find (fun c => bool_decide (status.Resource c = name)) (ComponentStatus s).

Record ServiceMeshControlPlane := {
  Name : string;
  Namespace : string;
  UID : string;
  Generation : Z;
  Spec : ControlPlaneSpec;
  Status : ControlPlaneStatus }.

Global Instance ServiceMeshControlPlane_eq : EqDecision ServiceMeshControlPlane.
Proof. solve_decision. Defined.

Definition set_Status (st : ControlPlaneStatus) (i : ServiceMeshControlPlane)
  : ServiceMeshControlPlane :=
  {| Name := Name i; Namespace := Namespace i; UID := UID i;
     Generation := Generation i; Spec := Spec i; Status := st |}.

End v2.
(** * Boundary packages *)

(** Modelled from the spec: the packages below are not under src/; only
    the fields that the reconciler reads or writes are kept. *)
Module cni.
Record Config := { Enabled : bool }.
End cni.

Module common.
(** [common.Config.OAuthProxy], a process-wide configuration. *)
Record OAuthProxyConfig := {
  Query : bool;
  Name : string;
  Namespace : string;
  Tag : string;
  Image : string }.
Definition set_Image (image : string) (c : OAuthProxyConfig) : OAuthProxyConfig :=
  {| Query := Query c; Name := Name c; Namespace := Namespace c; Tag := Tag c;
     Image := image |}.
Definition MemberOfKey : string := "maistra.io/member-of".
End common.

Module imagev1.
Record TagEvent := { DockerImageReference : string }.
Record NamedTagEventList := { Tag : string; Items : list TagEvent }.
Record ImageStream := { Tags : list NamedTagEventList }.
End imagev1.

Module corev1.
Record Namespace := { Name : string; Labels : gmap string string }.
Definition EventTypeNormal : string := "Normal".
Definition EventTypeWarning : string := "Warning".
End corev1.

Module metav1.
Record OwnerReference := {
  APIVersion : string;
  Kind : string;
  Name : string;
  UID : string;
  Controller : bool;
  BlockOwnerDeletion : bool }.
End metav1.

(** * Package controlplane: the control-plane reconciler *)

Module controlplane.

(** A rendered manifest ([manifest.Manifest]). *)
Record Manifest := { Name : string; Content : string }.

(** ** Calls that leave the reconciler *)

(** One event per call to the cluster client, to a boundary package or to
    a method of the reconciler that lives in a file not under src/. *)
Inductive Event :=
  | EvGetNamespace (name : string)
  | EvUpdateNamespace (namespace : corev1.Namespace)
  | EvGetImageStream (namespace name : string)
  | EvGetInstance (namespace name : string)
  | EvStatusPatch (instance : v2.ServiceMeshControlPlane)
  | EvSetImageValues (version : string) (spec : v1.ControlPlaneSpec)
  | EvRenderChart (chartPath namespace : string) (values : gmap string value)
  | EvInstallCRDs (chartsDir : string)
  | EvInstallCNI
  | EvIsCNIReady
  | EvReconcileRBAC
  | EvProcessComponentManifests (chart : string)
  | EvCalculateComponentReadiness (waitFor : gset string)
  | EvUpdateReadinessStatus
  | EvUpdateControlPlaneConditions (err : option error)
  | EvPrune (meshGeneration : string)
  | EvRecorderEvent (eventtype reason message : string)
  | EvSleep.

(** The answers of the world.  The first group does not depend on the
    moment of the call; an answer of the second group is a function of the
    events so far, so that the same call may be answered differently at
    different moments. *)
Record World := {
  ReadUserTemplate : string -> error + string;
  ReadDefaultTemplate : string -> string -> error + string;
  Unmarshal : string -> error + v1.ControlPlaneSpec;
  ParseVersion : string -> error + string;
  GetNetworkName : string -> option string;
  GetChartsDir : string -> string;
  CurrentReconciledVersion : Z -> string;
  GetReconciledVersion : v2.ControlPlaneStatus -> string;
  Convert : v2.ControlPlaneSpec -> error + v1.ControlPlaneSpec;
  updateControlPlaneConditions :
    v2.ControlPlaneStatus -> option error -> v2.ControlPlaneStatus;
  OperatorNamespace : string;

  answerGetNamespace : list Event -> string -> error + corev1.Namespace;
  answerUpdateNamespace : list Event -> corev1.Namespace -> option error;
  answerGetImageStream : list Event -> string -> string -> error + imagev1.ImageStream;
  answerGetInstance : list Event -> string -> string -> error + v2.ServiceMeshControlPlane;
  answerStatusPatch : list Event -> v2.ServiceMeshControlPlane -> option error;
  answerSetImageValues :
    list Event -> string -> v1.ControlPlaneSpec -> v1.ControlPlaneSpec * option error;
  answerRenderChart :
    list Event -> string -> string -> gmap string value ->
    gmap string (list Manifest) * option error;
  answerInstallCRDs : list Event -> string -> option error;
  answerInstallCNI : list Event -> option error;
  answerIsCNIReady : list Event -> bool * option error;
  answerReconcileRBAC : list Event -> option error;
  answerProcessComponentManifests :
    list Event -> v2.ControlPlaneStatus -> string ->
    v2.ControlPlaneStatus * bool * option error;
  answerCalculateComponentReadiness :
    list Event -> gset string -> gset string * gset string * option error;
  answerUpdateReadinessStatus :
    list Event -> v2.ControlPlaneStatus -> v2.ControlPlaneStatus * bool * option error;
  answerPrune : list Event -> string -> option error;
  rangeFirst : list Event -> gmap string (list Manifest) -> list string;
  rangeSecond : list Event -> gmap string (list Manifest) -> list string }.

(** ** The reconciler *)

(** The fields of [controlPlaneInstanceReconciler], the process-wide
    [common.Config.OAuthProxy], and the events so far. *)
Record controlPlaneInstanceReconciler := {
  Instance : v2.ServiceMeshControlPlane;
  Status : v2.ControlPlaneStatus;
  ownerRefs : list metav1.OwnerReference;
  meshGeneration : string;
  renderings : option (gmap string (list Manifest));
  waitForComponents : gset string;
  cniConfig : cni.Config;
  OAuthProxy : common.OAuthProxyConfig;
  log : list Event }.

Definition set_Instance (x : v2.ServiceMeshControlPlane) (r : controlPlaneInstanceReconciler) :=
  {| Instance := x; Status := Status r; ownerRefs := ownerRefs r;
     meshGeneration := meshGeneration r; renderings := renderings r;
     waitForComponents := waitForComponents r; cniConfig := cniConfig r;
     OAuthProxy := OAuthProxy r; log := log r |}.
Definition set_Status (x : v2.ControlPlaneStatus) (r : controlPlaneInstanceReconciler) :=
  {| Instance := Instance r; Status := x; ownerRefs := ownerRefs r;
     meshGeneration := meshGeneration r; renderings := renderings r;
     waitForComponents := waitForComponents r; cniConfig := cniConfig r;
     OAuthProxy := OAuthProxy r; log := log r |}.
Definition set_ownerRefs (x : list metav1.OwnerReference) (r : controlPlaneInstanceReconciler) :=
  {| Instance := Instance r; Status := Status r; ownerRefs := x;
     meshGeneration := meshGeneration r; renderings := renderings r;
     waitForComponents := waitForComponents r; cniConfig := cniConfig r;
     OAuthProxy := OAuthProxy r; log := log r |}.
Definition set_meshGeneration (x : string) (r : controlPlaneInstanceReconciler) :=
  {| Instance := Instance r; Status := Status r; ownerRefs := ownerRefs r;
     meshGeneration := x; renderings := renderings r;
     waitForComponents := waitForComponents r; cniConfig := cniConfig r;
     OAuthProxy := OAuthProxy r; log := log r |}.
Definition set_renderings (x : option (gmap string (list Manifest)))
    (r : controlPlaneInstanceReconciler) :=
  {| Instance := Instance r; Status := Status r; ownerRefs := ownerRefs r;
     meshGeneration := meshGeneration r; renderings := x;
     waitForComponents := waitForComponents r; cniConfig := cniConfig r;
     OAuthProxy := OAuthProxy r; log := log r |}.
Definition set_waitForComponents (x : gset string) (r : controlPlaneInstanceReconciler) :=
  {| Instance := Instance r; Status := Status r; ownerRefs := ownerRefs r;
     meshGeneration := meshGeneration r; renderings := renderings r;
     waitForComponents := x; cniConfig := cniConfig r;
     OAuthProxy := OAuthProxy r; log := log r |}.
Definition set_OAuthProxy (x : common.OAuthProxyConfig) (r : controlPlaneInstanceReconciler) :=
  {| Instance := Instance r; Status := Status r; ownerRefs := ownerRefs r;
     meshGeneration := meshGeneration r; renderings := renderings r;
     waitForComponents := waitForComponents r; cniConfig := cniConfig r;
     OAuthProxy := x; log := log r |}.
Definition set_log (x : list Event) (r : controlPlaneInstanceReconciler) :=
  {| Instance := Instance r; Status := Status r; ownerRefs := ownerRefs r;
     meshGeneration := meshGeneration r; renderings := renderings r;
     waitForComponents := waitForComponents r; cniConfig := cniConfig r;
     OAuthProxy := OAuthProxy r; log := x |}.

(** ** The monad of the methods *)

(** A method returns a result and the reconciler as it has become, or
    panics, or is cut off for lack of fuel (only template resolution
    consumes fuel). *)
Inductive outcome (A : Type) :=
  | Returns (a : A)
  | Panics (msg : string)
  | OutOfFuel.
Global Arguments Returns {A} _.
Global Arguments Panics {A} _.
Global Arguments OutOfFuel {A}.

Definition M (A : Type) : Type :=
  controlPlaneInstanceReconciler -> outcome (A * controlPlaneInstanceReconciler).

Global Instance M_ret : MRet M := fun A a r => Returns (a, r).
Global Instance M_bind : MBind M := fun A B f m r =>
  match m r with
  | Returns (a, r') => f a r'
  | Panics msg => Panics msg
  | OutOfFuel => OutOfFuel
  end.

Definition get : M controlPlaneInstanceReconciler := fun r => Returns (r, r).
Definition modify (f : controlPlaneInstanceReconciler -> controlPlaneInstanceReconciler)
  : M unit := fun r => Returns (tt, f r).
Definition skip : M unit := fun r => Returns (tt, r).
Definition panic {A} (msg : string) : M A := fun _ => Panics msg.
Definition outOfFuel {A} : M A := fun _ => OutOfFuel.

(** A call that leaves the reconciler: it is answered from the events so
    far and is appended to them. *)
Definition call {A} (ev : Event) (answer : list Event -> A) : M A :=
  fun r => Returns (answer (log r), set_log (log r ++ [ev]) r).

(** ** Constants and small helpers *)

Definition orderedCharts : list (list string) :=
  [ ["istio"];
    ["istio/charts/security"];
    ["istio/charts/prometheus"];
    ["istio/charts/tracing"];
    ["istio/charts/galley"];
    ["istio/charts/mixer"; "istio/charts/pilot"; "istio/charts/gateways";
     "istio/charts/sidecarInjectorWebhook"];
    ["istio/charts/grafana"];
    ["istio/charts/kiali"] ].

Definition eventReasonInstalling : string := "Installing".
Definition eventReasonPausingInstall : string := "PausingInstall".
Definition eventReasonPausingUpdate : string := "PausingUpdate".
Definition eventReasonInstalled : string := "Installed".
Definition eventReasonUpdating : string := "Updating".
Definition eventReasonUpdated : string := "Updated".
Definition eventReasonPruning : string := "Pruning".

(** The part of [s] after the last [sep], all of [s] when there is none:
    [s[strings.LastIndex(s, sep)+1:]], and the file of [path.Split]. *)
Fixpoint afterLast (sep : ascii) (s : string) : string :=
  match s with
  | EmptyString => EmptyString
  | String c s' =>
      if Contains s' (String sep EmptyString) then afterLast sep s'
      else if decide (c = sep) then s'
      else s
  end.

Definition componentFromChartName (chartName : string) : string :=
  afterLast (ascii_of_nat 47) chartName.

(** [set.List()]: the members in increasing order. *)
Definition sets_List (s : gset string) : list string :=
  merge_sort (fun a b => String.compare a b <> Gt) (elements s).

(** [fmt.Sprintf("%v", l)] of a slice of strings. *)
Definition fmt_strings (l : list string) : string :=
  "[" +:+ String.concat " " l +:+ "]".

(** [fmt.Sprintf("%d", n)] *)
Definition fmt_d (n : Z) : string := pretty n.

(** ** Deep value merge *)

(** [mergeValues], with its second argument as a [value] so that the
    recursion is structural: [mergeInto base (VMap input)] runs the loop
    [for key, value := range input] over the entries of [input], on the
    map [base] that the source updates in place. *)
Fixpoint mergeInto (base : gmap string value) (input : value) {struct input}
  : gmap string value :=
  match input with
  | VMap input =>
      map_fold (fun key value base =>
        match base !! key with
        | None => <[key := value]> base
        | Some (VMap baseKeyAsMap) =>
            match value with
            | VMap _ => <[key := VMap (mergeInto baseKeyAsMap value)]> base
            | _ => base
            end
        | Some _ => base
        end) base input
  | _ => base
  end.

Definition mergeValues (base input : gmap string value) : gmap string value :=
  mergeInto base (VMap input).

(** What [mergeValues] leaves at a key: the value of [input] when [base]
    has none, the merged maps when both hold maps, the value of [base]
    otherwise. *)
Definition merged_at (base input : gmap string value) (key : string)
  : option value :=
  match base !! key with
  | None => input !! key
  | Some (VMap baseKeyAsMap) =>
      match input !! key with
      | Some (VMap inputAsMap) => Some (VMap (mergeValues baseKeyAsMap inputAsMap))
      | _ => Some (VMap baseKeyAsMap)
      end
  | Some v => Some v
  end.

(** ** Install ordering *)

(** The three loops of [getChartsInInstallationOrder]; each body acts on
    the variables [charts] and [seen] of the source. *)

(** [for _, chartSet := range orderedCharts]: the charts of the set that
    are rendered are collected and marked as seen, and the group is
    appended when it is not empty. *)
Definition orderedStep (renderings : gmap string (list Manifest))
    (acc : list (list string) * gset string) (chartSet : list string)
  : list (list string) * gset string :=
  let '(charts, seen) := acc in
  let '(chartsToDeploy, seen) :=
    foldl (fun '(chartsToDeploy, seen) chart =>
      if decide (is_Some (renderings !! chart))
      then (chartsToDeploy ++ [chart], {[chart]} ∪ seen)
      else (chartsToDeploy, seen))
      ([], seen) chartSet in
  if decide (0 < length chartsToDeploy)
  then (charts ++ [chartsToDeploy], seen)
  else (charts, seen).

(** [for chart := range r.renderings], first time: the charts under
    "istio/" that were not seen. *)
Definition istioStep (acc : list (list string) * gset string) (chart : string)
  : list (list string) * gset string :=
  let '(charts, seen) := acc in
  if HasPrefix chart "istio/" && bool_decide (chart ∉ seen)
  then (charts ++ [[chart]], {[chart]} ∪ seen)
  else (charts, seen).

(** [for chart := range r.renderings], second time: what is left. *)
Definition otherStep (seen : gset string) (charts : list (list string))
    (chart : string) : list (list string) :=
  if bool_decide (chart ∉ seen) then charts ++ [[chart]] else charts.

(** [getChartsInInstallationOrder].  A Go [range] over a map yields every
    key once, in an order that is not specified: [range1] and [range2] are
    the orders in which the two loops over [r.renderings] meet its keys. *)
Definition getChartsInInstallationOrder
    (renderings : gmap string (list Manifest)) (range1 range2 : list string)
  : list (list string) :=
  let '(charts, seen) :=
    foldl (orderedStep renderings) ([], ∅) orderedCharts in
  let '(charts, seen) := foldl istioStep (charts, seen) range1 in
  foldl (otherStep seen) charts range2.

(** The keys of a map, in the order of [elements]; a Go [range] yields a
    permutation of them. *)
Definition keys (renderings : gmap string (list Manifest)) : list string :=
  elements (dom renderings).

(** The status patches among some events. *)
Definition isStatusPatch (ev : Event) : bool :=
  match ev with EvStatusPatch _ => true | _ => false end.
Definition statusPatches (events : list Event) : list Event :=
  List.filter isStatusPatch events.

Section methods.
Context (w : World).

(** ** Wrappers of the calls *)

Definition EventRecorder_Event (eventtype reason message : string) : M unit :=
  call (EvRecorderEvent eventtype reason message) (fun _ => tt).

Definition calculateComponentReadiness
  : M (gset string * gset string * option error) :=
  r ← get;
  call (EvCalculateComponentReadiness (waitForComponents r))
       (fun l => answerCalculateComponentReadiness w l (waitForComponents r)).

Definition processComponentManifests (chart : string) : M (bool * option error) :=
  r ← get;
  '(st, hasReadiness, err) ←
    call (EvProcessComponentManifests chart)
         (fun l => answerProcessComponentManifests w l (Status r) chart);
  modify (set_Status st);;
  mret (hasReadiness, err).

Definition updateReadinessStatus : M (bool * option error) :=
  r ← get;
  '(st, updated, err) ←
    call EvUpdateReadinessStatus
         (fun l => answerUpdateReadinessStatus w l (Status r));
  modify (set_Status st);;
  mret (updated, err).

(** [updateControlPlaneConditions(r.Status, err)] *)
Definition updateConditions (err : option error) : M unit :=
  call (EvUpdateControlPlaneConditions err) (fun _ => tt);;
  modify (fun r => set_Status (updateControlPlaneConditions w (Status r) err) r).

(** [r.getChartsInInstallationOrder()], as the method of the reconciler;
    a nil map of renderings has no key. *)
Definition chartsInInstallationOrder : M (list (list string)) :=
  r ← get;
  let renderings := default ∅ (renderings r) in
  mret (getChartsInInstallationOrder renderings
          (rangeFirst w (log r) renderings) (rangeSecond w (log r) renderings)).

Definition isUpdating (r : controlPlaneInstanceReconciler) : bool :=
  bool_decide (v2.ObservedGeneration (v2.Status (Instance r)) <> 0%Z).

(** ** Status posting *)

Definition PostStatus : M (option error) :=
  r ← get;
  if decide (Status r = v2.Status (Instance r)) then mret None
  else
    let name := v2.Name (Instance r) in
    let namespace := v2.Namespace (Instance r) in
    got ← call (EvGetInstance namespace name)
               (fun l => answerGetInstance w l namespace name);
    match got with
    | inr instance =>
        let instance := v2.set_Status (Status r) instance in
        err ← call (EvStatusPatch instance)
                   (fun l => answerStatusPatch w l instance);
        match err with
        | Some err =>
            if negb (IsGone err || IsNotFound err)
            then mret (Some (Wrap err "error updating ServiceMeshControlPlane status"))
            else mret None
        | None => mret None
        end
    | inl err =>
        if negb (IsGone err || IsNotFound err)
        then mret (Some (Wrap err "error getting ServiceMeshControlPlane prior to updating status"))
        else mret None
    end.

(** What [PostStatus] returns for the error of a cluster call: nothing
    for no error and for a not-found or gone error, the wrapped error
    otherwise. *)
Definition benign (wrapped : string) (err : option error) : option error :=
  match err with
  | Some err => if negb (IsGone err || IsNotFound err) then Some (Wrap err wrapped) else None
  | None => None
  end.

Definition pauseReconciliation : M (string * string * option error) :=
  r ← get;
  let '(eventReason, conditionReason) :=
    if isUpdating r
    then (eventReasonPausingUpdate, status.ConditionReasonPausingUpdate)
    else (eventReasonPausingInstall, status.ConditionReasonPausingInstall) in
  let reconciliationMessage :=
    "Paused until the following components become ready: "
    +:+ fmt_strings (sets_List (waitForComponents r)) in
  EventRecorder_Event corev1.EventTypeNormal eventReason reconciliationMessage;;
  mret (conditionReason, reconciliationMessage, None).

(** ** Templates *)

Definition getSMCPTemplate (name maistraVersion : string)
  : error + v1.ControlPlaneSpec :=
  if Contains name "/"
  then inl (Errorf "template name contains invalid character '/'")
  else
    let parse templateContent :=
      match Unmarshal w templateContent with
      | inl err =>
          inl (Errorf ("failed to parse template " +:+ name +:+ " contents: "
                       +:+ Error err))
      | inr spec => inr spec
      end in
    match ReadUserTemplate w name with
    | inr templateContent => parse templateContent
    | inl err =>
        match ReadDefaultTemplate w maistraVersion name with
        | inl defaultErr =>
            inl (Errorf
              ("template cannot be loaded from user or default directory. Error from user: "
               +:+ Error err +:+ ". Error from default: " +:+ Error defaultErr))
        | inr defaultTemplateContent => parse defaultTemplateContent
        end
    end.

Definition errCyclic : error :=
  Errorf "SMCP templates form cyclic dependency. Cannot proceed".

(** [recursivelyApplyTemplates].  The set [visited] is shared by all the
    calls of one resolution, so it is returned as the call leaves it.  The
    recursion follows template references and need not end: [fuel] bounds
    its depth, and [None] is a run that was cut off. *)
Fixpoint recursivelyApplyTemplates (fuel : nat) (smcp : v1.ControlPlaneSpec)
    (version : string) (visited : gset string)
  : option (v1.ControlPlaneSpec * option error * gset string) :=
  match fuel with
  | O => None
  | S fuel' =>
      if decide (v1.Template smcp = EmptyString) then Some (smcp, None, visited)
      else if decide (v1.Template smcp ∈ visited)
      then Some (smcp, Some errCyclic, visited)
      else
        match getSMCPTemplate (v1.Template smcp) version with
        | inl err => Some (smcp, Some err, visited)
        | inr template =>
            match recursivelyApplyTemplates fuel' template version visited with
            | None => None
            | Some (_, Some err, visited) => Some (smcp, Some err, visited)
            | Some (template, None, visited) =>
                let visited := {[ v1.Template smcp ]} ∪ visited in
                let smcp :=
                  v1.set_Istio
                    (v1.NewHelmValues
                       (mergeValues (v1.GetContent (v1.Istio smcp))
                                    (v1.GetContent (v1.Istio template)))) smcp in
                let smcp :=
                  v1.set_ThreeScale
                    (v1.NewHelmValues
                       (mergeValues (v1.GetContent (v1.ThreeScale smcp))
                                    (v1.GetContent (v1.ThreeScale template)))) smcp in
                Some (smcp, None, visited)
            end
        end
  end.

(** [helmValues.SetField(path, value)]; a nil receiver panics. *)
Definition SetField (helmValues : option (gmap string value)) (path : string)
    (val : value) : M (option (gmap string value) * option error) :=
  match helmValues with
  | None => panic "Tried to invoke SetField on nil *HelmValues"
  | Some data =>
      let '(data, err) := SetNestedField data val (v1.Split path v1.dot) in
      mret (Some data, err)
  end.

Definition updateImageField (helmValues : option (gmap string value))
    (path val : string) : M (option (gmap string value) * option error) :=
  if decide (String.length val = 0) then mret (helmValues, None)
  else SetField helmValues path (VString val).

Definition updateOauthProxyConfig (smcpSpec : v1.ControlPlaneSpec)
  : M (v1.ControlPlaneSpec * option error) :=
  r ← get;
  let cfg := OAuthProxy r in
  if negb (common.Query cfg)
     || bool_decide (String.length (common.Name cfg) = 0)
     || bool_decide (String.length (common.Namespace cfg) = 0)
  then mret (smcpSpec, None)
  else
    got ← call (EvGetImageStream (common.Namespace cfg) (common.Name cfg))
               (fun l => answerGetImageStream w l (common.Namespace cfg) (common.Name cfg));
    match got with
    | inr imageStream =>
        match List.find (fun tag => bool_decide (imagev1.Tag tag = common.Tag cfg))
                        (imagev1.Tags imageStream) with
        | Some tag =>
            match imagev1.Items tag with
            | item :: _ =>
                if decide (0 < String.length (imagev1.DockerImageReference item))
                then modify (set_OAuthProxy
                               (common.set_Image (imagev1.DockerImageReference item) cfg))
                else skip
            | [] => skip
            end
        | None => skip
        end
    | inl _ => skip
    end;;
    r ← get;
    let image := common.Image (OAuthProxy r) in
    if decide (String.length image = 0) then mret (smcpSpec, None)
    else
      '(istio, _) ← updateImageField (v1.Istio smcpSpec) "global.oauthproxy.image" image;
      mret (v1.set_Istio istio smcpSpec, None).

Definition applyDisconnectedSettings (smcpSpec : v1.ControlPlaneSpec)
    (version : string) : M (v1.ControlPlaneSpec * option error) :=
  '(smcpSpec, err) ← call (EvSetImageValues version smcpSpec)
                          (fun l => answerSetImageValues w l version smcpSpec);
  match err with
  | Some err => mret (smcpSpec, Some err)
  | None => updateOauthProxyConfig smcpSpec
  end.

Definition applyTemplates (fuel : nat) (smcpSpec : v1.ControlPlaneSpec)
    (version : string) : M (v1.ControlPlaneSpec * option error) :=
  let smcpSpec :=
    if decide (v1.Template smcpSpec = EmptyString)
    then v1.set_Template v1.DefaultTemplate smcpSpec
    else smcpSpec in
  let applyDisconnectedSettings_ :=
    let '(tag, _, _) := v1.GetString (v1.Istio smcpSpec) "global.tag" in
    if decide (tag <> EmptyString) then false
    else
      let '(hub, _, _) := v1.GetString (v1.Istio smcpSpec) "global.hub" in
      if decide (hub <> EmptyString) then false else true in
  match recursivelyApplyTemplates fuel smcpSpec version ∅ with
  | None => outOfFuel
  | Some (spec, err, _) =>
      if applyDisconnectedSettings_
      then
        '(spec, err) ← applyDisconnectedSettings spec version;
        match err with
        | Some err => mret (spec, Some err)
        | None => mret (spec, None)
        end
      else mret (spec, err)
  end.

Definition validateSMCPSpec (spec : v1.ControlPlaneSpec) (basePath : string)
  : option error :=
  match v1.Istio spec with
  | None =>
      Some (Errorf ("ServiceMeshControlPlane missing " +:+ basePath +:+ ".istio section"))
  | Some _ =>
      let '(_, ok, _) := v1.GetMap (v1.Istio spec) "global" in
      if negb ok
      then Some (Errorf ("ServiceMeshControlPlane missing " +:+ basePath
                         +:+ ".istio.global section"))
      else None
  end.

Definition isEnabled (spec : option (gmap string value)) : bool :=
  let '(enabled, found, _) := v1.GetBool spec "enabled" in
  if found then enabled else false.

(** ** Rendering *)

(** [r.Status.LastAppliedConfiguration.Istio.SetField(path, value)] *)
Definition setLastAppliedField (path : string) (val : value) : M (option error) :=
  r ← get;
  let spec := v2.LastAppliedConfiguration (Status r) in
  '(istio, err) ← SetField (v1.Istio spec) path val;
  modify (fun r =>
    set_Status (v2.set_LastAppliedConfiguration (v1.set_Istio istio spec) (Status r)) r);;
  mret err.

Definition renderCharts (fuel : nat) (version : string) : M (option error) :=
  r ← get;
  match Convert w (v2.Spec (Instance r)) with
  | inl err => mret (Some err)
  | inr v1spec =>
      modify (fun r =>
        set_Status (v2.set_LastAppliedConfiguration
                      (v1.set_Version version v1spec) (Status r)) r);;
      r ← get;
      '(spec, err) ← applyTemplates fuel (v2.LastAppliedConfiguration (Status r)) version;
      match err with
      | Some err => mret (Some err)
      | None =>
          modify (fun r => set_Status (v2.set_LastAppliedConfiguration spec (Status r)) r);;
          match validateSMCPSpec spec "status.lastAppliedConfiguration" with
          | Some err => mret (Some err)
          | None =>
              err ← setLastAppliedField "global.operatorNamespace"
                      (VString (OperatorNamespace w));
              match err with
              | Some err => mret (Some err)
              | None =>
                  r ← get;
                  err ← setLastAppliedField "istio_cni.enabled"
                          (VBool (cni.Enabled (cniConfig r)));
                  match err with
                  | Some err =>
                      mret (Some (Errorf
                        ("Could not set field status.lastAppliedConfiguration.istio.istio_cni.enabled: "
                         +:+ Error err)))
                  | None =>
                      match GetNetworkName w version with
                      | None => mret (Some (Errorf ("unknown maistra version: " +:+ version)))
                      | Some cniNetworkName =>
                          err ← setLastAppliedField "istio_cni.istio_cni_network"
                                  (VString cniNetworkName);
                          match err with
                          | Some err =>
                              mret (Some (Errorf
                                ("Could not set field status.lastAppliedConfiguration.istio.istio_cni.istio_cni_network: "
                                 +:+ Error err)))
                          | None =>
                              r ← get;
                              let spec := v2.LastAppliedConfiguration (Status r) in
                              let namespace := v2.Namespace (Instance r) in
                              let istioPath := GetChartsDir w version +:+ "/istio" in
                              let istioValues := v1.GetContent (v1.Istio spec) in
                              '(istioRenderings, err) ←
                                call (EvRenderChart istioPath namespace istioValues)
                                     (fun l => answerRenderChart w l istioPath namespace istioValues);
                              let allErrors := match err with Some err => [err] | None => [] end in
                              '(threeScaleRenderings, allErrors) ←
                                (if isEnabled (v1.ThreeScale spec)
                                 then
                                   let threeScalePath :=
                                     GetChartsDir w version +:+ "/maistra-threescale" in
                                   let threeScaleValues := v1.GetContent (v1.ThreeScale spec) in
                                   '(threeScaleRenderings, err) ←
                                     call (EvRenderChart threeScalePath namespace threeScaleValues)
                                          (fun l => answerRenderChart w l threeScalePath
                                                      namespace threeScaleValues);
                                   mret (threeScaleRenderings,
                                         match err with
                                         | Some err => allErrors ++ [err]
                                         | None => allErrors
                                         end)
                                 else mret (∅, allErrors));
                              if decide (0 < length allErrors)
                              then mret (Some (NewAggregate allErrors))
                              else
                                modify (set_renderings
                                          (Some (threeScaleRenderings ∪ istioRenderings)));;
                                mret None
                          end
                      end
                  end
              end
          end
      end
  end.

(** ** The reconciliation cycle *)

Definition initializeReconcileStatus : M unit :=
  r ← get;
  let generation := v2.Generation (Instance r) in
  '(readyMessage, eventReason, conditionReason) ←
    (if isUpdating r
     then
       let readyMessage :=
         if decide (v2.ObservedGeneration (Status r) = generation)
         then
           let fromVersion := GetReconciledVersion w (Status r) in
           let toVersion := CurrentReconciledVersion w generation in
           "Upgrading mesh from version " +:+ afterLast (ascii_of_nat 45) fromVersion
           +:+ " to version " +:+ afterLast (ascii_of_nat 45) toVersion
         else
           "Updating mesh from generation " +:+ fmt_d (v2.ObservedGeneration (Status r))
           +:+ " to generation " +:+ fmt_d generation in
       mret (readyMessage, eventReasonUpdating, status.ConditionReasonSpecUpdated)
     else
       let readyMessage := "Installing mesh generation " +:+ fmt_d generation in
       let conditionReason := status.ConditionReasonResourceCreated in
       modify (fun r => set_Status
         (v2.SetCondition
            {| status.Type_ := status.ConditionTypeInstalled;
               status.Status := status.ConditionStatusFalse;
               status.Reason := conditionReason;
               status.Message := readyMessage |} (Status r)) r);;
       mret (readyMessage, eventReasonInstalling, conditionReason));
  EventRecorder_Event corev1.EventTypeNormal eventReason readyMessage;;
  modify (fun r => set_Status
    (v2.SetCondition
       {| status.Type_ := status.ConditionTypeReconciled;
          status.Status := status.ConditionStatusFalse;
          status.Reason := conditionReason;
          status.Message := readyMessage |} (Status r)) r);;
  modify (fun r => set_Status
    (v2.SetCondition
       {| status.Type_ := status.ConditionTypeReady;
          status.Status := status.ConditionStatusFalse;
          status.Reason := conditionReason;
          status.Message := readyMessage |} (Status r)) r).

Definition postReconciliationStatus (reconciliationReason reconciliationMessage : string)
    (processingErr : option error) : M (option error) :=
  '(_, err) ← updateReadinessStatus;
  match err with
  | Some err => mret (Some err)
  | None =>
      r ← get;
      let reason := if isUpdating r then eventReasonUpdating else eventReasonInstalling in
      let reconciledCondition := v2.GetCondition (Status r) status.ConditionTypeReconciled in
      message ←
        match processingErr with
        | None => mret reconciliationMessage
        | Some processingErr =>
            let message :=
              reconciliationMessage +:+ ": error: " +:+ Error (Cause processingErr) in
            EventRecorder_Event corev1.EventTypeWarning reason message;;
            mret message
        end;
      modify (fun r => set_Status
        (v2.SetCondition
           {| status.Type_ := status.Type_ reconciledCondition;
              status.Status := status.Status reconciledCondition;
              status.Reason := reconciliationReason;
              status.Message := message |} (Status r)) r);;
      PostStatus
  end.

(** The values of the named result [err] and of the local variables
    [reconciliationReason], [reconciliationMessage] and
    [reconciliationComplete] when [Reconcile] reaches a [return]. *)
Record exit := {
  reconciliationReason : string;
  reconciliationMessage : string;
  err : option error;
  reconciliationComplete : bool }.

(** The component statuses of the charts in install order: the loop that
    initialises [r.Status.ComponentStatus]. *)
Definition componentStatuses (st : v2.ControlPlaneStatus)
    (charts : list (list string)) : list status.ComponentStatus :=
  (fun chartName =>
     let componentName := componentFromChartName chartName in
     let componentStatus :=
       match v2.FindComponentByName st componentName with
       | Some componentStatus => componentStatus
       | None => {| status.Resource := componentName;
                    status.Conditions := status.Conditions status.NewComponentStatus |}
       end in
     {| status.Resource := status.Resource componentStatus;
        status.Conditions :=
          status.SetCondition (status.Conditions componentStatus)
            {| status.Type_ := status.ConditionTypeReconciled;
               status.Status := status.ConditionStatusFalse;
               status.Reason := EmptyString;
               status.Message := EmptyString |} |})
  <$> concat charts.

(** The branch [if r.renderings == nil] of [Reconcile], from parsing the
    version to reconciling RBAC; [None] when it falls through to the
    installation of the components. *)
Definition Reconcile_render (fuel : nat) (reason0 message0 : string)
  : M (option exit) :=
  r ← get;
  match ParseVersion w (v2.Version (v2.Spec (Instance r))) with
  | inl err => mret (Some (Build_exit reason0 message0 (Some err) false))
  | inr version =>
  err ← renderCharts fuel version;
  match err with
  | Some err =>
      let message := "Error rendering helm charts" in
      mret (Some (Build_exit status.ConditionReasonReconcileError message
                    (Some (Wrap err message)) false))
  | None =>
  r ← get;
  let name := v2.Namespace (Instance r) in
  got ← call (EvGetNamespace name) (fun l => answerGetNamespace w l name);
  err ←
    match got with
    | inr namespace =>
        let labels := corev1.Labels namespace in
        let '(labels, updateLabels) :=
          if decide (labels !! "maistra.io/ignore-namespace" = Some "ignore")
          then (labels, false)
          else (<["maistra.io/ignore-namespace" := "ignore"]> labels, true) in
        let '(labels, updateLabels) :=
          if decide (labels !! common.MemberOfKey = Some (corev1.Name namespace))
          then (labels, updateLabels)
          else (<[common.MemberOfKey := corev1.Name namespace]> labels, true) in
        if updateLabels
        then
          let namespace := {| corev1.Name := corev1.Name namespace;
                              corev1.Labels := labels |} in
          call (EvUpdateNamespace namespace) (fun l => answerUpdateNamespace w l namespace)
        else mret None
    | inl err => mret (Some err)
    end;
  match err with
  | Some err =>
      let message := "Error updating labels on mesh namespace" in
      mret (Some (Build_exit status.ConditionReasonReconcileError message
                    (Some (Wrap err message)) false))
  | None =>
  charts ← chartsInInstallationOrder;
  modify (fun r => set_Status
    (v2.set_ComponentStatus (componentStatuses (Status r) charts) (Status r)) r);;
  modify (fun r => set_ownerRefs
    [ {| metav1.APIVersion := "maistra.io/v2";
         metav1.Kind := "ServiceMeshControlPlane";
         metav1.Name := v2.Name (Instance r);
         metav1.UID := v2.UID (Instance r);
         metav1.Controller := true;
         metav1.BlockOwnerDeletion := true |} ] r);;
  modify (fun r => set_meshGeneration
    (CurrentReconciledVersion w (v2.Generation (Instance r))) r);;
  let chartsDir := GetChartsDir w version in
  err ← call (EvInstallCRDs chartsDir) (fun l => answerInstallCRDs w l chartsDir);
  match err with
  | Some err =>
      mret (Some (Build_exit status.ConditionReasonReconcileError
                    "Failed to install/update Istio CRDs" (Some err) false))
  | None =>
  r ← get;
  paused ←
    (if cni.Enabled (cniConfig r)
     then
       modify (set_waitForComponents {[ "cni" ]});;
       err ← call EvInstallCNI (answerInstallCNI w);
       match err with
       | Some err =>
           mret (Some (Build_exit status.ConditionReasonReconcileError
                         "Failed to install/update Istio CNI" (Some err) false))
       | None =>
           '(ready, _) ← call EvIsCNIReady (answerIsCNIReady w);
           if negb ready
           then mret (Some (Build_exit status.ConditionReasonPausingInstall
                              "Paused until cni becomes ready" None false))
           else mret None
       end
     else mret None);
  match paused with
  | Some exit => mret (Some exit)
  | None =>
  err ← call EvReconcileRBAC (answerReconcileRBAC w);
  match err with
  | Some err =>
      mret (Some (Build_exit status.ConditionReasonReconcileError
                    "Failed to install/update Maistra RBAC resources" (Some err) false))
  | None => mret None
  end end end end end end.

(** The branch [else if r.waitForComponents.Len() > 0] of [Reconcile]. *)
Definition Reconcile_resume : M (option exit) :=
  '(readyComponents, _, readinessErr) ← calculateComponentReadiness;
  match readinessErr with
  | Some readinessErr =>
      let message := "Error checking component readiness" in
      mret (Some (Build_exit status.ConditionReasonProbeError message
                    (Some (Wrap readinessErr message)) false))
  | None =>
      modify (fun r => set_waitForComponents (waitForComponents r ∖ readyComponents) r);;
      r ← get;
      if decide (0 < size (waitForComponents r))
      then
        '(reason, message, err) ← pauseReconciliation;
        mret (Some (Build_exit reason message err false))
      else mret None
  end.

(** The loop [for _, chart := range charts] over the charts of a group. *)
Fixpoint Reconcile_charts (charts : list string) : M (option exit) :=
  match charts with
  | [] => mret None
  | chart :: charts' =>
      let component := componentFromChartName chart in
      '(hasReadiness, err) ← processComponentManifests chart;
      match err with
      | Some err =>
          mret (Some (Build_exit status.ConditionReasonReconcileError
                        ("Error processing component " +:+ component +:+ ": "
                         +:+ Error err)
                        (Some err) false))
      | None =>
          (if (hasReadiness : bool)
           then modify (fun r =>
                  set_waitForComponents ({[ component ]} ∪ waitForComponents r) r)
           else skip);;
          Reconcile_charts charts'
      end
  end.

(** The loop [for _, charts := range r.getChartsInInstallationOrder()]. *)
Fixpoint Reconcile_groups (groups : list (list string)) : M (option exit) :=
  match groups with
  | [] => mret None
  | charts :: groups' =>
      modify (set_waitForComponents ∅);;
      failed ← Reconcile_charts charts;
      match failed with
      | Some exit => mret (Some exit)
      | None =>
          r ← get;
          if decide (0 < size (waitForComponents r))
          then
            '(readyComponents, _, readyErr) ← calculateComponentReadiness;
            match readyErr with
            | Some _ =>
                '(reason, message, err) ← pauseReconciliation;
                mret (Some (Build_exit reason message err false))
            | None =>
                modify (fun r =>
                  set_waitForComponents (waitForComponents r ∖ readyComponents) r);;
                r ← get;
                if decide (0 < size (waitForComponents r))
                then
                  '(reason, message, err) ← pauseReconciliation;
                  mret (Some (Build_exit reason message err false))
                else Reconcile_groups groups'
            end
          else Reconcile_groups groups'
      end
  end.

(** Pruning and completion, the end of [Reconcile]. *)
Definition Reconcile_complete : M exit :=
  EventRecorder_Event corev1.EventTypeNormal eventReasonPruning "Pruning obsolete resources";;
  r ← get;
  err ← call (EvPrune (meshGeneration r)) (fun l => answerPrune w l (meshGeneration r));
  match err with
  | Some err =>
      let message := "Error pruning obsolete resources" in
      mret (Build_exit status.ConditionReasonReconcileError message
              (Some (Wrap err message)) false)
  | None =>
      r ← get;
      '(reason, message) ←
        (if isUpdating r
         then
           let message :=
             "Successfully updated from version " +:+ GetReconciledVersion w (Status r)
             +:+ " to version " +:+ meshGeneration r in
           EventRecorder_Event corev1.EventTypeNormal eventReasonUpdated message;;
           mret (status.ConditionReasonUpdateSuccessful, message)
         else
           let message := "Successfully installed version " +:+ meshGeneration r in
           EventRecorder_Event corev1.EventTypeNormal eventReasonInstalled message;;
           mret (status.ConditionReasonInstallSuccessful, message));
      modify (fun r => set_Status
        (v2.set_ReconciledVersion (meshGeneration r)
           (v2.set_ObservedGeneration (v2.Generation (Instance r)) (Status r))) r);;
      updateConditions None;;
      mret (Build_exit reason message None true)
  end.

(** The body of [Reconcile] after the deferred functions are set up, up to
    its [return]. *)
Definition Reconcile_body (fuel : nat) (reason0 message0 : string) : M exit :=
  r ← get;
  returned ←
    match renderings r with
    | None => Reconcile_render fuel reason0 message0
    | Some _ =>
        if decide (0 < size (waitForComponents r)) then Reconcile_resume
        else mret None
    end;
  match returned with
  | Some exit => mret exit
  | None =>
      groups ← chartsInInstallationOrder;
      returned ← Reconcile_groups groups;
      match returned with
      | Some exit => mret exit
      | None => Reconcile_complete
      end
  end.

(** [Reconcile].  The deferred functions run after the body, the one
    deferred last first: the error handling, deferred only when
    [r.renderings == nil] on entry, and then the posting of the status.
    A panic of the body is passed on as it is. *)
Definition Reconcile (fuel : nat) : M (option error) :=
  r ← get;
  if decide (status.Status (v2.GetCondition (Status r) status.ConditionTypeReconciled)
             <> status.ConditionStatusFalse)
  then
    initializeReconcileStatus;;
    PostStatus
  else
    let reconciledCondition := v2.GetCondition (Status r) status.ConditionTypeReconciled in
    let errorHandling := bool_decide (renderings r = None) in
    exit ← Reconcile_body fuel (status.Reason reconciledCondition)
                          (status.Message reconciledCondition);
    (if errorHandling
     then
       match err exit with
       | Some err =>
           modify (set_waitForComponents ∅);;
           updateConditions (Some err)
       | None => skip
       end
     else skip);;
    statusErr ← postReconciliationStatus (reconciliationReason exit)
                  (reconciliationMessage exit) (err exit);
    let err :=
      match statusErr, err exit with
      | Some statusErr, None => Some statusErr
      | _, err => err
      end in
    (if reconciliationComplete exit
     then call EvSleep (fun _ => tt)
     else skip);;
    mret err.

(** ** Session *)

Definition NewControlPlaneInstanceReconciler (newInstance : v2.ServiceMeshControlPlane)
    (cniConfig : cni.Config) (oauthProxy : common.OAuthProxyConfig)
    (log : list Event) : controlPlaneInstanceReconciler :=
  {| Instance := newInstance; Status := v2.Status newInstance; ownerRefs := [];
     meshGeneration := EmptyString; renderings := None; waitForComponents := ∅;
     cniConfig := cniConfig; OAuthProxy := oauthProxy; log := log |}.

Definition SetInstance (newInstance : v2.ServiceMeshControlPlane) : M unit :=
  r ← get;
  (if decide (v2.Generation newInstance <> v2.Generation (Instance r))
   then
     modify (set_renderings None);;
     modify (set_waitForComponents ∅);;
     modify (fun r => set_Status
       (v2.SetCondition
          {| status.Type_ := status.ConditionTypeReconciled;
             status.Status := status.ConditionStatusUnknown;
             status.Reason := EmptyString;
             status.Message := EmptyString |} (Status r)) r)
   else skip);;
  modify (set_Instance newInstance).

Definition IsFinished (r : controlPlaneInstanceReconciler) : bool :=
  bool_decide (status.Status (v2.GetCondition (Status r) status.ConditionTypeReconciled)
               = status.ConditionStatusTrue).

End methods.

End controlplane.

(** * Sample inputs *)

Module samples.
Import hacks.

Definition leaf (t : string) : JSONSchemaProps unit :=
  {| Type_ := t; OtherFields := tt; Items := None; AllOf := []; OneOf := [];
     AnyOf := []; Not := None; Properties := ∅; AdditionalProperties := None;
     PatternProperties := ∅; Dependencies := ∅; AdditionalItems := None;
     Definitions := ∅ |}.

(** An object with an object-typed property, an array of objects, a
    [oneOf] branch and a dependency that are objects. *)
Definition nested : JSONSchemaProps unit :=
  {| Type_ := "object"; OtherFields := tt;
     Items := Some {| items_Schema := Some (leaf "object");
                      items_JSONSchemas := [leaf "string"; leaf "object"] |};
     AllOf := []; OneOf := [leaf "object"; leaf "integer"]; AnyOf := [];
     Not := Some (leaf "object");
     Properties := {[ "spec" := leaf "object"; "name" := leaf "string" ]};
     AdditionalProperties := Some {| Allows := true; bool_Schema := Some (leaf "object") |};
     PatternProperties := ∅;
     Dependencies := {[ "a" := {| dep_Schema := Some (leaf "object"); dep_Property := ["b"] |} ]};
     AdditionalItems := None;
     Definitions := {[ "d" := leaf "object" ]} |}.

Definition crd_with_schema : CustomResourceDefinition unit unit :=
  {| ObjectMeta := tt;
     Spec := {| Validation := Some {| OpenAPIV3Schema := Some nested |};
                SpecOther := tt |} |}.

Import controlplane.

Definition ex_base : gmap string value :=
  {[ "a" := VNumber 1; "b" := VMap {[ "x" := VNumber 1 ]} ]}.
Definition ex_input : gmap string value :=
  {[ "b" := VMap {[ "x" := VNumber 2; "y" := VNumber 2 ]}; "c" := VNumber 3 ]}.
Definition ex_merged : gmap string value :=
  {[ "a" := VNumber 1; "b" := VMap {[ "x" := VNumber 1; "y" := VNumber 2 ]};
     "c" := VNumber 3 ]}.

(** Values that pin [global.tag]. *)
Definition ex_tagged : gmap string value :=
  {[ "global" := VMap {[ "tag" := VString "1.0.0" ]} ]}.

Definition ex_renderings : gmap string (list Manifest) :=
  {[ "istio" := []; "istio/charts/kiali" := []; "istio/charts/pilot" := [];
     "istio/charts/mixer" := []; "maistra-threescale/charts/foo" := [] ]}.

(** A world in which every call succeeds and nothing needs waiting for,
    except for the answers given as arguments. *)
Definition sampleWorld
    (readUserTemplate : string -> error + string)
    (parseVersion : string -> error + string)
    (getInstance : list Event -> string -> string -> error + v2.ServiceMeshControlPlane)
    (statusPatch : list Event -> v2.ServiceMeshControlPlane -> option error)
    (componentReadiness :
       list Event -> gset string -> gset string * gset string * option error)
  : World :=
  {| ReadUserTemplate := readUserTemplate;
     ReadDefaultTemplate := fun _ _ => inl (Errorf "no such file");
     Unmarshal := fun content =>
       if decide (content = "template: B") then
         inr {| v1.Version := EmptyString; v1.Template := "B";
                v1.Istio := None; v1.ThreeScale := None |}
       else if decide (content = "template: A") then
         inr {| v1.Version := EmptyString; v1.Template := "A";
                v1.Istio := None; v1.ThreeScale := None |}
       else if decide (content = "istio: {global: {tag: 1.1.0}}") then
         inr {| v1.Version := EmptyString; v1.Template := EmptyString;
                v1.Istio := Some {[ "global" := VMap {[ "tag" := VString "1.1.0" ]} ]};
                v1.ThreeScale := None |}
       else inl (Errorf "cannot unmarshal");
     ParseVersion := parseVersion;
     GetNetworkName := fun _ => Some "istio-cni";
     GetChartsDir := fun version => "/charts/" +:+ version;
     CurrentReconciledVersion := fun generation => "1.1.0-" +:+ fmt_d generation;
     GetReconciledVersion := v2.ReconciledVersion;
     Convert := fun spec =>
       inr {| v1.Version := v2.Version spec; v1.Template := EmptyString;
              v1.Istio := None; v1.ThreeScale := None |};
     updateControlPlaneConditions := fun st _ => st;
     OperatorNamespace := "istio-operator";
     answerGetNamespace := fun _ name =>
       inr {| corev1.Name := name; corev1.Labels := ∅ |};
     answerUpdateNamespace := fun _ _ => None;
     answerGetImageStream := fun _ _ _ => inl (StatusError StatusReasonNotFound "not found");
     answerGetInstance := getInstance;
     answerStatusPatch := statusPatch;
     answerSetImageValues := fun _ _ spec => (spec, None);
     answerRenderChart := fun _ _ _ _ => (∅, None);
     answerInstallCRDs := fun _ _ => None;
     answerInstallCNI := fun _ => None;
     answerIsCNIReady := fun _ => (true, None);
     answerReconcileRBAC := fun _ => None;
     answerProcessComponentManifests := fun _ st _ => (st, true, None);
     answerCalculateComponentReadiness := componentReadiness;
     answerUpdateReadinessStatus := fun _ st => (st, false, None);
     answerPrune := fun _ _ => None;
     rangeFirst := fun _ renderings => keys renderings;
     rangeSecond := fun _ renderings => keys renderings |}.

Definition noTemplates : string -> error + string :=
  fun _ => inl (Errorf "no such file").

(** Template "A" names template "B", and "B" names "A". *)
Definition cyclicTemplates : string -> error + string :=
  fun name =>
    if decide (name = "A") then inr "template: B"
    else if decide (name = "B") then inr "template: A"
    else inl (Errorf "no such file").

(** The template "default" pins [global.tag]. *)
Definition taggedDefaultTemplate : string -> error + string :=
  fun name =>
    if decide (name = "default") then inr "istio: {global: {tag: 1.1.0}}"
    else inl (Errorf "no such file").

Definition emptySpec : v1.ControlPlaneSpec :=
  {| v1.Version := EmptyString; v1.Template := EmptyString;
     v1.Istio := None; v1.ThreeScale := None |}.

Definition reconciling : status.Condition :=
  {| status.Type_ := status.ConditionTypeReconciled;
     status.Status := status.ConditionStatusFalse;
     status.Reason := status.ConditionReasonResourceCreated;
     status.Message := "Installing mesh generation 1" |}.

Definition ex_status (conditions : list status.Condition) : v2.ControlPlaneStatus :=
  {| v2.Conditions := conditions; v2.ObservedGeneration := 0;
     v2.ReconciledVersion := EmptyString; v2.ComponentStatus := [];
     v2.LastAppliedConfiguration := emptySpec |}.

Definition ex_instance : v2.ServiceMeshControlPlane :=
  {| v2.Name := "basic"; v2.Namespace := "istio-system"; v2.UID := "uid-1";
     v2.Generation := 1;
     v2.Spec := {| v2.Version := "v1.1"; v2.Content := VNil |};
     v2.Status := ex_status [] |}.

(** A reconciler whose working status has the Reconciled condition set to
    false while the instance it was given has no condition yet. *)
Definition ex_reconciler (renderings : option (gmap string (list Manifest)))
    (waitForComponents : gset string) : controlPlaneInstanceReconciler :=
  {| Instance := ex_instance; Status := ex_status [reconciling]; ownerRefs := [];
     meshGeneration := "1.1.0-1"; renderings := renderings;
     waitForComponents := waitForComponents;
     cniConfig := {| cni.Enabled := false |};
     OAuthProxy := {| common.Query := false; common.Name := EmptyString;
                      common.Namespace := EmptyString; common.Tag := EmptyString;
                      common.Image := EmptyString |};
     log := [] |}.

Definition instanceFound : list Event -> string -> string ->
    error + v2.ServiceMeshControlPlane :=
  fun _ _ _ => inr ex_instance.
Definition instanceNotFound : list Event -> string -> string ->
    error + v2.ServiceMeshControlPlane :=
  fun _ _ _ => inl (StatusError StatusReasonNotFound "servicemeshcontrolplane not found").
Definition patchAccepted : list Event -> v2.ServiceMeshControlPlane -> option error :=
  fun _ _ => None.
Definition allReady : list Event -> gset string ->
    gset string * gset string * option error :=
  fun _ waitFor => (waitFor, ∅, None).
Definition inspectionFails : list Event -> gset string ->
    gset string * gset string * option error :=
  fun _ waitFor => (∅, waitFor, Some (Errorf "connection refused")).
Definition versionKnown : string -> error + string := fun version => inr version.
Definition versionUnknown : string -> error + string :=
  fun version => inl (Errorf ("invalid version: " +:+ version)).

End samples.

(** * Further sample inputs *)

Module more_samples.
Import controlplane.

(** No component is ready yet. *)
Definition noneReady : list Event -> gset string ->
    gset string * gset string * option error :=
  fun _ waitFor => (∅, waitFor, None).

(** The world [w], except that the image stream is answered by [answer]. *)
Definition withImageStream (w : World)
    (answer : list Event -> string -> string -> error + imagev1.ImageStream) : World :=
  {| ReadUserTemplate := ReadUserTemplate w;
     ReadDefaultTemplate := ReadDefaultTemplate w;
     Unmarshal := Unmarshal w;
     ParseVersion := ParseVersion w;
     GetNetworkName := GetNetworkName w;
     GetChartsDir := GetChartsDir w;
     CurrentReconciledVersion := CurrentReconciledVersion w;
     GetReconciledVersion := GetReconciledVersion w;
     Convert := Convert w;
     updateControlPlaneConditions := updateControlPlaneConditions w;
     OperatorNamespace := OperatorNamespace w;
     answerGetNamespace := answerGetNamespace w;
     answerUpdateNamespace := answerUpdateNamespace w;
     answerGetImageStream := answer;
     answerGetInstance := answerGetInstance w;
     answerStatusPatch := answerStatusPatch w;
     answerSetImageValues := answerSetImageValues w;
     answerRenderChart := answerRenderChart w;
     answerInstallCRDs := answerInstallCRDs w;
     answerInstallCNI := answerInstallCNI w;
     answerIsCNIReady := answerIsCNIReady w;
     answerReconcileRBAC := answerReconcileRBAC w;
     answerProcessComponentManifests := answerProcessComponentManifests w;
     answerCalculateComponentReadiness := answerCalculateComponentReadiness w;
     answerUpdateReadinessStatus := answerUpdateReadinessStatus w;
     answerPrune := answerPrune w;
     rangeFirst := rangeFirst w;
     rangeSecond := rangeSecond w |}.



(** The process-wide configuration asks for the tag "4.1" of the image
    stream openshift/oauth-proxy, and no image is cached yet. *)
Definition ex_oauthProxy : common.OAuthProxyConfig :=
  {| common.Query := true; common.Name := "oauth-proxy";
     common.Namespace := "openshift"; common.Tag := "4.1";
     common.Image := EmptyString |}.

End more_samples.

(** * Measures and auxiliary notions *)

Section schema_measure.
Import hacks.
Context {Rest : Type}.

(** The number of nodes of a schema tree. *)
Fixpoint nodes_count (s : JSONSchemaProps Rest) : nat :=
  S (foldr (fun c acc => nodes_count c + acc) 0 (OneOf s)
     + foldr (fun c acc => nodes_count c + acc) 0 (AnyOf s)
     + foldr (fun c acc => nodes_count c + acc) 0 (AllOf s)
     + map_fold (fun _ c acc => nodes_count c + acc) 0 (Properties s)
     + map_fold (fun _ c acc => nodes_count c + acc) 0 (PatternProperties s)
     + map_fold (fun _ c acc => nodes_count c + acc) 0 (Definitions s)
     + from_option nodes_count 0 (Not s)
     + from_option (fun items =>
         from_option nodes_count 0 (items_Schema items)
         + foldr (fun c acc => nodes_count c + acc) 0 (items_JSONSchemas items))
         0 (Items s)
     + from_option (fun ap => from_option nodes_count 0 (bool_Schema ap)) 0
         (AdditionalProperties s)
     + from_option (fun ai => from_option nodes_count 0 (bool_Schema ai)) 0
         (AdditionalItems s)
     + map_fold (fun _ d acc => from_option nodes_count 0 (dep_Schema d) + acc) 0
         (Dependencies s)).
End schema_measure.

(** The number of nodes of a document. *)
Fixpoint value_size (v : value) : nat :=
  match v with
  | VSlice l => S (foldr (fun x acc => value_size x + acc) 0 l)
  | VMap m => S (map_fold (fun _ x acc => value_size x + acc) 0 m)
  | _ => 1
  end.

(** [ends_after w version n smcp]: following the template references from
    [smcp] ends after at most [n] templates, at a spec that names no
    template or at a template that cannot be loaded. *)
Inductive ends_after (w : controlplane.World) (version : string)
  : nat -> v1.ControlPlaneSpec -> Prop :=
  | ends_unnamed n smcp :
      v1.Template smcp = EmptyString -> ends_after w version n smcp
  | ends_unloadable n smcp err :
      controlplane.getSMCPTemplate w (v1.Template smcp) version = inl err ->
      ends_after w version n smcp
  | ends_next n smcp template :
      controlplane.getSMCPTemplate w (v1.Template smcp) version = inr template ->
      ends_after w version n template ->
      ends_after w version (S n) smcp.

(** The events of posting the status: the fetch and the patch. *)
Definition isStatusPost (ev : controlplane.Event) : bool :=
  match ev with
  | controlplane.EvGetInstance _ _ | controlplane.EvStatusPatch _ => true
  | _ => false
  end.

(** [keeps when f m]: whenever the method [m] returns a result of which
    [when] holds, the reconciler has afterwards the [f] it had before. *)
Definition keeps {A X : Type} (when : A -> Prop)
    (f : controlplane.controlPlaneInstanceReconciler -> X) (m : controlplane.M A) : Prop :=
  forall r a r', m r = controlplane.Returns (a, r') -> when a -> f r' = f r.

(** A projection of the reconciler that does not look at the events. *)
Definition blind_to_log {X : Type}
    (f : controlplane.controlPlaneInstanceReconciler -> X) : Prop :=
  forall l r, f (controlplane.set_log l r) = f r.

Definition always {A : Type} : A -> Prop := fun _ => True.

(** [ensures when P m]: whenever the method [m] returns a result of which
    [when] holds, [P] holds of the reconciler afterwards. *)
Definition ensures {A : Type} (when : A -> Prop)
    (P : controlplane.controlPlaneInstanceReconciler -> Prop) (m : controlplane.M A) : Prop :=
  forall r a r', m r = controlplane.Returns (a, r') -> when a -> P r'.

(** [yields P m]: every result that the method [m] returns satisfies [P]. *)
Definition yields {A : Type} (P : A -> Prop) (m : controlplane.M A) : Prop :=
  forall r a r', m r = controlplane.Returns (a, r') -> P a.

(** A result of a part of [Reconcile] that is no completed exit. *)
Definition not_complete (returned : option controlplane.exit) : Prop :=
  forall exit, returned = Some exit -> controlplane.reconciliationComplete exit = false.

(** The exits of [Reconcile] that report completion. *)
Definition complete_exit (exit : controlplane.exit) : Prop :=
  controlplane.reconciliationComplete exit = true ->
  controlplane.err exit = None
  /\ (controlplane.reconciliationReason exit = status.ConditionReasonInstallSuccessful
      \/ controlplane.reconciliationReason exit = status.ConditionReasonUpdateSuccessful).

(** * Properties *)

(** Unfolds the operations of the monad [controlplane.M]. *)
Ltac run :=
  unfold mbind, controlplane.M_bind, mret, controlplane.M_ret, controlplane.get,
    controlplane.modify, controlplane.call, controlplane.skip, controlplane.panic,
    controlplane.outOfFuel in *;
  simpl in *.

(** ** Strings *)

Lemma append_cons c a b : String c a +:+ b = String c (a +:+ b).
Proof. reflexivity. Qed.
Lemma append_nil b : EmptyString +:+ b = b.
Proof. reflexivity. Qed.

Lemma HasPrefix_spec s p : HasPrefix s p = true <-> exists b, s = p +:+ b.
Proof.
  unfold HasPrefix. revert s. induction p as [|c p IH]; intros s.
  - destruct s; simpl; (split; [intros _; by eexists | done]).
  - destruct s as [|d s]; simpl; [split; [done | by intros [b ?]]|].
    destruct (Ascii.ascii_dec c d) as [->|Hne].
    + rewrite IH. split; intros [b Hb]; exists b; rewrite append_cons in *; congruence.
    + split; [done | intros [b Hb]; rewrite append_cons in Hb; congruence].
Qed.

Lemma Contains_spec s sub :
  Contains s sub = true <-> exists a b, s = a +:+ sub +:+ b.
Proof.
  induction s as [|c s IH]; simpl.
  - destruct (HasPrefix EmptyString sub) eqn:Hp.
    + apply HasPrefix_spec in Hp as [b Hb]. split; [|done].
      intros _. by exists EmptyString, b.
    + split; [done|]. intros (a & b & Hab).
      destruct a; [|done]. rewrite append_nil in Hab.
      assert (HasPrefix EmptyString sub = true) by (apply HasPrefix_spec; eauto).
      congruence.
  - destruct (HasPrefix (String c s) sub) eqn:Hp.
    + apply HasPrefix_spec in Hp as [b Hb]. split; [|done].
      intros _. by exists EmptyString, b.
    + rewrite IH. split.
      * intros (a & b & ->). by exists (String c a), b.
      * intros (a & b & Hab). destruct a as [|d a].
        -- rewrite append_nil in Hab.
           assert (HasPrefix (String c s) sub = true)
             by (apply HasPrefix_spec; eauto).
           congruence.
        -- rewrite append_cons in Hab. exists a, b. congruence.
Qed.

(** ** Helpers, on sample inputs *)

Example Split_path : v1.Split "global.oauthproxy.image" v1.dot = ["global"; "oauthproxy"; "image"].
Proof. reflexivity. Qed.

Example componentFromChartName_pilot :
  controlplane.componentFromChartName "istio/charts/pilot" = "pilot"
  /\ controlplane.componentFromChartName "istio" = "istio".
Proof. by vm_compute. Qed.

Example sets_List_is_sorted :
  controlplane.sets_List {[ "pilot"; "galley"; "mixer" ]} = ["galley"; "mixer"; "pilot"].
Proof. by vm_compute. Qed.

Example typeObjectProblem_contained :
  hacks.IsTypeObjectProblemInCRDSchemas
    (Some (Errorf ("CustomResourceDefinition is invalid: spec.validation.openAPIV3Schema: "
                   +:+ hacks.typeObjectProblem))) = true
  /\ hacks.IsTypeObjectProblemInCRDSchemas (Some (Errorf "must only have properties")) = false
  /\ String.length hacks.typeObjectProblem = 105.
Proof. by vm_compute. Qed.

(** ** The CRD schema sanitizer *)

Section hacks_properties.
Import hacks.
Context {Rest Meta : Type}.
Implicit Types (s n : JSONSchemaProps Rest) (p : position) (path : list position).

Lemma removeTypeObjectField_Type s :
  Type_ (removeTypeObjectField s)
  = if decide (Type_ s = "object") then EmptyString else Type_ s.
Proof. by destruct s. Qed.

Lemma removeTypeObjectField_Type_not_object s :
  Type_ (removeTypeObjectField s) <> "object".
Proof. rewrite removeTypeObjectField_Type. by case_decide. Qed.

Lemma child_removeTypeObjectField p s :
  child p (removeTypeObjectField s) = removeTypeObjectField <$> child p s.
Proof.
  destruct s as [t o items allOf oneOf anyOf nt props ap pprops deps ai defs].
  destruct p; simpl; rewrite ?list_lookup_fmap, ?lookup_fmap; try done.
  - by destruct items.
  - destruct items as [[? js]|]; simpl; [|done]. by rewrite list_lookup_fmap.
  - by destruct ap.
  - by destruct ai.
  - by destruct (deps !! k).
Qed.

Lemma node_at_removeTypeObjectField path s :
  node_at path (removeTypeObjectField s) = removeTypeObjectField <$> node_at path s.
Proof.
  revert s. induction path as [|p path IH]; intros s; simpl; [done|].
  rewrite child_removeTypeObjectField.
  destruct (child p s) as [c|]; simpl; [apply IH | done].
Qed.

Lemma removeTypeObjectField_unchanged_but_type n :
  unchanged_but_type n (removeTypeObjectField n).
Proof.
  destruct n as [t o items allOf oneOf anyOf nt props ap pprops deps ai defs].
  unfold unchanged_but_type, Items_present, Dependencies_Property; simpl.
  repeat split.
  - by destruct items.
  - by destruct ap.
  - by destruct ai.
  - rewrite <- map_fmap_compose. done.
Qed.

End hacks_properties.

Section hacks_sanitizer.
Import hacks.
Context {Rest Meta : Type}.

(** C1. On a CRD with a validation schema at its root,
    [RemoveTypeObjectFieldsFromCRDSchema] succeeds, leaves the CRD outside
    the schema as it is, and the schema it leaves behind has no node, at
    any path of sub-schema positions, whose type is "object"; the nodes of
    the new schema are at the same paths as the nodes of the old one, and
    each holds what the old one held except for a type that was "object". *)
Theorem sanitizer_removes_every_type_object
    (crd : CustomResourceDefinition Rest Meta) validation root :
  Validation (Spec crd) = Some validation ->
  OpenAPIV3Schema validation = Some root ->
  exists crd' root',
    RemoveTypeObjectFieldsFromCRDSchema crd = (crd', None)
    /\ ObjectMeta crd' = ObjectMeta crd
    /\ SpecOther (Spec crd') = SpecOther (Spec crd)
    /\ Validation (Spec crd') ≫= OpenAPIV3Schema = Some root'
    /\ (forall path n', node_at path root' = Some n' -> Type_ n' <> "object")
    /\ (forall path,
          match node_at path root, node_at path root' with
          | Some n, Some n' => unchanged_but_type n n'
          | None, None => True
          | _, _ => False
          end).
Proof.
  intros Hv Hr. unfold RemoveTypeObjectFieldsFromCRDSchema. rewrite Hv, Hr.
  eexists _, (removeTypeObjectField root). repeat split.
  - intros path n'. rewrite node_at_removeTypeObjectField.
    destruct (node_at path root) as [n|]; simpl; [|done].
    intros [= <-]. apply removeTypeObjectField_Type_not_object.
  - intros path. rewrite node_at_removeTypeObjectField.
    destruct (node_at path root) as [n|]; simpl; [|done].
    apply removeTypeObjectField_unchanged_but_type.
Qed.

(** C8. A CRD without [spec.validation], or without
    [spec.validation.openAPIV3Schema], makes the sanitizer fail and is
    returned as it was; and [IsTypeObjectProblemInCRDSchemas] holds exactly
    of a non-nil error whose message contains the rejection phrase. *)
Theorem sanitizer_missing_schema_and_rejection_predicate :
  (forall (meta other : Meta),
      let crd : CustomResourceDefinition Rest Meta :=
        {| ObjectMeta := meta; Spec := {| Validation := None; SpecOther := other |} |} in
      RemoveTypeObjectFieldsFromCRDSchema crd = (crd, Some errNoSchema))
  /\ (forall (meta other : Meta),
      let crd : CustomResourceDefinition Rest Meta :=
        {| ObjectMeta := meta;
           Spec := {| Validation := Some {| OpenAPIV3Schema := None |};
                      SpecOther := other |} |} in
      RemoveTypeObjectFieldsFromCRDSchema crd = (crd, Some errNoSchema))
  /\ IsTypeObjectProblemInCRDSchemas None = false
  /\ (forall err : option error,
      IsTypeObjectProblemInCRDSchemas err = true
      <-> exists e a b, err = Some e /\ Error e = a +:+ typeObjectProblem +:+ b).
Proof.
  split; [done|]. split; [done|]. split; [done|].
  intros [e|]; simpl.
  - rewrite Contains_spec. split.
    + intros (a & b & Hab). by exists e, a, b.
    + intros (e' & a & b & [= <-] & Hab). by exists a, b.
  - split; [done|]. by intros (e & a & b & ? & _).
Qed.

End hacks_sanitizer.

Lemma sanitizer_removes_every_type_object_witness :
  let crd := samples.crd_with_schema in
  let validation := {| hacks.OpenAPIV3Schema := Some samples.nested |} in
  hacks.Validation (hacks.Spec crd) = Some validation
  /\ hacks.OpenAPIV3Schema validation = Some samples.nested
  /\ exists crd' root',
       hacks.RemoveTypeObjectFieldsFromCRDSchema crd = (crd', None)
       /\ hacks.ObjectMeta crd' = hacks.ObjectMeta crd
       /\ hacks.SpecOther (hacks.Spec crd') = hacks.SpecOther (hacks.Spec crd)
       /\ hacks.Validation (hacks.Spec crd') ≫= hacks.OpenAPIV3Schema = Some root'
       /\ (forall path n', hacks.node_at path root' = Some n' ->
                           hacks.Type_ n' <> "object")
       /\ (forall path,
             match hacks.node_at path samples.nested, hacks.node_at path root' with
             | Some n, Some n' => hacks.unchanged_but_type n n'
             | None, None => True
             | _, _ => False
             end).
Proof.
  split; [reflexivity|]. split; [reflexivity|].
  apply (sanitizer_removes_every_type_object samples.crd_with_schema
           {| hacks.OpenAPIV3Schema := Some samples.nested |} samples.nested);
    reflexivity.
Defined.

Example sanitizer_on_nested_property :
  hacks.node_at [hacks.InProperties "spec"]
    (hacks.removeTypeObjectField samples.nested) = Some (samples.leaf EmptyString)
  /\ hacks.Type_ (hacks.removeTypeObjectField samples.nested) = EmptyString
  /\ hacks.node_at [hacks.InItemsJSONSchemas 0]
       (hacks.removeTypeObjectField samples.nested) = Some (samples.leaf "string").
Proof. vm_compute. done. Qed.

(** ** Deep value merge *)

Section mergeValues_properties.
Import controlplane.
Implicit Types (base input : gmap string value) (key : string) (v : value).

Lemma mergeValues_lookup base input key :
  mergeValues base input !! key = merged_at base input key.
Proof.
  unfold mergeValues; simpl.
  apply (map_fold_weak_ind (fun acc im => acc !! key = merged_at base im key)).
  - unfold merged_at. rewrite lookup_empty. by destruct (base !! key) as [[]|].
  - intros i x m acc Hi IH.
    destruct (decide (i = key)) as [->|Hne].
    + assert (acc !! key = base !! key) as Hacc.
      { rewrite IH. unfold merged_at. rewrite Hi.
        by destruct (base !! key) as [[]|]. }
      unfold merged_at. rewrite lookup_insert_eq, Hacc.
      destruct (base !! key) as [b|] eqn:Hb.
      * destruct b; try (by rewrite Hacc).
        destruct x; try (by rewrite Hacc).
        by rewrite lookup_insert_eq.
      * by rewrite lookup_insert_eq.
    + assert (merged_at base (<[i:=x]> m) key = merged_at base m key) as ->.
      { unfold merged_at. by rewrite lookup_insert_ne. }
      rewrite <- IH.
      destruct (acc !! i) as [b|]; [|by rewrite lookup_insert_ne].
      destruct b; try done. destruct x; try done. by rewrite lookup_insert_ne.
Qed.

Lemma mergeValues_base_leaf_wins path : forall base input v,
  get_path path (VMap base) = Some v -> is_map v = false ->
  get_path path (VMap (mergeValues base input)) = Some v.
Proof.
  induction path as [|key path IH]; intros base input v Hget Hleaf.
  - simpl in Hget. injection Hget as <-. done.
  - simpl in *. rewrite mergeValues_lookup. unfold merged_at.
    destruct (base !! key) as [b|] eqn:Hb; [|done]. simpl in Hget.
    destruct b; try done.
    destruct (input !! key) as [[]|]; simpl; try done.
    destruct path as [|key' path]; [simpl in Hget; by injection Hget as <-|].
    by apply IH.
Qed.

End mergeValues_properties.

(** C4. [mergeValues base input] holds, at each key, the value of [input]
    where [base] has none, the recursively merged map where both hold
    maps, and the value of [base] in every other case; so a value of
    [base] that is not a map is found again at the same path in the
    result, at any depth; and merging [{b:{x:2,y:2}, c:3}] into
    [{a:1, b:{x:1}}] gives [{a:1, b:{x:1,y:2}, c:3}]. *)
Theorem mergeValues_base_wins :
  (forall base input key,
      controlplane.mergeValues base input !! key
      = controlplane.merged_at base input key)
  /\ (forall base input path v,
      get_path path (VMap base) = Some v ->
      is_map v = false ->
      get_path path
        (VMap (controlplane.mergeValues base input)) = Some v)
  /\ controlplane.mergeValues samples.ex_base samples.ex_input = samples.ex_merged.
Proof.
  split; [apply mergeValues_lookup|]. split.
  - intros base input path v. apply mergeValues_base_leaf_wins.
  - vm_compute. reflexivity.
Qed.

Lemma mergeValues_base_wins_witness :
  get_path ["b"; "x"] (VMap samples.ex_base)
    = Some (VNumber 1)
  /\ is_map (VNumber 1) = false
  /\ get_path ["b"; "x"]
       (VMap (controlplane.mergeValues samples.ex_base samples.ex_input))
     = Some (VNumber 1).
Proof.
  split; [reflexivity|]. split; [reflexivity|].
  apply (proj1 (proj2 mergeValues_base_wins)
           samples.ex_base samples.ex_input ["b"; "x"] (VNumber 1));
    reflexivity.
Defined.

(** ** Install ordering *)

Section install_order.
Import controlplane.
Context (renderings : gmap string (list Manifest)).
Implicit Types (chart : string) (charts : list (list string)) (seen : gset string).

Local Abbreviation rendered := (fun chart : string => is_Some (renderings !! chart)).
Local Abbreviation single := (fun chart : string => [chart]).

Lemma filter_ext_elem_of {A} (P Q : A -> Prop)
    `{!forall x, Decision (P x)} `{!forall x, Decision (Q x)} (l : list A) :
  (forall x, x ∈ l -> P x <-> Q x) -> filter P l = filter Q l.
Proof.
  induction l as [|x l IH]; intros HPQ; [done|].
  rewrite !filter_cons.
  destruct (decide (P x)) as [HP|HP], (decide (Q x)) as [HQ|HQ].
  - f_equal. apply IH. intros y Hy. apply HPQ. by right.
  - destruct HQ. apply HPQ; [left|done].
  - destruct HP. apply HPQ; [left|done].
  - apply IH. intros y Hy. apply HPQ. by right.
Qed.

Lemma chartsToDeploy_loop chartSet : forall chartsToDeploy seen,
  foldl (fun '(chartsToDeploy, seen) chart =>
      if decide (is_Some (renderings !! chart))
      then (chartsToDeploy ++ [chart], {[chart]} ∪ seen)
      else (chartsToDeploy, seen))
    (chartsToDeploy, seen) chartSet
  = (chartsToDeploy ++ filter rendered chartSet,
     list_to_set (filter rendered chartSet) ∪ seen).
Proof.
  induction chartSet as [|chart chartSet IH]; intros chartsToDeploy seen; simpl.
  - rewrite app_nil_r. f_equal. set_solver.
  - rewrite filter_cons. destruct (decide (is_Some (renderings !! chart))).
    + rewrite IH, <- app_assoc. f_equal. set_solver.
    + apply IH.
Qed.

Lemma orderedCharts_loop ordered : forall charts seen,
  foldl (orderedStep renderings) (charts, seen) ordered
  = (charts ++ filter (fun group => group <> []) (filter rendered <$> ordered),
     list_to_set (concat (filter rendered <$> ordered)) ∪ seen).
Proof.
  induction ordered as [|chartSet ordered IH]; intros charts seen; simpl.
  - rewrite app_nil_r. f_equal. set_solver.
  - unfold orderedStep at 1. rewrite chartsToDeploy_loop. simpl.
    rewrite filter_cons.
    destruct (filter rendered chartSet) as [|c cs] eqn:Hf; simpl.
    + rewrite IH. f_equal. set_solver.
    + rewrite IH, <- app_assoc. simpl. f_equal.
      rewrite list_to_set_app_L. set_solver.
Qed.

Lemma istio_loop range : forall charts seen,
  NoDup range ->
  foldl istioStep (charts, seen) range
  = (charts ++ (single <$>
       filter (fun chart => HasPrefix chart "istio/" = true /\ chart ∉ seen) range),
     list_to_set
       (filter (fun chart => HasPrefix chart "istio/" = true /\ chart ∉ seen) range)
     ∪ seen).
Proof.
  induction range as [|chart range IH]; intros charts seen Hnd; simpl.
  - rewrite app_nil_r. f_equal. set_solver.
  - apply NoDup_cons in Hnd as [Hchart Hnd]. rewrite filter_cons.
    destruct (HasPrefix chart "istio/") eqn:Hp; simpl.
    + destruct (decide (chart ∈ seen)) as [Hs|Hs].
      * rewrite bool_decide_eq_false_2 by (by intros ?).
        rewrite decide_False by (by intros [_ ?]). by apply IH.
      * rewrite bool_decide_eq_true_2 by done.
        rewrite decide_True by done. rewrite IH by done.
        rewrite (filter_ext_elem_of
                   (fun c => HasPrefix c "istio/" = true /\ c ∉ {[chart]} ∪ seen)
                   (fun c => HasPrefix c "istio/" = true /\ c ∉ seen)).
        -- rewrite <- app_assoc. simpl. f_equal. set_solver.
        -- intros c Hc. set_solver.
    + try (rewrite decide_False by (by intros [? _])). by apply IH.
Qed.

Lemma other_loop seen range : forall charts,
  foldl (otherStep seen) charts range
  = charts ++ (single <$> filter (fun chart => chart ∉ seen) range).
Proof.
  induction range as [|chart range IH]; intros charts; simpl.
  - by rewrite app_nil_r.
  - rewrite filter_cons. unfold otherStep at 2.
    destruct (decide (chart ∉ seen)).
    + rewrite bool_decide_eq_true_2 by done. rewrite IH, <- app_assoc. done.
    + rewrite bool_decide_eq_false_2 by done. apply IH.
Qed.

Lemma elem_of_concat_filter (P : string -> Prop) `{!forall x, Decision (P x)}
    (ls : list (list string)) chart :
  chart ∈ concat (filter P <$> ls) <-> P chart /\ chart ∈ concat ls.
Proof.
  induction ls as [|l ls IH]; simpl.
  - set_solver.
  - rewrite !elem_of_app, IH, list_elem_of_filter. tauto.
Qed.

Lemma elem_of_keys chart : chart ∈ keys renderings <-> is_Some (renderings !! chart).
Proof. unfold keys. by rewrite elem_of_elements, elem_of_dom. Qed.

Lemma NoDup_keys : NoDup (keys renderings).
Proof. unfold keys. apply NoDup_elements. Qed.

Lemma getChartsInInstallationOrder_eq range1 range2 :
  range1 ≡ₚ keys renderings -> range2 ≡ₚ keys renderings ->
  getChartsInInstallationOrder renderings range1 range2
  = filter (fun group => group <> []) (filter rendered <$> orderedCharts)
    ++ (single <$> filter (fun chart =>
          HasPrefix chart "istio/" = true /\ chart ∉ concat orderedCharts) range1)
    ++ (single <$> filter (fun chart =>
          ~ HasPrefix chart "istio/" = true /\ chart ∉ concat orderedCharts) range2).
Proof.
  intros H1 H2. unfold getChartsInInstallationOrder.
  generalize orderedCharts. intros ordered.
  rewrite orderedCharts_loop. rewrite istio_loop
    by (rewrite H1; apply NoDup_keys).
  rewrite other_loop. simpl. rewrite <- app_assoc. f_equal. f_equal.
  - f_equal. apply filter_ext_elem_of. intros chart Hc.
    rewrite H1, elem_of_keys in Hc.
    rewrite union_empty_r_L, elem_of_list_to_set, elem_of_concat_filter. tauto.
  - f_equal. apply filter_ext_elem_of. intros chart Hc.
    assert (chart ∈ range1) as Hc1 by (by rewrite H1, <- H2).
    rewrite H2, elem_of_keys in Hc.
    rewrite !union_empty_r_L, elem_of_union, !elem_of_list_to_set,
      list_elem_of_filter, elem_of_list_to_set, !elem_of_concat_filter.
    destruct (HasPrefix chart "istio/"); split.
    + intros Hn. destruct (decide (chart ∈ concat ordered)); tauto.
    + intros [Hn _]. by destruct Hn.
    + intros Hn. split; [done|]. tauto.
    + intros [_ Hn]. intros [[[? _] _]|[_ ?]]; done.
Qed.

End install_order.

Section partition.
Import controlplane.

Lemma concat_filter_nonempty {A} `{EqDecision A} (ls : list (list A)) :
  concat (filter (fun group => group <> []) ls) = concat ls.
Proof.
  induction ls as [|l ls IH]; [done|]. rewrite filter_cons.
  destruct (decide (l <> [])) as [Hl|Hl]; simpl; [by rewrite IH|].
  destruct l; [by rewrite IH | by destruct Hl].
Qed.

Lemma concat_fmap_filter {A} (P : A -> Prop) `{!forall x, Decision (P x)}
    (ls : list (list A)) :
  concat (filter P <$> ls) = filter P (concat ls).
Proof.
  induction ls as [|l ls IH]; [done|].
  rewrite fmap_cons. cbn [concat]. by rewrite filter_app, IH.
Qed.

Lemma concat_fmap_single {A} (l : list A) :
  concat ((fun x => [x]) <$> l) = l.
Proof.
  induction l as [|x l IH]; [done|]. rewrite fmap_cons. cbn [concat app].
  by rewrite IH.
Qed.

Lemma concat_groups_disjoint {A} (ls : list (list A)) : forall i j g g' x,
  NoDup (concat ls) ->
  ls !! i = Some g -> ls !! j = Some g' -> x ∈ g -> x ∈ g' -> i = j.
Proof.
  assert (forall (ks : list (list A)) j g' x,
             ks !! j = Some g' -> x ∈ g' -> x ∈ concat ks) as Hin.
  { induction ks as [|k ks IH]; intros [|j] g' x Hj Hx; simplify_eq/=.
    - apply elem_of_app. by left.
    - apply elem_of_app. right. by eapply IH. }
  induction ls as [|l ls IH]; intros i j g g' x Hnd Hi Hj Hg Hg'; [done|].
  simpl in Hnd. apply NoDup_app in Hnd as (_ & Hdisj & Hnd).
  destruct i as [|i], j as [|j]; simplify_eq/=.
  - done.
  - destruct (Hdisj x Hg). by eapply Hin.
  - destruct (Hdisj x Hg'). by eapply Hin.
  - f_equal. by eapply IH.
Qed.

Lemma NoDup_concat_orderedCharts : NoDup (concat orderedCharts).
Proof. by apply (bool_decide_unpack _). Qed.

End partition.

(** C6. Whatever the orders in which the two loops meet the rendered
    charts, [getChartsInInstallationOrder] returns the predefined groups in
    their fixed order, each cut down to the rendered charts and left out
    when empty; then, one group each, the rendered charts under "istio/"
    that are in no predefined group; then, one group each, the rendered
    charts that are left.  For the renderings [istio], [kiali], [pilot],
    [mixer] and [maistra-threescale/charts/foo] this is [[istio]],
    [[mixer; pilot]], [[kiali]], [[maistra-threescale/charts/foo]]. *)
Theorem install_order_groups :
  (forall (renderings : gmap string (list controlplane.Manifest)) range1 range2,
      range1 ≡ₚ controlplane.keys renderings ->
      range2 ≡ₚ controlplane.keys renderings ->
      controlplane.getChartsInInstallationOrder renderings range1 range2
      = filter (fun group => group <> [])
          (filter (fun chart => is_Some (renderings !! chart))
             <$> controlplane.orderedCharts)
        ++ ((fun chart => [chart]) <$> filter (fun chart =>
              HasPrefix chart "istio/" = true
              /\ chart ∉ concat controlplane.orderedCharts) range1)
        ++ ((fun chart => [chart]) <$> filter (fun chart =>
              ~ HasPrefix chart "istio/" = true
              /\ chart ∉ concat controlplane.orderedCharts) range2))
  /\ (forall range1 range2,
      range1 ≡ₚ controlplane.keys samples.ex_renderings ->
      range2 ≡ₚ controlplane.keys samples.ex_renderings ->
      controlplane.getChartsInInstallationOrder samples.ex_renderings range1 range2
      = [ ["istio"]; ["istio/charts/mixer"; "istio/charts/pilot"];
          ["istio/charts/kiali"]; ["maistra-threescale/charts/foo"] ]).
Proof.
  split; [apply getChartsInInstallationOrder_eq|].
  intros range1 range2 H1 H2.
  rewrite getChartsInInstallationOrder_eq by done.
  assert (filter (fun chart => HasPrefix chart "istio/" = true
            /\ chart ∉ concat controlplane.orderedCharts) range1 = []) as ->.
  { apply Permutation_nil_r. rewrite H1. by vm_compute. }
  assert (filter (fun chart => ~ HasPrefix chart "istio/" = true
            /\ chart ∉ concat controlplane.orderedCharts) range2
          = ["maistra-threescale/charts/foo"]) as ->.
  { apply Permutation_singleton_r. rewrite H2. by vm_compute. }
  by vm_compute.
Qed.

Lemma install_order_groups_witness :
  let range := controlplane.keys samples.ex_renderings in
  range ≡ₚ controlplane.keys samples.ex_renderings
  /\ controlplane.getChartsInInstallationOrder samples.ex_renderings range range
     = [ ["istio"]; ["istio/charts/mixer"; "istio/charts/pilot"];
         ["istio/charts/kiali"]; ["maistra-threescale/charts/foo"] ].
Proof.
  split; [reflexivity|].
  apply (proj2 install_order_groups); reflexivity.
Defined.

(** C10. Whatever the orders of the two loops, the groups returned by
    [getChartsInInstallationOrder] hold no chart twice, hold exactly the
    charts of the rendering, and no chart is in two groups. *)
Theorem install_order_partition
    (renderings : gmap string (list controlplane.Manifest)) range1 range2 :
  range1 ≡ₚ controlplane.keys renderings ->
  range2 ≡ₚ controlplane.keys renderings ->
  let groups := controlplane.getChartsInInstallationOrder renderings range1 range2 in
  NoDup (concat groups)
  /\ (forall chart, chart ∈ concat groups <-> is_Some (renderings !! chart))
  /\ (forall i j group group' chart,
        groups !! i = Some group -> groups !! j = Some group' ->
        chart ∈ group -> chart ∈ group' -> i = j).
Proof.
  intros H1 H2 groups.
  assert (concat groups
          = filter (fun chart => is_Some (renderings !! chart))
              (concat controlplane.orderedCharts)
            ++ filter (fun chart => HasPrefix chart "istio/" = true
                 /\ chart ∉ concat controlplane.orderedCharts) range1
            ++ filter (fun chart => ~ HasPrefix chart "istio/" = true
                 /\ chart ∉ concat controlplane.orderedCharts) range2) as Hconcat.
  { unfold groups. rewrite getChartsInInstallationOrder_eq by done.
    rewrite !concat_app, concat_filter_nonempty, concat_fmap_filter.
    by rewrite !concat_fmap_single. }
  assert (NoDup range1) as Hnd1 by (rewrite H1; apply NoDup_keys).
  assert (NoDup range2) as Hnd2 by (rewrite H2; apply NoDup_keys).
  assert (NoDup (concat groups)) as Hnd.
  { rewrite Hconcat. apply NoDup_app. split; [|split].
    - apply NoDup_filter, NoDup_concat_orderedCharts.
    - intros chart [_ Hin]%list_elem_of_filter.
      rewrite elem_of_app, !list_elem_of_filter. tauto.
    - apply NoDup_app. split; [by apply NoDup_filter|]. split; [|by apply NoDup_filter].
      intros chart [[Hp _] _]%list_elem_of_filter.
      rewrite list_elem_of_filter. tauto. }
  split; [done|]. split.
  - intros chart. rewrite Hconcat, !elem_of_app, !list_elem_of_filter, H1, H2.
    rewrite elem_of_keys.
    destruct (decide (chart ∈ concat controlplane.orderedCharts)),
      (HasPrefix chart "istio/"); intuition congruence.
  - intros i j group group' chart. by apply concat_groups_disjoint.
Qed.

Lemma install_order_partition_witness :
  let range := controlplane.keys samples.ex_renderings in
  let groups :=
    controlplane.getChartsInInstallationOrder samples.ex_renderings range range in
  range ≡ₚ controlplane.keys samples.ex_renderings
  /\ NoDup (concat groups)
  /\ (forall chart, chart ∈ concat groups <-> is_Some (samples.ex_renderings !! chart))
  /\ (forall i j group group' chart,
        groups !! i = Some group -> groups !! j = Some group' ->
        chart ∈ group -> chart ∈ group' -> i = j).
Proof.
  split; [reflexivity|].
  apply (install_order_partition samples.ex_renderings); reflexivity.
Defined.

(** ** Status posting *)

Section PostStatus_properties.
Import controlplane.
Context (w : World).
Implicit Types (r : controlPlaneInstanceReconciler).

Lemma PostStatus_unchanged r :
  Status r = v2.Status (Instance r) -> PostStatus w r = Returns (None, r).
Proof. intros Heq. unfold PostStatus, mbind, M_bind, get. by rewrite decide_True. Qed.

Lemma PostStatus_changed r :
  Status r <> v2.Status (Instance r) ->
  let name := v2.Name (Instance r) in
  let namespace := v2.Namespace (Instance r) in
  PostStatus w r
  = match answerGetInstance w (log r) namespace name with
    | inr instance =>
        let instance := v2.set_Status (Status r) instance in
        Returns
          (benign "error updating ServiceMeshControlPlane status"
             (answerStatusPatch w (log r ++ [EvGetInstance namespace name]) instance),
           set_log (log r ++ [EvGetInstance namespace name; EvStatusPatch instance]) r)
    | inl err =>
        Returns
          (benign "error getting ServiceMeshControlPlane prior to updating status" (Some err),
           set_log (log r ++ [EvGetInstance namespace name]) r)
    end.
Proof.
  intros Hne. unfold PostStatus, mbind, M_bind, get, call, mret, M_ret.
  rewrite decide_False by done. simpl.
  destruct (answerGetInstance w (log r) _ _) as [err|instance]; simpl.
  - by destruct (negb _).
  - rewrite <- app_assoc. simpl.
    destruct (answerStatusPatch w _ _) as [err|]; simpl; [|done].
    by destruct (negb _).
Qed.

End PostStatus_properties.

(** C9 (as amended). [PostStatus] always returns and changes nothing but
    the events.  When the working status equals the status of the instance
    it makes no call at all.  Otherwise it fetches the instance once; when
    the fetch succeeds it makes exactly one status patch, and when the
    fetch fails it makes none.  A not-found or gone error of the fetch or
    of the patch is returned as success. *)
Theorem PostStatus_cluster_calls (w : controlplane.World)
    (r : controlplane.controlPlaneInstanceReconciler) :
  let name := v2.Name (controlplane.Instance r) in
  let namespace := v2.Namespace (controlplane.Instance r) in
  (exists err r' new,
      controlplane.PostStatus w r = controlplane.Returns (err, r')
      /\ r' = controlplane.set_log (controlplane.log r ++ new) r
      /\ if decide (controlplane.Status r = v2.Status (controlplane.Instance r))
         then new = [] /\ err = None
         else
           match controlplane.answerGetInstance w (controlplane.log r) namespace name with
           | inr instance =>
               let instance := v2.set_Status (controlplane.Status r) instance in
               new = [controlplane.EvGetInstance namespace name;
                      controlplane.EvStatusPatch instance]
               /\ length (controlplane.statusPatches new) = 1
               /\ err = controlplane.benign "error updating ServiceMeshControlPlane status"
                          (controlplane.answerStatusPatch w
                             (controlplane.log r ++ [controlplane.EvGetInstance namespace name])
                             instance)
           | inl getErr =>
               new = [controlplane.EvGetInstance namespace name]
               /\ length (controlplane.statusPatches new) = 0
               /\ err = controlplane.benign
                          "error getting ServiceMeshControlPlane prior to updating status"
                          (Some getErr)
           end)
  /\ (forall wrapped err,
        IsGone err = true \/ IsNotFound err = true ->
        controlplane.benign wrapped (Some err) = None).
Proof.
  intros name namespace. split.
  - destruct (decide (controlplane.Status r = v2.Status (controlplane.Instance r)))
      as [Heq|Hne].
    + exists None, r, []. rewrite PostStatus_unchanged by done.
      rewrite app_nil_r. by destruct r.
    + rewrite PostStatus_changed by done. fold name namespace.
      destruct (controlplane.answerGetInstance w _ _ _) as [getErr|instance];
        eexists _, _, _; (split; [reflexivity|]); (split; [reflexivity|]); done.
  - intros wrapped err [H|H]; unfold controlplane.benign; rewrite H; simpl; [done|].
    by rewrite orb_true_r.
Qed.

Lemma PostStatus_cluster_calls_witness :
  IsNotFound (StatusError StatusReasonNotFound "not found") = true
  /\ controlplane.benign "error updating ServiceMeshControlPlane status"
       (Some (StatusError StatusReasonNotFound "not found")) = None.
Proof.
  split; [reflexivity|].
  apply (proj2 (PostStatus_cluster_calls
                  (samples.sampleWorld samples.noTemplates samples.versionKnown
                     samples.instanceFound samples.patchAccepted samples.allReady)
                  (samples.ex_reconciler None ∅))).
  right. reflexivity.
Defined.

(** C9, as stated, fails: the working status differs from the status of
    the instance, the fetch answers not-found, and [PostStatus] returns
    success without a single status patch. *)
Lemma PostStatus_no_patch_when_fetch_fails :
  let w := samples.sampleWorld samples.noTemplates samples.versionKnown
             samples.instanceNotFound samples.patchAccepted samples.allReady in
  let r := samples.ex_reconciler None ∅ in
  controlplane.Status r <> v2.Status (controlplane.Instance r)
  /\ exists r',
       controlplane.PostStatus w r = controlplane.Returns (None, r')
       /\ controlplane.log r' = [controlplane.EvGetInstance "istio-system" "basic"]
       /\ length (controlplane.statusPatches (controlplane.log r')) <> 1.
Proof.
  split; [by vm_compute|].
  eexists. split; [vm_compute; reflexivity|]. split; [reflexivity|]. by vm_compute.
Qed.

(** ** Template resolution *)

Section template_cycle.
Import controlplane.
Context (w : World) (version : string).

(** Two templates that name each other are resolved without end: no
    amount of fuel lets [recursivelyApplyTemplates] return, whichever of
    the two it starts from, because a name enters [visited] only after
    the template it names has been resolved. *)
Lemma two_cycle_never_returns (nameA nameB : string) (specA specB : v1.ControlPlaneSpec) :
  nameA <> EmptyString -> nameB <> EmptyString ->
  getSMCPTemplate w nameA version = inr specA -> v1.Template specA = nameB ->
  getSMCPTemplate w nameB version = inr specB -> v1.Template specB = nameA ->
  forall fuel smcp visited,
    nameA ∉ visited -> nameB ∉ visited ->
    v1.Template smcp = nameA \/ v1.Template smcp = nameB ->
    recursivelyApplyTemplates w fuel smcp version visited = None.
Proof.
  intros HA HB HgetA HtA HgetB HtB.
  induction fuel as [|fuel IH]; intros smcp visited HvA HvB Hsmcp; [done|].
  simpl. destruct Hsmcp as [Hs|Hs]; rewrite Hs.
  - rewrite decide_False by done. rewrite decide_False by done.
    rewrite HgetA. rewrite IH; [done..|]. by right.
  - rewrite decide_False by done. rewrite decide_False by done.
    rewrite HgetB. rewrite IH; [done..|]. by left.
Qed.

Lemma getSMCPTemplate_not_errCyclic name :
  getSMCPTemplate w name version <> inl errCyclic.
Proof.
  unfold getSMCPTemplate, errCyclic.
  destruct (Contains name "/"); [done|].
  destruct (ReadUserTemplate w name) as [e|content].
  - destruct (ReadDefaultTemplate w version name) as [e'|content]; [done|].
    by destruct (Unmarshal w content).
  - by destruct (Unmarshal w content).
Qed.

(** A resolution that starts with nothing visited, as [applyTemplates]
    starts it, never reports a cycle: on the way down nothing has been
    inserted into [visited] yet. *)
Lemma cycle_error_is_unreachable fuel : forall smcp spec err visited,
  recursivelyApplyTemplates w fuel smcp version ∅ = Some (spec, err, visited) ->
  err <> Some errCyclic.
Proof.
  induction fuel as [|fuel IH]; intros smcp spec err visited; [done|]. simpl.
  destruct (decide (v1.Template smcp = EmptyString)); [by intros [= <- <- <-]|].
  rewrite decide_False by set_solver.
  destruct (getSMCPTemplate w (v1.Template smcp) version) as [e|template] eqn:Hget.
  - intros [= <- <- <-] [= ->]. by eapply getSMCPTemplate_not_errCyclic.
  - destruct (recursivelyApplyTemplates w fuel template version ∅)
      as [[[spec' [e|]] visited']|] eqn:Hrec; [| |done].
    + intros [= <- <- <-]. by eapply IH.
    + by intros [= <- <- <-].
Qed.
End template_cycle.

(** C2 (the code departs from it). With a template "A" that names "B" and
    a template "B" that names "A", resolving a spec that names "A" never
    returns, whatever the fuel: the cycle is not reported, the resolution
    does not terminate. *)
Theorem template_cycle_is_not_detected :
  let w := samples.sampleWorld samples.cyclicTemplates samples.versionKnown
             samples.instanceFound samples.patchAccepted samples.allReady in
  controlplane.getSMCPTemplate w "A" "v1.1" = inr (v1.set_Template "B" samples.emptySpec)
  /\ controlplane.getSMCPTemplate w "B" "v1.1" = inr (v1.set_Template "A" samples.emptySpec)
  /\ forall fuel,
       controlplane.recursivelyApplyTemplates w fuel
         (v1.set_Template "A" samples.emptySpec) "v1.1" ∅ = None.
Proof.
  intros w. split; [by vm_compute|]. split; [by vm_compute|].
  intros fuel.
  apply (two_cycle_never_returns w "v1.1" "A" "B"
           (v1.set_Template "B" samples.emptySpec)
           (v1.set_Template "A" samples.emptySpec));
    try done; try (by vm_compute); by left.
Qed.

(** ** Templates and disconnected-install settings *)

Section applyTemplates_properties.
Import controlplane.
Context (w : World).
Implicit Types (r : controlPlaneInstanceReconciler) (spec smcpSpec : v1.ControlPlaneSpec).

Lemma updateImageField_log helmValues path val r res r' :
  updateImageField helmValues path val r = Returns (res, r') -> r' = r.
Proof.
  unfold updateImageField, SetField. intros H.
  destruct (decide _); run; [by simplify_eq|].
  destruct helmValues; [|done].
  destruct (SetNestedField _ _ _). by simplify_eq.
Qed.

Lemma updateOauthProxyConfig_log smcpSpec r res r' :
  updateOauthProxyConfig w smcpSpec r = Returns (res, r') ->
  exists rest, log r' = log r ++ rest.
Proof.
  unfold updateOauthProxyConfig. run. intros H.
  destruct (_ || _); [simplify_eq; exists []; by rewrite app_nil_r|].
  match type of H with
  | context [answerGetImageStream w ?l ?a ?b] =>
      destruct (answerGetImageStream w l a b) as [e|imageStream]
  end.
  - simpl in H. destruct (decide _).
    + simplify_eq. by eexists.
    + destruct (updateImageField _ _ _ _) as [[[? ?] r1]| |] eqn:Hu; [|done..].
      apply updateImageField_log in Hu. simplify_eq. by eexists.
  - destruct (List.find _ _) as [tag|]; [destruct (imagev1.Items tag) as [|item ?]|];
      try destruct (decide (0 < _)); simpl in H;
      (destruct (decide (String.length _ = 0));
         [simplify_eq; by eexists
         |destruct (updateImageField _ _ _ _) as [[[? ?] r1]| |] eqn:Hu; [|done..];
          apply updateImageField_log in Hu; simplify_eq; by eexists]).
Qed.

Lemma applyDisconnectedSettings_log spec version r res r' :
  applyDisconnectedSettings w spec version r = Returns (res, r') ->
  exists rest, log r' = log r ++ EvSetImageValues version spec :: rest.
Proof.
  unfold applyDisconnectedSettings. run.
  destruct (answerSetImageValues w (log r) version spec) as [spec' [err|]]; intros H.
  - simplify_eq. by exists [].
  - apply updateOauthProxyConfig_log in H as [rest Hrest]. simpl in Hrest.
    exists rest. by rewrite Hrest, <- app_assoc.
Qed.

Lemma applyTemplates_eq fuel smcpSpec version r :
  let named :=
    if decide (v1.Template smcpSpec = EmptyString)
    then v1.set_Template v1.DefaultTemplate smcpSpec else smcpSpec in
  let tag := (v1.GetString (v1.Istio smcpSpec) "global.tag").1.1 in
  let hub := (v1.GetString (v1.Istio smcpSpec) "global.hub").1.1 in
  applyTemplates w fuel smcpSpec version r
  = match recursivelyApplyTemplates w fuel named version ∅ with
    | None => OutOfFuel
    | Some (spec, err, _) =>
        if decide (tag <> EmptyString \/ hub <> EmptyString)
        then Returns ((spec, err), r)
        else applyDisconnectedSettings w spec version r
    end.
Proof.
  intros named tag hub. unfold applyTemplates. fold named.
  assert (v1.Istio named = v1.Istio smcpSpec) as ->.
  { unfold named. by destruct (decide _). }
  destruct (recursivelyApplyTemplates w fuel named version ∅) as [[[spec err] ?]|];
    [|done].
  subst tag hub.
  destruct (v1.GetString (v1.Istio smcpSpec) "global.tag") as [[tag ?] ?].
  destruct (v1.GetString (v1.Istio smcpSpec) "global.hub") as [[hub ?] ?]. simpl.
  destruct (decide (tag <> EmptyString)) as [Ht|Ht].
  { rewrite decide_True by (by left). done. }
  destruct (decide (hub <> EmptyString)) as [Hh|Hh].
  { rewrite decide_True by (by right). done. }
  rewrite decide_False by (by intros [?|?]).
  unfold mbind, M_bind.
  by destruct (applyDisconnectedSettings w spec version r) as [[[? [?|]] ?]| |].
Qed.

End applyTemplates_properties.

(** C5 (as amended). Let [named] be the spec with the default template
    put in when it names none.  When the values of the spec itself, before
    template resolution, hold a non-empty string at [global.tag] or at
    [global.hub], [applyTemplates] skips the disconnected-install
    substitution entirely: it returns what the resolution of [named]
    returned and makes no call and no change at all.  When they hold
    neither and the resolution of [named] completes without an error, with
    the merged spec [spec], [applyTemplates] is the disconnected-install
    substitution run on [spec], and its first call is the per-version
    strategy on [spec]. *)
Theorem applyTemplates_disconnected_settings (w : controlplane.World) fuel
    (smcpSpec : v1.ControlPlaneSpec) version
    (r : controlplane.controlPlaneInstanceReconciler) spec err visited :
  let named :=
    if decide (v1.Template smcpSpec = EmptyString)
    then v1.set_Template v1.DefaultTemplate smcpSpec else smcpSpec in
  let tag := (v1.GetString (v1.Istio smcpSpec) "global.tag").1.1 in
  let hub := (v1.GetString (v1.Istio smcpSpec) "global.hub").1.1 in
  controlplane.recursivelyApplyTemplates w fuel named version ∅ = Some (spec, err, visited) ->
  (tag <> EmptyString \/ hub <> EmptyString ->
     controlplane.applyTemplates w fuel smcpSpec version r
     = controlplane.Returns ((spec, err), r))
  /\ (tag = EmptyString -> hub = EmptyString -> err = None ->
     controlplane.applyTemplates w fuel smcpSpec version r
     = controlplane.applyDisconnectedSettings w spec version r
     /\ forall res r',
          controlplane.applyDisconnectedSettings w spec version r
          = controlplane.Returns (res, r') ->
          exists rest,
            controlplane.log r'
            = controlplane.log r ++ controlplane.EvSetImageValues version spec :: rest).
Proof.
  intros named tag hub Hres.
  pose proof (applyTemplates_eq w fuel smcpSpec version r) as Heq.
  simpl in Heq. fold named tag hub in Heq. rewrite Hres in Heq. split.
  - intros Hpin. by rewrite decide_True in Heq.
  - intros Ht Hh _. rewrite decide_False in Heq by (by intros [?|?]).
    split; [done|]. intros res r'. apply applyDisconnectedSettings_log.
Qed.

Lemma applyTemplates_disconnected_settings_witness :
  let w := samples.sampleWorld samples.taggedDefaultTemplate samples.versionKnown
             samples.instanceFound samples.patchAccepted samples.allReady in
  let r := samples.ex_reconciler None ∅ in
  let pinned := v1.set_Istio (Some samples.ex_tagged) samples.emptySpec in
  let resolved := v1.set_ThreeScale (Some ∅)
                    (v1.set_Template v1.DefaultTemplate pinned) in
  let merged :=
    {| v1.Version := EmptyString; v1.Template := v1.DefaultTemplate;
       v1.Istio := Some {[ "global" := VMap {[ "tag" := VString "1.1.0" ]} ]};
       v1.ThreeScale := Some ∅ |} in
  (controlplane.recursivelyApplyTemplates w 2
     (v1.set_Template v1.DefaultTemplate pinned) "v1.1" ∅
   = Some (resolved, None, {[ "default" ]})
   /\ ((v1.GetString (v1.Istio pinned) "global.tag").1.1 <> EmptyString
       \/ (v1.GetString (v1.Istio pinned) "global.hub").1.1 <> EmptyString)
   /\ controlplane.applyTemplates w 2 pinned "v1.1" r
      = controlplane.Returns ((resolved, None), r))
  /\ (controlplane.recursivelyApplyTemplates w 2
        (v1.set_Template v1.DefaultTemplate samples.emptySpec) "v1.1" ∅
      = Some (merged, None, {[ "default" ]})
      /\ (v1.GetString (v1.Istio samples.emptySpec) "global.tag").1.1 = EmptyString
      /\ (v1.GetString (v1.Istio samples.emptySpec) "global.hub").1.1 = EmptyString
      /\ controlplane.applyTemplates w 2 samples.emptySpec "v1.1" r
         = controlplane.applyDisconnectedSettings w merged "v1.1" r).
Proof.
  intros w r pinned resolved merged. split.
  - assert (controlplane.recursivelyApplyTemplates w 2
              (v1.set_Template v1.DefaultTemplate pinned) "v1.1" ∅
            = Some (resolved, None, {[ "default" ]})) as Hres by (by vm_compute).
    assert ((v1.GetString (v1.Istio pinned) "global.tag").1.1 <> EmptyString
            \/ (v1.GetString (v1.Istio pinned) "global.hub").1.1 <> EmptyString) as Hpin
      by (left; by vm_compute).
    split; [exact Hres|]. split; [exact Hpin|].
    exact (proj1 (applyTemplates_disconnected_settings w 2 pinned "v1.1" r
                    resolved None {[ "default" ]} Hres) Hpin).
  - assert (controlplane.recursivelyApplyTemplates w 2
              (v1.set_Template v1.DefaultTemplate samples.emptySpec) "v1.1" ∅
            = Some (merged, None, {[ "default" ]})) as Hres by (by vm_compute).
    split; [exact Hres|]. split; [reflexivity|]. split; [reflexivity|].
    exact (proj1 (proj2 (applyTemplates_disconnected_settings w 2 samples.emptySpec
                           "v1.1" r merged None {[ "default" ]} Hres)
                   eq_refl eq_refl eq_refl)).
Defined.

(** C5, as stated, fails: the spec holds no value of its own and names no
    template, the default template pins [global.tag], so the resolved
    values pin it too; and yet [applyTemplates] calls the per-version
    strategy. *)
Lemma applyTemplates_substitutes_when_template_pins_tag :
  let w := samples.sampleWorld samples.taggedDefaultTemplate samples.versionKnown
             samples.instanceFound samples.patchAccepted samples.allReady in
  let r := samples.ex_reconciler None ∅ in
  exists resolved visited res r',
    controlplane.recursivelyApplyTemplates w 2
      (v1.set_Template v1.DefaultTemplate samples.emptySpec) "v1.1" ∅
    = Some (resolved, None, visited)
    /\ (v1.GetString (v1.Istio resolved) "global.tag").1.1 = "1.1.0"
    /\ controlplane.applyTemplates w 2 samples.emptySpec "v1.1" r
       = controlplane.Returns (res, r')
    /\ controlplane.log r' = [controlplane.EvSetImageValues "v1.1" resolved].
Proof.
  intros w r. eexists _, _, _, _.
  split; [vm_compute; reflexivity|]. split; [vm_compute; reflexivity|].
  split; [vm_compute; reflexivity|]. vm_compute. reflexivity.
Qed.

(** ** The reconciliation cycle *)

Section Reconcile_readiness.
Import controlplane.
Context (w : World).
Implicit Types (r : controlPlaneInstanceReconciler).

(** The two places where [Reconcile] computes readiness, when the
    inspection fails with [e]: on resuming, the exit carries the wrapped
    error and the reason ProbeError. *)
Lemma Reconcile_resume_inspection_error r ready unready e :
  answerCalculateComponentReadiness w (log r) (waitForComponents r)
  = (ready, unready, Some e) ->
  exists r',
    Reconcile_resume w r
    = Returns
        (Some {| reconciliationReason := status.ConditionReasonProbeError;
                 reconciliationMessage := "Error checking component readiness";
                 err := Some (Wrap e "Error checking component readiness");
                 reconciliationComplete := false |}, r')
    /\ waitForComponents r' = waitForComponents r.
Proof.
  intros Hans. unfold Reconcile_resume, calculateComponentReadiness. run.
  rewrite Hans. by eexists.
Qed.

(** After the charts of a group have been applied, the exit carries no
    error and the reason of a pause. *)
Lemma Reconcile_groups_inspection_error charts groups r r1 ready unready e :
  Reconcile_charts w charts (set_waitForComponents ∅ r) = Returns (None, r1) ->
  0 < size (waitForComponents r1) ->
  answerCalculateComponentReadiness w (log r1) (waitForComponents r1)
  = (ready, unready, Some e) ->
  exists exit r',
    Reconcile_groups w (charts :: groups) r = Returns (Some exit, r')
    /\ err exit = None
    /\ reconciliationReason exit
       = (if isUpdating r1 then status.ConditionReasonPausingUpdate
          else status.ConditionReasonPausingInstall)
    /\ waitForComponents r' = waitForComponents r1.
Proof.
  intros Hcharts Hsize Hans. simpl.
  unfold calculateComponentReadiness, pauseReconciliation, EventRecorder_Event. run.
  rewrite Hcharts. rewrite decide_True by done. rewrite Hans. simpl.
  destruct (isUpdating r1) eqn:Hup.
  - assert (isUpdating (set_log (log r1 ++
              [EvCalculateComponentReadiness (waitForComponents r1)]) r1) = true) as ->
      by done.
    by eexists _, _.
  - assert (isUpdating (set_log (log r1 ++
              [EvCalculateComponentReadiness (waitForComponents r1)]) r1) = false) as ->
      by done.
    by eexists _, _.
Qed.

End Reconcile_readiness.

(** On resuming with a component still waited for, a failure of the
    readiness inspection ends the cycle with the wrapped error and the
    reason ProbeError. *)
Example resume_inspection_failure_is_ProbeError :
  let w := samples.sampleWorld samples.noTemplates samples.versionKnown
             samples.instanceFound samples.patchAccepted samples.inspectionFails in
  let r := samples.ex_reconciler (Some {[ "istio" := [] ]}) {[ "istio" ]} in
  exists r',
    controlplane.Reconcile w 0 r
    = controlplane.Returns
        (Some (Wrap (Errorf "connection refused") "Error checking component readiness"), r')
    /\ status.Reason (v2.GetCondition (controlplane.Status r') status.ConditionTypeReconciled)
       = status.ConditionReasonProbeError.
Proof.
  intros w r. eexists. split; [vm_compute; reflexivity|]. vm_compute. reflexivity.
Qed.

(** C3 (the code departs from it). The renderings exist, nothing is waited
    for, the chart "istio" is applied and reports a readiness probe, and
    the readiness inspection made after the group fails.  [Reconcile]
    then returns no error and leaves the reason PausingInstall on the
    Reconciled condition, as it does for a component that is not ready
    yet; the reason is not ProbeError. *)
Theorem install_inspection_failure_is_paused :
  let w := samples.sampleWorld samples.noTemplates samples.versionKnown
             samples.instanceFound samples.patchAccepted samples.inspectionFails in
  let r := samples.ex_reconciler (Some {[ "istio" := [] ]}) ∅ in
  exists r',
    controlplane.Reconcile w 0 r = controlplane.Returns (None, r')
    /\ controlplane.answerCalculateComponentReadiness w
         [controlplane.EvProcessComponentManifests "istio"] {[ "istio" ]}
       = (∅, {[ "istio" ]}, Some (Errorf "connection refused"))
    /\ controlplane.log r'
       = [ controlplane.EvProcessComponentManifests "istio";
           controlplane.EvCalculateComponentReadiness {[ "istio" ]};
           controlplane.EvRecorderEvent "Normal" "PausingInstall"
             "Paused until the following components become ready: [istio]";
           controlplane.EvUpdateReadinessStatus;
           controlplane.EvGetInstance "istio-system" "basic";
           controlplane.EvStatusPatch
             (v2.set_Status (controlplane.Status r') samples.ex_instance) ]
    /\ status.Reason (v2.GetCondition (controlplane.Status r') status.ConditionTypeReconciled)
       = status.ConditionReasonPausingInstall
    /\ status.Reason (v2.GetCondition (controlplane.Status r') status.ConditionTypeReconciled)
       <> status.ConditionReasonProbeError.
Proof.
  intros w r. eexists. split; [vm_compute; reflexivity|].
  split; [reflexivity|]. split; [vm_compute; reflexivity|].
  split; [vm_compute; reflexivity|]. by vm_compute.
Qed.

Section Reconcile_properties.
Import controlplane.
Context (w : World).
Implicit Types (r : controlPlaneInstanceReconciler).

Lemma PostStatus_returns r :
  exists err new, PostStatus w r = Returns (err, set_log (log r ++ new) r).
Proof.
  destruct (decide (Status r = v2.Status (Instance r))) as [Heq|Hne].
  - exists None, []. rewrite PostStatus_unchanged by done.
    rewrite app_nil_r. by destruct r.
  - rewrite PostStatus_changed by done.
    destruct (answerGetInstance w _ _ _); by eexists _, _.
Qed.

Lemma postReconciliationStatus_returns reason message processingErr r :
  exists statusErr r',
    postReconciliationStatus w reason message processingErr r = Returns (statusErr, r')
    /\ waitForComponents r' = waitForComponents r
    /\ renderings r' = renderings r.
Proof.
  unfold postReconciliationStatus, updateReadinessStatus, EventRecorder_Event. run.
  destruct (answerUpdateReadinessStatus w (log r) (Status r)) as [[st updated] [err|]];
    simpl; [by eexists _, _|].
  destruct processingErr as [processingErr|]; simpl.
  - match goal with |- context [PostStatus w ?r0] =>
      destruct (PostStatus_returns r0) as (err & new & ->) end.
    by eexists _, _.
  - match goal with |- context [PostStatus w ?r0] =>
      destruct (PostStatus_returns r0) as (err & new & ->) end.
    by eexists _, _.
Qed.

End Reconcile_properties.

(** C7 (as amended). When [Reconcile] is entered with the Reconciled
    condition false and without renderings, and its body returns with an
    error, then the wait set is emptied, the conditions are recomputed
    from that error by [updateControlPlaneConditions], the status is
    posted from there, and [Reconcile] returns that error with an empty
    wait set. *)
Theorem Reconcile_error_without_renderings_resets (w : controlplane.World) fuel
    (r r1 : controlplane.controlPlaneInstanceReconciler) (exit : controlplane.exit) e :
  let reconciled := v2.GetCondition (controlplane.Status r) status.ConditionTypeReconciled in
  status.Status reconciled = status.ConditionStatusFalse ->
  controlplane.renderings r = None ->
  controlplane.Reconcile_body w fuel (status.Reason reconciled) (status.Message reconciled) r
  = controlplane.Returns (exit, r1) ->
  controlplane.err exit = Some e ->
  let reset :=
    controlplane.set_Status
      (controlplane.updateControlPlaneConditions w (controlplane.Status r1) (Some e))
      (controlplane.set_log
         (controlplane.log r1 ++ [controlplane.EvUpdateControlPlaneConditions (Some e)])
         (controlplane.set_waitForComponents ∅ r1)) in
  exists statusErr posted r',
    controlplane.postReconciliationStatus w (controlplane.reconciliationReason exit)
      (controlplane.reconciliationMessage exit) (Some e) reset
    = controlplane.Returns (statusErr, posted)
    /\ controlplane.Reconcile w fuel r = controlplane.Returns (Some e, r')
    /\ controlplane.Status r' = controlplane.Status posted
    /\ controlplane.waitForComponents r' = ∅.
Proof.
  intros reconciled Hfalse Hnil Hbody He reset.
  destruct (postReconciliationStatus_returns w (controlplane.reconciliationReason exit)
              (controlplane.reconciliationMessage exit) (Some e) reset)
    as (statusErr & posted & Hpost & Hwait & _).
  exists statusErr, posted.
  unfold controlplane.Reconcile, mbind, controlplane.M_bind, controlplane.get.
  fold reconciled. rewrite decide_False by (by rewrite Hfalse; intros ?).
  rewrite Hbody, Hnil, He. simpl.
  unfold controlplane.updateConditions, mbind, controlplane.M_bind,
    controlplane.modify, controlplane.call. simpl.
  fold reset. rewrite Hpost.
  destruct (controlplane.reconciliationComplete exit); simpl;
    eexists; (split; [reflexivity|]); (split; [by destruct statusErr|]);
    (split; [reflexivity|]); done.
Qed.

Lemma Reconcile_error_without_renderings_resets_witness :
  let w := samples.sampleWorld samples.noTemplates samples.versionUnknown
             samples.instanceFound samples.patchAccepted samples.allReady in
  let r := samples.ex_reconciler None {[ "istio" ]} in
  let e := Errorf "invalid version: v1.1" in
  let exit :=
    {| controlplane.reconciliationReason := status.ConditionReasonResourceCreated;
       controlplane.reconciliationMessage := "Installing mesh generation 1";
       controlplane.err := Some e;
       controlplane.reconciliationComplete := false |} in
  controlplane.waitForComponents r = {[ "istio" ]}
  /\ exists r',
       controlplane.Reconcile w 0 r = controlplane.Returns (Some e, r')
       /\ controlplane.waitForComponents r' = ∅.
Proof.
  intros w r e exit. split; [reflexivity|].
  destruct (Reconcile_error_without_renderings_resets w 0 r r exit e)
    as (statusErr & posted & r' & _ & Hr & _ & Hwait);
    [reflexivity | reflexivity | vm_compute; reflexivity | reflexivity |].
  exists r'. split; [exact Hr | exact Hwait].
Defined.

(** C7, as stated, fails: the renderings exist, a component is waited for,
    and the readiness inspection fails.  [Reconcile] returns the error,
    the wait set still holds the component, and the conditions were not
    recomputed: there was no call of [updateControlPlaneConditions]. *)
Lemma Reconcile_error_with_renderings_keeps_wait_set :
  let w := samples.sampleWorld samples.noTemplates samples.versionKnown
             samples.instanceFound samples.patchAccepted samples.inspectionFails in
  let r := samples.ex_reconciler (Some {[ "istio" := [] ]}) {[ "istio" ]} in
  controlplane.renderings r <> None
  /\ exists e r',
       controlplane.Reconcile w 0 r = controlplane.Returns (Some e, r')
       /\ controlplane.waitForComponents r' = {[ "istio" ]}
       /\ controlplane.waitForComponents r' <> ∅
       /\ controlplane.log r'
          = [ controlplane.EvCalculateComponentReadiness {[ "istio" ]};
              controlplane.EvUpdateReadinessStatus;
              controlplane.EvRecorderEvent "Warning" "Installing"
                "Error checking component readiness: error: connection refused";
              controlplane.EvGetInstance "istio-system" "basic";
              controlplane.EvStatusPatch
                (v2.set_Status (controlplane.Status r') samples.ex_instance) ].
Proof.
  intros w r. split; [done|]. eexists _, _.
  split; [vm_compute; reflexivity|]. split; [vm_compute; reflexivity|].
  split; [by vm_compute|]. vm_compute. reflexivity.
Qed.

(** * Further properties *)

(** ** The CRD schema sanitizer, continued *)

Section schema_induction.
Import hacks.
Context {Rest : Type}.
Implicit Types (s c : JSONSchemaProps Rest).

Lemma foldr_sum_lookup {A} (f : A -> nat) (l : list A) i x :
  l !! i = Some x -> f x <= foldr (fun y acc => f y + acc) 0 l.
Proof.
  revert i. induction l as [|y l IH]; intros [|i] H; simplify_eq/=; [lia|].
  specialize (IH _ H). lia.
Qed.

Lemma map_fold_sum_lookup {A} (f : A -> nat) (m : gmap string A) k x :
  m !! k = Some x -> f x <= map_fold (fun _ y acc => f y + acc) 0 m.
Proof.
  intros H. rewrite <- (insert_delete_id m k x H).
  rewrite map_fold_insert_L; [lia| |by rewrite lookup_delete_eq].
  intros; lia.
Qed.

Lemma child_nodes_count p s c : child p s = Some c -> nodes_count c < nodes_count s.
Proof.
  destruct s as [t o items allOf oneOf anyOf nt props ap pprops deps ai defs].
  destruct p; simpl; intros H.
  - apply (foldr_sum_lookup nodes_count) in H. lia.
  - apply (foldr_sum_lookup nodes_count) in H. lia.
  - apply (foldr_sum_lookup nodes_count) in H. lia.
  - apply (map_fold_sum_lookup nodes_count) in H. lia.
  - apply (map_fold_sum_lookup nodes_count) in H. lia.
  - apply (map_fold_sum_lookup nodes_count) in H. lia.
  - subst nt. simpl. lia.
  - destruct items as [[sc js]|]; simplify_eq/=. lia.
  - destruct items as [[sc js]|]; simplify_eq/=.
    apply (foldr_sum_lookup nodes_count) in H. lia.
  - destruct ap as [[a sc]|]; simplify_eq/=. lia.
  - destruct ai as [[a sc]|]; simplify_eq/=. lia.
  - destruct (deps !! k) as [d|] eqn:Hk; simplify_eq/=.
    apply (map_fold_sum_lookup (fun d => from_option nodes_count 0 (dep_Schema d))) in Hk.
    rewrite H in Hk. simpl in Hk. lia.
Qed.

(** Induction on a schema tree through its sub-schema positions. *)
Lemma schema_children_ind (P : JSONSchemaProps Rest -> Prop) :
  (forall s, (forall p c, child p s = Some c -> P c) -> P s) -> forall s, P s.
Proof.
  intros Hstep s. remember (nodes_count s) as n eqn:Hn. revert s Hn.
  induction n as [n IH] using lt_wf_ind. intros s ->.
  apply Hstep. intros p c Hc. apply (IH (nodes_count c)); [|done].
  by eapply child_nodes_count.
Qed.

Lemma removeTypeObjectField_idempotent s :
  removeTypeObjectField (removeTypeObjectField s) = removeTypeObjectField s.
Proof.
  induction s as [s IH] using schema_children_ind.
  destruct s as [t o items allOf oneOf anyOf nt props ap pprops deps ai defs].
  simpl. f_equal.
  - destruct (decide (t = "object")) as [->|Ht]; [done|]. by rewrite decide_False.
  - destruct items as [[sc js]|]; [|done]. simpl. f_equal. f_equal.
    + destruct sc as [sc|]; [|done]. simpl. f_equal. apply (IH InItemsSchema). done.
    + rewrite <- list_fmap_compose. apply list_fmap_ext.
      intros i x Hx. simpl. apply (IH (InItemsJSONSchemas i)). simpl. done.
  - rewrite <- list_fmap_compose. apply list_fmap_ext.
    intros i x Hx. apply (IH (InAllOf i)). done.
  - rewrite <- list_fmap_compose. apply list_fmap_ext.
    intros i x Hx. apply (IH (InOneOf i)). done.
  - rewrite <- list_fmap_compose. apply list_fmap_ext.
    intros i x Hx. apply (IH (InAnyOf i)). done.
  - destruct nt as [nt|]; [|done]. simpl. f_equal. by apply (IH InNot).
  - rewrite <- map_fmap_compose. apply map_fmap_ext.
    intros k x Hx. apply (IH (InProperties k)). done.
  - destruct ap as [[a [sc|]]|]; try done. simpl. do 3 f_equal.
    by apply (IH InAdditionalProperties).
  - rewrite <- map_fmap_compose. apply map_fmap_ext.
    intros k x Hx. apply (IH (InPatternProperties k)). done.
  - rewrite <- map_fmap_compose. apply map_fmap_ext.
    intros k [[sc|] pr] Hx; simpl; [|done]. do 2 f_equal.
    apply (IH (InDependencies k)). simpl. by rewrite Hx.
  - destruct ai as [[a [sc|]]|]; try done. simpl. do 3 f_equal.
    by apply (IH InAdditionalItems).
  - rewrite <- map_fmap_compose. apply map_fmap_ext.
    intros k x Hx. apply (IH (InDefinitions k)). done.
Qed.
Lemma removeTypeObjectField_id_of_no_object s :
  (forall path n, node_at path s = Some n -> Type_ n <> "object") ->
  removeTypeObjectField s = s.
Proof.
  induction s as [s IH] using schema_children_ind. intros Hno.
  assert (forall p c, child p s = Some c -> removeTypeObjectField c = c) as IH'.
  { intros p c Hc. apply (IH p c Hc). intros path n Hn.
    apply (Hno (p :: path)). simpl. by rewrite Hc. }
  assert (Type_ s <> "object") as Ht by (by apply (Hno [])).
  clear IH Hno.
  destruct s as [t o items allOf oneOf anyOf nt props ap pprops deps ai defs].
  simpl in *. rewrite decide_False by done. f_equal.
  - destruct items as [[sc js]|]; [|done]. simpl. f_equal. f_equal.
    + destruct sc as [sc|]; [|done]. simpl. f_equal. by apply (IH' InItemsSchema).
    + rewrite <- (list_fmap_id js) at 2. apply list_fmap_ext.
      intros i x Hx. by apply (IH' (InItemsJSONSchemas i)).
  - rewrite <- (list_fmap_id allOf) at 2. apply list_fmap_ext.
    intros i x Hx. by apply (IH' (InAllOf i)).
  - rewrite <- (list_fmap_id oneOf) at 2. apply list_fmap_ext.
    intros i x Hx. by apply (IH' (InOneOf i)).
  - rewrite <- (list_fmap_id anyOf) at 2. apply list_fmap_ext.
    intros i x Hx. by apply (IH' (InAnyOf i)).
  - destruct nt as [nt|]; [|done]. simpl. f_equal. by apply (IH' InNot).
  - rewrite <- (map_fmap_id props) at 2. apply map_fmap_ext.
    intros k x Hx. by apply (IH' (InProperties k)).
  - destruct ap as [[a [sc|]]|]; try done. simpl. do 3 f_equal.
    by apply (IH' InAdditionalProperties).
  - rewrite <- (map_fmap_id pprops) at 2. apply map_fmap_ext.
    intros k x Hx. by apply (IH' (InPatternProperties k)).
  - rewrite <- (map_fmap_id deps) at 2. apply map_fmap_ext.
    intros k [[sc|] pr] Hx; simpl; [|done]. do 2 f_equal.
    apply (IH' (InDependencies k)). simpl. by rewrite Hx.
  - destruct ai as [[a [sc|]]|]; try done. simpl. do 3 f_equal.
    by apply (IH' InAdditionalItems).
  - rewrite <- (map_fmap_id defs) at 2. apply map_fmap_ext.
    intros k x Hx. by apply (IH' (InDefinitions k)).
Qed.

End schema_induction.

(** X1. Sanitizing a CRD a second time changes nothing and gives the same
    result: the CRD that [RemoveTypeObjectFieldsFromCRDSchema] returns is
    returned as it is, with the same error or the same success, when the
    function is run on it again. *)
Theorem sanitizer_idempotent {Rest Meta : Type}
    (crd : hacks.CustomResourceDefinition Rest Meta) :
  hacks.RemoveTypeObjectFieldsFromCRDSchema
    (hacks.RemoveTypeObjectFieldsFromCRDSchema crd).1
  = hacks.RemoveTypeObjectFieldsFromCRDSchema crd.
Proof.
  unfold hacks.RemoveTypeObjectFieldsFromCRDSchema.
  destruct crd as [meta [[[[root|]]|] other]]; simpl; [|done..].
  by rewrite removeTypeObjectField_idempotent.
Qed.

(** X2. [removeTypeObjectField] leaves a schema as it is exactly when no
    node of the schema, at any path, has the type "object". *)
Theorem sanitizer_fixpoint {Rest : Type} (s : hacks.JSONSchemaProps Rest) :
  hacks.removeTypeObjectField s = s
  <-> forall path n, hacks.node_at path s = Some n -> hacks.Type_ n <> "object".
Proof.
  split; [|apply removeTypeObjectField_id_of_no_object].
  intros Heq path n. rewrite <- Heq, node_at_removeTypeObjectField.
  destruct (hacks.node_at path s) as [m|]; simpl; [|done].
  intros [= <-]. apply removeTypeObjectField_Type_not_object.
Qed.

(** ** Deep value merge, continued *)

Section mergeValues_more.
Import controlplane.
Implicit Types (base input m : gmap string value) (key : string).

Lemma map_fold_sum_lookup' {A} (f : A -> nat) (m : gmap string A) k x :
  m !! k = Some x -> f x <= map_fold (fun _ y acc => f y + acc) 0 m.
Proof.
  intros H. rewrite <- (insert_delete_id m k x H).
  rewrite map_fold_insert_L; [lia| |by rewrite lookup_delete_eq].
  intros; lia.
Qed.

Lemma value_size_lookup m key v : m !! key = Some v -> value_size v < value_size (VMap m).
Proof. intros H. apply (map_fold_sum_lookup' value_size) in H. simpl. lia. Qed.

Lemma mergeValues_dom base input :
  dom (mergeValues base input) = dom base ∪ dom input.
Proof.
  apply set_eq. intros key.
  rewrite elem_of_union, !elem_of_dom, mergeValues_lookup. unfold merged_at.
  destruct (base !! key) as [[]|], (input !! key) as [[]|];
    split; intros; try done; try (by left); try (by right); naive_solver.
Qed.

Lemma mergeValues_empty_r base : mergeValues base ∅ = base.
Proof.
  apply map_eq. intros key. rewrite mergeValues_lookup. unfold merged_at.
  rewrite lookup_empty. by destruct (base !! key) as [[]|].
Qed.

Lemma mergeValues_empty_l input : mergeValues ∅ input = input.
Proof.
  apply map_eq. intros key. rewrite mergeValues_lookup. unfold merged_at.
  by rewrite lookup_empty.
Qed.

Lemma mergeValues_self m : mergeValues m m = m.
Proof.
  remember (value_size (VMap m)) as n eqn:Hn. revert m Hn.
  induction n as [n IH] using lt_wf_ind. intros m ->.
  apply map_eq. intros key. rewrite mergeValues_lookup. unfold merged_at.
  destruct (m !! key) as [v|] eqn:Hk; [|done].
  destruct v; try done. do 2 f_equal.
  eapply IH; [|done]. by eapply value_size_lookup.
Qed.

Lemma mergeValues_idempotent base input :
  mergeValues (mergeValues base input) input = mergeValues base input.
Proof.
  remember (value_size (VMap input)) as n eqn:Hn. revert base input Hn.
  induction n as [n IH] using lt_wf_ind. intros base input ->.
  apply map_eq. intros key. rewrite !mergeValues_lookup.
  unfold merged_at at 1. rewrite mergeValues_lookup. unfold merged_at.
  destruct (base !! key) as [b|] eqn:Hb.
  - destruct b; try done.
    destruct (input !! key) as [i|] eqn:Hi; [|done].
    destruct i; try done. do 2 f_equal.
    eapply IH; [|done]. by eapply value_size_lookup.
  - destruct (input !! key) as [i|] eqn:Hi; [|done].
    destruct i; try done. by rewrite mergeValues_self.
Qed.

End mergeValues_more.

(** X3. [mergeValues] never drops a key: the keys of the result are the
    keys of [base] together with the keys of [input]; merging the empty
    map into [base] gives [base], and merging [input] into the empty (or
    nil) map gives [input]. *)
Theorem mergeValues_keys (base input : gmap string value) :
  dom (controlplane.mergeValues base input) = dom base ∪ dom input
  /\ controlplane.mergeValues base ∅ = base
  /\ controlplane.mergeValues ∅ input = input.
Proof.
  split; [apply mergeValues_dom|].
  split; [apply mergeValues_empty_r | apply mergeValues_empty_l].
Qed.

(** X4. Merging the same input a second time changes nothing, and a map
    merged into itself is that map. *)
Theorem mergeValues_twice (base input : gmap string value) :
  controlplane.mergeValues (controlplane.mergeValues base input) input
  = controlplane.mergeValues base input
  /\ controlplane.mergeValues input input = input.
Proof. split; [apply mergeValues_idempotent | apply mergeValues_self]. Qed.

(** ** Template resolution, continued *)

Section template_resolution.
Import controlplane.
Context (w : World) (version : string).
Implicit Types (smcp spec : v1.ControlPlaneSpec) (visited : gset string).

Lemma recursivelyApplyTemplates_error fuel smcp visited spec err visited' :
  recursivelyApplyTemplates w fuel smcp version visited = Some (spec, Some err, visited') ->
  spec = smcp.
Proof.
  destruct fuel as [|fuel]; [done|]. simpl.
  repeat case_match; by intros [= <- <- <-].
Qed.

Lemma recursivelyApplyTemplates_success fuel smcp visited spec visited' :
  recursivelyApplyTemplates w fuel smcp version visited = Some (spec, None, visited') ->
  v1.Version spec = v1.Version smcp
  /\ v1.Template spec = v1.Template smcp
  /\ (forall path leaf,
        get_path path (VMap (v1.GetContent (v1.Istio smcp))) = Some leaf ->
        is_map leaf = false ->
        get_path path (VMap (v1.GetContent (v1.Istio spec))) = Some leaf)
  /\ (forall path leaf,
        get_path path (VMap (v1.GetContent (v1.ThreeScale smcp))) = Some leaf ->
        is_map leaf = false ->
        get_path path (VMap (v1.GetContent (v1.ThreeScale spec))) = Some leaf).
Proof.
  destruct fuel as [|fuel]; [done|]. simpl.
  repeat case_match; intros [= <- <-]; try done; simpl;
    (split; [done|]); (split; [done|]);
    split; intros path leaf; apply mergeValues_base_leaf_wins.
Qed.

Lemma recursivelyApplyTemplates_ends n : forall smcp visited,
  ends_after w version n smcp ->
  exists res, recursivelyApplyTemplates w (S n) smcp version visited = Some res.
Proof.
  induction n as [|n IH]; intros smcp visited Hends.
  - simpl.
    destruct (decide (v1.Template smcp = EmptyString)); [by eexists|].
    destruct (decide (v1.Template smcp ∈ visited)); [by eexists|].
    inversion Hends as [| ? ? err Herr|]; subst; [done|]. rewrite Herr. by eexists.
  - remember (S n) as fuel eqn:Hfuel. simpl.
    destruct (decide (v1.Template smcp = EmptyString)); [by eexists|].
    destruct (decide (v1.Template smcp ∈ visited)); [by eexists|].
    inversion Hends as [| ? ? err Herr| ? ? template Hget Hrest]; simplify_eq.
    + rewrite Herr. by eexists.
    + rewrite Hget. destruct (IH template visited Hrest) as [[[spec' err'] vis'] Hrec].
      rewrite Hrec. destruct err'; by eexists.
Qed.

End template_resolution.

(** X5. When template resolution fails, for whatever reason, the spec it
    returns is the spec it was given: no value is merged. *)
Theorem template_resolution_failure_keeps_spec (w : controlplane.World) fuel
    (smcp spec : v1.ControlPlaneSpec) version (visited visited' : gset string) err :
  controlplane.recursivelyApplyTemplates w fuel smcp version visited
  = Some (spec, Some err, visited') ->
  spec = smcp.
Proof. apply recursivelyApplyTemplates_error. Qed.

Lemma template_resolution_failure_keeps_spec_witness :
  let w := samples.sampleWorld samples.noTemplates samples.versionKnown
             samples.instanceFound samples.patchAccepted samples.allReady in
  let smcp := v1.set_Istio (Some samples.ex_tagged)
                (v1.set_Template "missing" samples.emptySpec) in
  exists err,
    controlplane.recursivelyApplyTemplates w 1 smcp "v1.1" ∅ = Some (smcp, Some err, ∅).
Proof.
  intros w smcp.
  assert (exists spec err, controlplane.recursivelyApplyTemplates w 1 smcp "v1.1" ∅
                           = Some (spec, Some err, ∅)) as (spec & err & Hrec)
    by (eexists _, _; vm_compute; reflexivity).
  exists err.
  pose proof (template_resolution_failure_keeps_spec w 1 smcp spec "v1.1" ∅ ∅ err Hrec)
    as Hspec.
  rewrite Hspec in Hrec. exact Hrec.
Defined.

(** X6. When template resolution succeeds, the version and the template
    name of the spec are as they were, and every value of the spec's own
    [istio] and [threeScale] trees that is not a map is found again at the
    same path in the resolved trees: the values of the spec win over those
    of its templates. *)
Theorem template_resolution_keeps_own_values (w : controlplane.World) fuel
    (smcp spec : v1.ControlPlaneSpec) version (visited visited' : gset string) :
  controlplane.recursivelyApplyTemplates w fuel smcp version visited
  = Some (spec, None, visited') ->
  v1.Version spec = v1.Version smcp
  /\ v1.Template spec = v1.Template smcp
  /\ (forall path leaf,
        get_path path (VMap (v1.GetContent (v1.Istio smcp))) = Some leaf ->
        is_map leaf = false ->
        get_path path (VMap (v1.GetContent (v1.Istio spec))) = Some leaf)
  /\ (forall path leaf,
        get_path path (VMap (v1.GetContent (v1.ThreeScale smcp))) = Some leaf ->
        is_map leaf = false ->
        get_path path (VMap (v1.GetContent (v1.ThreeScale spec))) = Some leaf).
Proof. apply recursivelyApplyTemplates_success. Qed.

Lemma template_resolution_keeps_own_values_witness :
  let w := samples.sampleWorld samples.taggedDefaultTemplate samples.versionKnown
             samples.instanceFound samples.patchAccepted samples.allReady in
  let smcp := v1.set_Istio (Some samples.ex_tagged)
                (v1.set_Template "default" samples.emptySpec) in
  exists spec visited',
    controlplane.recursivelyApplyTemplates w 2 smcp "v1.1" ∅ = Some (spec, None, visited')
    /\ get_path ["global"; "tag"] (VMap (v1.GetContent (v1.Istio spec)))
       = Some (VString "1.0.0").
Proof.
  intros w smcp.
  assert (exists spec visited', controlplane.recursivelyApplyTemplates w 2 smcp "v1.1" ∅
                                = Some (spec, None, visited')) as (spec & visited' & Hrec)
    by (eexists _, _; vm_compute; reflexivity).
  exists spec, visited'. split; [exact Hrec|].
  apply (proj1 (proj2 (proj2
           (template_resolution_keeps_own_values w 2 smcp spec "v1.1" ∅ visited' Hrec))));
    reflexivity.
Defined.

(** X7. Template resolution returns whenever the chain of template
    references is finite: if following the references from the spec ends
    after at most [n] templates, [n + 1] levels of recursion are enough,
    whatever the set of visited names. *)
Theorem template_resolution_returns_on_finite_chain (w : controlplane.World) version n
    (smcp : v1.ControlPlaneSpec) (visited : gset string) :
  ends_after w version n smcp ->
  exists res,
    controlplane.recursivelyApplyTemplates w (S n) smcp version visited = Some res.
Proof. apply recursivelyApplyTemplates_ends. Qed.

Lemma template_resolution_returns_on_finite_chain_witness :
  let w := samples.sampleWorld samples.taggedDefaultTemplate samples.versionKnown
             samples.instanceFound samples.patchAccepted samples.allReady in
  let smcp := v1.set_Template "default" samples.emptySpec in
  exists res, controlplane.recursivelyApplyTemplates w 2 smcp "v1.1" ∅ = Some res.
Proof.
  intros w smcp.
  apply (template_resolution_returns_on_finite_chain w "v1.1" 1 smcp ∅).
  eapply ends_next; [vm_compute; reflexivity|].
  apply ends_unnamed. reflexivity.
Defined.

(** ** Value accessors *)

Section nested_fields.
Import controlplane.

Lemma SetNestedField_cons obj val field field' fields :
  SetNestedField obj val (field :: field' :: fields)
  = match obj !! field with
    | Some (VMap valMap) =>
        let '(valMap', err) := SetNestedField valMap val (field' :: fields) in
        (<[field := VMap valMap']> obj, err)
    | Some _ =>
        (obj, Some (Errorf "value cannot be set because a field on the path is not a map[string]interface{}"))
    | None =>
        let '(newVal, err) := SetNestedField ∅ val (field' :: fields) in
        (<[field := VMap newVal]> obj, err)
    end.
Proof. reflexivity. Qed.


Lemma length_zero_empty (s : string) : String.length s = 0 <-> s = EmptyString.
Proof. by destruct s. Qed.

End nested_fields.

(** X8. [validateSMCPSpec] accepts a spec exactly when its [istio] values
    are present and hold a map at the key "global"; otherwise it returns
    an error. *)
Theorem validateSMCPSpec_accepts (spec : v1.ControlPlaneSpec) (basePath : string) :
  controlplane.validateSMCPSpec spec basePath = None
  <-> exists data globals,
        v1.Istio spec = Some data /\ data !! "global" = Some (VMap globals).
Proof.
  unfold controlplane.validateSMCPSpec, v1.GetMap.
  destruct (v1.Istio spec) as [data|]; [|split; [done | by intros (? & ? & ? & _)]].
  change (v1.Split "global" v1.dot) with ["global"]. simpl.
  destruct (data !! "global") as [[]|] eqn:Hg; simpl;
    (split; [try done; intros _; by eexists _, _ | ]);
    intros (data' & globals & [= <-] & Hd); by rewrite Hg in Hd.
Qed.

(** X9. [isEnabled] holds exactly of values that are present and hold the
    boolean true at the key "enabled"; nil values, a missing key and a
    value of another type all count as not enabled. *)
Theorem isEnabled_true (values : option (gmap string value)) :
  controlplane.isEnabled values = true
  <-> exists data, values = Some data /\ data !! "enabled" = Some (VBool true).
Proof.
  unfold controlplane.isEnabled, v1.GetBool.
  destruct values as [data|]; [|split; [done | by intros (? & ? & _)]].
  change (v1.Split "enabled" v1.dot) with ["enabled"]. simpl.
  destruct (data !! "enabled") as [[| [] | | | |]|] eqn:He; simpl;
    (split; [try done; intros _; by eexists | ]);
    intros (data' & [= <-] & Hd); by rewrite He in Hd.
Qed.

(** ** What the methods leave alone *)

Section keeps.
Import controlplane.
Context {X : Type} (f : controlPlaneInstanceReconciler -> X).

Lemma keeps_weaken {A} (when : A -> Prop) (m : M A) : keeps always f m -> keeps when f m.
Proof. intros H r a r' Hm _. by eapply H. Qed.

Lemma keeps_ret {A} (when : A -> Prop) (a : A) : keeps when f (mret a).
Proof. intros r a' r' [= <- <-] _. done. Qed.

Lemma keeps_skip (when : unit -> Prop) : keeps when f skip.
Proof. intros r a' r' [= <- <-] _. done. Qed.

Lemma keeps_get when : keeps when f get.
Proof. intros r a' r' [= <- <-] _. done. Qed.

Lemma keeps_panic {A} (when : A -> Prop) msg : keeps when f (panic msg).
Proof. by intros r a' r' ?. Qed.

Lemma keeps_outOfFuel {A} (when : A -> Prop) : keeps when f outOfFuel.
Proof. by intros r a' r' ?. Qed.

Lemma keeps_modify when g : (forall r, f (g r) = f r) -> keeps when f (modify g).
Proof. intros Hg r a' r' [= <- <-] _. apply Hg. Qed.

Lemma keeps_call {A} (when : A -> Prop) ev (answer : list Event -> A) :
  blind_to_log f -> keeps when f (call ev answer).
Proof. intros Hf r a' r' [= <- <-] _. apply Hf. Qed.

Lemma keeps_bind {A B} (when : B -> Prop) (m : M A) (k : A -> M B) :
  keeps always f m -> (forall a, keeps when f (k a)) -> keeps when f (m ≫= k).
Proof.
  intros Hm Hk r b r'. unfold mbind, M_bind.
  destruct (m r) as [[a r1]| |] eqn:Hmr; [|done..].
  intros Hkr Hb. rewrite (Hk a r1 b r' Hkr Hb). by eapply Hm.
Qed.

(** The last step may change [f] when its result falls outside [when]. *)
Lemma keeps_vacuous {A} (when : A -> Prop) (m : M unit) (a : A) :
  ~ when a -> keeps when f (m ≫= fun _ => mret a).
Proof.
  intros Hn r b r'. unfold mbind, M_bind.
  destruct (m r) as [[[] r1]| |]; [|done..]. intros [= <- <-] Hb. done.
Qed.

End keeps.

Create HintDb keeps.

Ltac keeps_step :=
  first
    [ solve [eauto 3 with keeps]
    | solve [apply keeps_weaken; eauto 3 with keeps]
    | apply keeps_ret | apply keeps_skip | apply keeps_get
    | apply keeps_panic | apply keeps_outOfFuel
    | apply keeps_call; solve [auto]
    | apply keeps_modify; solve [intros; simpl; auto]
    | match goal with
      | |- keeps _ _ (match ?x with _ => _ end) => destruct x
      | |- keeps _ _ (if ?x then _ else _) => destruct x
      | |- keeps _ _ (let '(_, _) := ?x in _) => destruct x
      end
    | apply keeps_bind; [|intros ?] ].
Ltac keeps_auto := repeat keeps_step.

(** Methods that change only the status, the process-wide configuration
    and the events. *)
Section keeps_status_methods.
Local Set Default Proof Using "All".
Import controlplane.
Context (w : World) {X : Type} (f : controlPlaneInstanceReconciler -> X).
Context (Hlog : blind_to_log f).
Context (HStatus : forall x r, f (set_Status x r) = f r).
Context (HOAuthProxy : forall x r, f (set_OAuthProxy x r) = f r).

Lemma keeps_EventRecorder_Event when eventtype reason message :
  keeps when f (EventRecorder_Event eventtype reason message).
Proof. unfold EventRecorder_Event. keeps_auto. Qed.
#[local] Hint Resolve keeps_EventRecorder_Event : keeps.

Lemma keeps_calculateComponentReadiness when :
  keeps when f (calculateComponentReadiness w).
Proof. unfold calculateComponentReadiness. keeps_auto. Qed.
#[local] Hint Resolve keeps_calculateComponentReadiness : keeps.

Lemma keeps_processComponentManifests when chart :
  keeps when f (processComponentManifests w chart).
Proof. unfold processComponentManifests. keeps_auto. Qed.
#[local] Hint Resolve keeps_processComponentManifests : keeps.

Lemma keeps_updateReadinessStatus when : keeps when f (updateReadinessStatus w).
Proof. unfold updateReadinessStatus. keeps_auto. Qed.
#[local] Hint Resolve keeps_updateReadinessStatus : keeps.

Lemma keeps_updateConditions when err : keeps when f (updateConditions w err).
Proof. unfold updateConditions. keeps_auto. Qed.
#[local] Hint Resolve keeps_updateConditions : keeps.

Lemma keeps_chartsInInstallationOrder when : keeps when f (chartsInInstallationOrder w).
Proof. unfold chartsInInstallationOrder. keeps_auto. Qed.
#[local] Hint Resolve keeps_chartsInInstallationOrder : keeps.

Lemma keeps_PostStatus when : keeps when f (PostStatus w).
Proof. unfold PostStatus. keeps_auto. Qed.
#[local] Hint Resolve keeps_PostStatus : keeps.

Lemma keeps_pauseReconciliation when : keeps when f pauseReconciliation.
Proof. unfold pauseReconciliation, EventRecorder_Event. keeps_auto. Qed.
#[local] Hint Resolve keeps_pauseReconciliation : keeps.

Lemma keeps_SetField when helmValues path val : keeps when f (SetField helmValues path val).
Proof. unfold SetField. keeps_auto. Qed.
#[local] Hint Resolve keeps_SetField : keeps.

Lemma keeps_updateImageField when helmValues path val :
  keeps when f (updateImageField helmValues path val).
Proof. unfold updateImageField. keeps_auto. Qed.
#[local] Hint Resolve keeps_updateImageField : keeps.

Lemma keeps_updateOauthProxyConfig when smcpSpec :
  keeps when f (updateOauthProxyConfig w smcpSpec).
Proof. unfold updateOauthProxyConfig. keeps_auto. Qed.
#[local] Hint Resolve keeps_updateOauthProxyConfig : keeps.

Lemma keeps_applyDisconnectedSettings when smcpSpec version :
  keeps when f (applyDisconnectedSettings w smcpSpec version).
Proof. unfold applyDisconnectedSettings. keeps_auto. Qed.
#[local] Hint Resolve keeps_applyDisconnectedSettings : keeps.

Lemma keeps_applyTemplates when fuel smcpSpec version :
  keeps when f (applyTemplates w fuel smcpSpec version).
Proof. unfold applyTemplates. keeps_auto. Qed.
#[local] Hint Resolve keeps_applyTemplates : keeps.

Lemma keeps_setLastAppliedField when path val :
  keeps when f (setLastAppliedField path val).
Proof. unfold setLastAppliedField. keeps_auto. Qed.
#[local] Hint Resolve keeps_setLastAppliedField : keeps.

Lemma keeps_initializeReconcileStatus when : keeps when f (initializeReconcileStatus w).
Proof. unfold initializeReconcileStatus. keeps_auto. Qed.
#[local] Hint Resolve keeps_initializeReconcileStatus : keeps.

Lemma keeps_postReconciliationStatus when reason message processingErr :
  keeps when f (postReconciliationStatus w reason message processingErr).
Proof. unfold postReconciliationStatus. keeps_auto. Qed.
#[local] Hint Resolve keeps_postReconciliationStatus : keeps.

(** [renderCharts] changes the renderings only when it returns no error. *)
Lemma keeps_renderCharts_error fuel version :
  keeps (fun err : option error => err <> None) f (renderCharts w fuel version).
Proof.
  unfold renderCharts.
  repeat first [ apply (keeps_vacuous f _ _ None); by intros ? | keeps_step ].
Qed.
#[local] Hint Resolve keeps_renderCharts_error : keeps.

End keeps_status_methods.

#[global] Hint Extern 1 (blind_to_log _) => (intros ? ?; reflexivity) : keeps.
#[global] Hint Extern 1 (forall _ _, _ = _) => (intros ? ?; reflexivity) : keeps.

Section ensures.
Import controlplane.
Context (P : controlPlaneInstanceReconciler -> Prop).

Lemma ensures_bind {A B} (when : B -> Prop) (m : M A) (k : A -> M B) :
  (forall a, ensures when P (k a)) -> ensures when P (m ≫= k).
Proof.
  intros Hk r b r'. unfold mbind, M_bind.
  destruct (m r) as [[a r1]| |]; [|done..]. apply Hk.
Qed.

Lemma ensures_ret_vacuous {A} (when : A -> Prop) (a : A) :
  ~ when a -> ensures when P (mret a).
Proof. intros Hn r a' r' [= <- <-] Ha. done. Qed.

Lemma ensures_modify_ret {A} (when : A -> Prop) g (a : A) :
  (forall r, P (g r)) -> ensures when P (modify g ≫= fun _ => mret a).
Proof. intros Hg r a' r' [= <- <-] _. apply Hg. Qed.

Lemma ensures_outOfFuel {A} (when : A -> Prop) : ensures when P (outOfFuel (A:=A)).
Proof. by intros r a' r' ?. Qed.

Lemma ensures_panic {A} (when : A -> Prop) msg : ensures when P (panic (A:=A) msg).
Proof. by intros r a' r' ?. Qed.

End ensures.

Section renderCharts_success.
Import controlplane.
Context (w : World).

Lemma renderCharts_sets_renderings fuel version :
  ensures (fun err : option error => err = None)
          (fun r => is_Some (renderings r)) (renderCharts w fuel version).
Proof.
  unfold renderCharts.
  repeat first
    [ apply ensures_ret_vacuous; by intros ?
    | apply ensures_modify_ret; by eexists
    | apply ensures_outOfFuel | apply ensures_panic
    | match goal with
      | |- ensures _ _ (match ?x with _ => _ end) => destruct x
      | |- ensures _ _ (if ?x then _ else _) => destruct x
      | |- ensures _ _ (let '(_, _) := ?x in _) => destruct x
      end
    | apply ensures_bind; intros ? ].
Qed.

End renderCharts_success.

(** Methods of the reconciliation cycle: they change the status, the
    renderings, the wait set, the owner references, the mesh generation,
    the process-wide configuration and the events. *)
Section keeps_cycle_methods.
Local Set Default Proof Using "All".
Import controlplane.
Context (w : World) {X : Type} (f : controlPlaneInstanceReconciler -> X).
Context (Hlog : blind_to_log f).
Context (HStatus : forall x r, f (set_Status x r) = f r).
Context (HOAuthProxy : forall x r, f (set_OAuthProxy x r) = f r).
Context (Hrenderings : forall x r, f (set_renderings x r) = f r).
Context (HwaitForComponents : forall x r, f (set_waitForComponents x r) = f r).
Context (HownerRefs : forall x r, f (set_ownerRefs x r) = f r).
Context (HmeshGeneration : forall x r, f (set_meshGeneration x r) = f r).

#[local] Hint Resolve keeps_EventRecorder_Event keeps_calculateComponentReadiness
  keeps_processComponentManifests keeps_updateReadinessStatus keeps_updateConditions
  keeps_chartsInInstallationOrder keeps_PostStatus keeps_pauseReconciliation
  keeps_applyTemplates keeps_setLastAppliedField keeps_initializeReconcileStatus
  keeps_postReconciliationStatus : keeps.

Lemma keeps_renderCharts when fuel version : keeps when f (renderCharts w fuel version).
Proof. unfold renderCharts. keeps_auto. Qed.
#[local] Hint Resolve keeps_renderCharts : keeps.

Lemma keeps_Reconcile_render when fuel reason0 message0 :
  keeps when f (Reconcile_render w fuel reason0 message0).
Proof. unfold Reconcile_render. keeps_auto. Qed.
#[local] Hint Resolve keeps_Reconcile_render : keeps.

Lemma keeps_Reconcile_resume when : keeps when f (Reconcile_resume w).
Proof. unfold Reconcile_resume. keeps_auto. Qed.
#[local] Hint Resolve keeps_Reconcile_resume : keeps.

Lemma keeps_Reconcile_charts charts : forall when, keeps when f (Reconcile_charts w charts).
Proof.
  induction charts as [|chart charts IH]; intros when; simpl; keeps_auto.
Qed.
#[local] Hint Resolve keeps_Reconcile_charts : keeps.

Lemma keeps_Reconcile_groups groups : forall when, keeps when f (Reconcile_groups w groups).
Proof.
  induction groups as [|charts groups IH]; intros when; simpl; keeps_auto.
Qed.
#[local] Hint Resolve keeps_Reconcile_groups : keeps.

Lemma keeps_Reconcile_complete when : keeps when f (Reconcile_complete w).
Proof. unfold Reconcile_complete. keeps_auto. Qed.
#[local] Hint Resolve keeps_Reconcile_complete : keeps.

Lemma keeps_Reconcile_body when fuel reason0 message0 :
  keeps when f (Reconcile_body w fuel reason0 message0).
Proof. unfold Reconcile_body. keeps_auto. Qed.
#[local] Hint Resolve keeps_Reconcile_body : keeps.

Lemma keeps_Reconcile when fuel : keeps when f (Reconcile w fuel).
Proof. unfold Reconcile. keeps_auto. Qed.

End keeps_cycle_methods.

(** ** Steps of the reconciliation cycle *)

Section conditions.

Lemma GetCondition_SetCondition_eq conditions c :
  status.GetCondition (status.SetCondition conditions c) (status.Type_ c) = c.
Proof.
  induction conditions as [|c' conditions IH]; simpl.
  - by rewrite decide_True.
  - destruct (decide (status.Type_ c' = status.Type_ c)); simpl.
    + by rewrite decide_True.
    + by rewrite decide_False.
Qed.

Lemma GetCondition_SetCondition_ne conditions c t :
  status.Type_ c <> t ->
  status.GetCondition (status.SetCondition conditions c) t
  = status.GetCondition conditions t.
Proof.
  intros Hne. induction conditions as [|c' conditions IH]; simpl.
  - by rewrite decide_False.
  - destruct (decide (status.Type_ c' = status.Type_ c)) as [Heq|Hneq]; simpl.
    + rewrite decide_False by done. rewrite decide_False by congruence. done.
    + destruct (decide (status.Type_ c' = t)); [done|]. apply IH.
Qed.

End conditions.

Section cycle_steps.
Import controlplane.
Context (w : World).
Implicit Types (r : controlPlaneInstanceReconciler).

Lemma initializeReconcileStatus_returns r :
  let conditionReason :=
    if isUpdating r then status.ConditionReasonSpecUpdated
    else status.ConditionReasonResourceCreated in
  let eventReason := if isUpdating r then eventReasonUpdating else eventReasonInstalling in
  exists readyMessage st,
    initializeReconcileStatus w r
    = Returns (tt, set_Status st
                     (set_log (log r ++ [EvRecorderEvent "Normal" eventReason readyMessage]) r))
    /\ v2.GetCondition st status.ConditionTypeReconciled
       = {| status.Type_ := status.ConditionTypeReconciled;
            status.Status := status.ConditionStatusFalse;
            status.Reason := conditionReason; status.Message := readyMessage |}
    /\ v2.GetCondition st status.ConditionTypeReady
       = {| status.Type_ := status.ConditionTypeReady;
            status.Status := status.ConditionStatusFalse;
            status.Reason := conditionReason; status.Message := readyMessage |}
    /\ v2.GetCondition st status.ConditionTypeInstalled
       = (if isUpdating r then v2.GetCondition (Status r) status.ConditionTypeInstalled
          else {| status.Type_ := status.ConditionTypeInstalled;
                  status.Status := status.ConditionStatusFalse;
                  status.Reason := conditionReason; status.Message := readyMessage |})
    /\ v2.ObservedGeneration st = v2.ObservedGeneration (Status r)
    /\ v2.ReconciledVersion st = v2.ReconciledVersion (Status r)
    /\ v2.ComponentStatus st = v2.ComponentStatus (Status r)
    /\ v2.LastAppliedConfiguration st = v2.LastAppliedConfiguration (Status r).
Proof.
  unfold initializeReconcileStatus, EventRecorder_Event. run.
  destruct (isUpdating r); simpl; eexists _, _; (split; [reflexivity|]);
    unfold v2.GetCondition, v2.SetCondition; simpl;
    repeat first [ rewrite GetCondition_SetCondition_eq
                 | rewrite GetCondition_SetCondition_ne by (simpl; congruence) ];
    done.
Qed.

Lemma PostStatus_posts r :
  exists err new,
    PostStatus w r = Returns (err, set_log (log r ++ new) r)
    /\ forallb isStatusPost new = true.
Proof.
  destruct (decide (Status r = v2.Status (Instance r))) as [Heq|Hne].
  - exists None, []. rewrite PostStatus_unchanged by done.
    rewrite app_nil_r. by destruct r.
  - rewrite PostStatus_changed by done.
    destruct (answerGetInstance w _ _ _); by eexists _, _.
Qed.

Lemma Reconcile_charts_returns charts : forall r,
  exists returned r',
    Reconcile_charts w charts r = Returns (returned, r')
    /\ waitForComponents r'
       ⊆ waitForComponents r ∪ list_to_set (componentFromChartName <$> charts)
    /\ renderings r' = renderings r
    /\ match returned with
       | Some exit =>
           reconciliationReason exit = status.ConditionReasonReconcileError
           /\ err exit <> None /\ reconciliationComplete exit = false
       | None => True
       end.
Proof.
  induction charts as [|chart charts IH]; intros r; simpl.
  - eexists _, _. split; [reflexivity|]. split; [set_solver|]. done.
  - unfold processComponentManifests. run.
    destruct (answerProcessComponentManifests w (log r) (Status r) chart)
      as [[st hasReadiness] [e|]]; simpl.
    + eexists _, _. split; [reflexivity|]. simpl. split; [set_solver|]. done.
    + destruct hasReadiness; simpl.
      * match goal with |- context [Reconcile_charts w charts ?r0] =>
          destruct (IH r0) as (returned & r' & -> & Hsub & Hren & Hexit) end.
        eexists _, _. split; [reflexivity|]. simpl in *. split; [set_solver|]. done.
      * match goal with |- context [Reconcile_charts w charts ?r0] =>
          destruct (IH r0) as (returned & r' & -> & Hsub & Hren & Hexit) end.
        eexists _, _. split; [reflexivity|]. simpl in *. split; [set_solver|]. done.
Qed.

Lemma pauseReconciliation_returns r :
  let eventReason :=
    if isUpdating r then eventReasonPausingUpdate else eventReasonPausingInstall in
  let conditionReason :=
    if isUpdating r then status.ConditionReasonPausingUpdate
    else status.ConditionReasonPausingInstall in
  let message := "Paused until the following components become ready: "
                 +:+ fmt_strings (sets_List (waitForComponents r)) in
  pauseReconciliation r
  = Returns ((conditionReason, message, None),
             set_log (log r ++ [EvRecorderEvent "Normal" eventReason message]) r).
Proof. unfold pauseReconciliation, EventRecorder_Event. run. by destruct (isUpdating r). Qed.


End cycle_steps.


(** ** Outcomes of the rendering and of the cycle *)

Section keeps_renderCharts_fields.
Local Set Default Proof Using "All".
Import controlplane.
Context (w : World) {X : Type} (f : controlPlaneInstanceReconciler -> X).
Context (Hlog : blind_to_log f).
Context (HStatus : forall x r, f (set_Status x r) = f r).
Context (HOAuthProxy : forall x r, f (set_OAuthProxy x r) = f r).
Context (Hrenderings : forall x r, f (set_renderings x r) = f r).

#[local] Hint Resolve keeps_applyTemplates keeps_setLastAppliedField : keeps.

Lemma keeps_renderCharts_fields when fuel version :
  keeps when f (renderCharts w fuel version).
Proof. unfold renderCharts. keeps_auto. Qed.

End keeps_renderCharts_fields.

(** X11. [renderCharts] caches renderings only when it succeeds: when it
    returns an error the renderings are the ones it found, when it
    returns none there are renderings; in both cases the wait set, the
    instance, the owner references and the mesh generation are as they
    were. *)
Theorem renderCharts_renderings (w : controlplane.World) fuel version
    (r r' : controlplane.controlPlaneInstanceReconciler) err :
  controlplane.renderCharts w fuel version r = controlplane.Returns (err, r') ->
  (err <> None -> controlplane.renderings r' = controlplane.renderings r)
  /\ (err = None -> is_Some (controlplane.renderings r'))
  /\ controlplane.waitForComponents r' = controlplane.waitForComponents r
  /\ controlplane.Instance r' = controlplane.Instance r
  /\ controlplane.ownerRefs r' = controlplane.ownerRefs r
  /\ controlplane.meshGeneration r' = controlplane.meshGeneration r.
Proof.
  intros Hr. split; [|split; [|repeat split]].
  - intros He.
    exact (keeps_renderCharts_error w controlplane.renderings
             (fun _ _ => eq_refl) (fun _ _ => eq_refl) (fun _ _ => eq_refl)
             fuel version r err r' Hr He).
  - intros He. exact (renderCharts_sets_renderings w fuel version r err r' Hr He).
  - exact (keeps_renderCharts_fields w controlplane.waitForComponents
             (fun _ _ => eq_refl) (fun _ _ => eq_refl) (fun _ _ => eq_refl)
             (fun _ _ => eq_refl) always fuel version r err r' Hr I).
  - exact (keeps_renderCharts_fields w controlplane.Instance
             (fun _ _ => eq_refl) (fun _ _ => eq_refl) (fun _ _ => eq_refl)
             (fun _ _ => eq_refl) always fuel version r err r' Hr I).
  - exact (keeps_renderCharts_fields w controlplane.ownerRefs
             (fun _ _ => eq_refl) (fun _ _ => eq_refl) (fun _ _ => eq_refl)
             (fun _ _ => eq_refl) always fuel version r err r' Hr I).
  - exact (keeps_renderCharts_fields w controlplane.meshGeneration
             (fun _ _ => eq_refl) (fun _ _ => eq_refl) (fun _ _ => eq_refl)
             (fun _ _ => eq_refl) always fuel version r err r' Hr I).
Qed.

Lemma renderCharts_renderings_witness :
  let w := samples.sampleWorld samples.taggedDefaultTemplate samples.versionKnown
             samples.instanceFound samples.patchAccepted samples.allReady in
  let r := samples.ex_reconciler None {[ "istio" ]} in
  exists r',
    controlplane.renderCharts w 2 "v1.1" r = controlplane.Returns (None, r')
    /\ is_Some (controlplane.renderings r')
    /\ controlplane.waitForComponents r' = {[ "istio" ]}.
Proof.
  intros w r.
  assert (exists r', controlplane.renderCharts w 2 "v1.1" r = controlplane.Returns (None, r'))
    as [r' Hr] by (eexists; vm_compute; reflexivity).
  exists r'. split; [exact Hr|].
  destruct (renderCharts_renderings w 2 "v1.1" r r' None Hr) as (_ & Hsome & Hwait & _).
  split; [by apply Hsome | exact Hwait].
Defined.

(** X12. [Reconcile] never changes the instance it was given, nor the CNI
    configuration: whatever it does, it leaves both as they were. *)
Theorem Reconcile_keeps_instance (w : controlplane.World) fuel
    (r r' : controlplane.controlPlaneInstanceReconciler) err :
  controlplane.Reconcile w fuel r = controlplane.Returns (err, r') ->
  controlplane.Instance r' = controlplane.Instance r
  /\ controlplane.cniConfig r' = controlplane.cniConfig r.
Proof.
  intros Hr. split.
  - exact (keeps_Reconcile w controlplane.Instance
             (fun _ _ => eq_refl) (fun _ _ => eq_refl) (fun _ _ => eq_refl)
             (fun _ _ => eq_refl) (fun _ _ => eq_refl) (fun _ _ => eq_refl)
             (fun _ _ => eq_refl) always fuel r err r' Hr I).
  - exact (keeps_Reconcile w controlplane.cniConfig
             (fun _ _ => eq_refl) (fun _ _ => eq_refl) (fun _ _ => eq_refl)
             (fun _ _ => eq_refl) (fun _ _ => eq_refl) (fun _ _ => eq_refl)
             (fun _ _ => eq_refl) always fuel r err r' Hr I).
Qed.

Lemma Reconcile_keeps_instance_witness :
  let w := samples.sampleWorld samples.noTemplates samples.versionKnown
             samples.instanceFound samples.patchAccepted samples.allReady in
  let r := samples.ex_reconciler (Some {[ "istio" := [] ]}) ∅ in
  exists err r',
    controlplane.Reconcile w 0 r = controlplane.Returns (err, r')
    /\ controlplane.Instance r' = samples.ex_instance.
Proof.
  intros w r.
  assert (exists err r', controlplane.Reconcile w 0 r = controlplane.Returns (err, r'))
    as (err & r' & Hr) by (eexists _, _; vm_compute; reflexivity).
  exists err, r'. split; [exact Hr|].
  exact (proj1 (Reconcile_keeps_instance w 0 r r' err Hr)).
Defined.

(** ** Exits of the reconciliation *)

Section yields.
Import controlplane.

Lemma yields_bind {A B} (P : B -> Prop) (m : M A) (k : A -> M B) :
  (forall a, yields P (k a)) -> yields P (m ≫= k).
Proof.
  intros Hk r b r'. unfold mbind, M_bind.
  destruct (m r) as [[a r1]| |]; [|done..]. apply Hk.
Qed.

Lemma yields_bind_of {A B} (Q : A -> Prop) (P : B -> Prop) (m : M A) (k : A -> M B) :
  yields Q m -> (forall a, Q a -> yields P (k a)) -> yields P (m ≫= k).
Proof.
  intros Hm Hk r b r'. unfold mbind, M_bind.
  destruct (m r) as [[a r1]| |] eqn:Hmr; [|done..]. apply Hk. by eapply Hm.
Qed.

Lemma yields_ret {A} (P : A -> Prop) (a : A) : P a -> yields P (mret a).
Proof. intros Ha r a' r' [= <- <-]. done. Qed.

Lemma yields_panic {A} (P : A -> Prop) msg : yields P (panic (A:=A) msg).
Proof. by intros r a' r' ?. Qed.

Lemma yields_outOfFuel {A} (P : A -> Prop) : yields P (outOfFuel (A:=A)).
Proof. by intros r a' r' ?. Qed.

End yields.

Ltac yields_step :=
  first
    [ apply yields_ret; solve [simpl; intuition (auto; congruence)]
    | apply yields_panic | apply yields_outOfFuel
    | match goal with
      | |- yields _ (match ?x with _ => _ end) => destruct x
      | |- yields _ (if ?x then _ else _) => destruct x
      | |- yields _ (let '(_, _) := ?x in _) => destruct x
      end
    | apply yields_bind; intros ? ].

Section body_exits.
Import controlplane.
Context (w : World).

Lemma yields_Reconcile_render fuel reason0 message0 :
  yields not_complete (Reconcile_render w fuel reason0 message0).
Proof.
  unfold Reconcile_render.
  repeat first
    [ apply yields_ret; intros ? [= <-]; reflexivity
    | apply yields_ret; by intros ?
    | apply yields_ret; intros ? [= <-]; auto
    | match goal with
      | |- yields _ (?m ≫= _) =>
          match type of m with
          | M (option exit) => apply (yields_bind_of not_complete); [|intros ? ?]
          end
      end
    | yields_step ].
Qed.

Lemma yields_Reconcile_resume : yields not_complete (Reconcile_resume w).
Proof.
  unfold Reconcile_resume, pauseReconciliation.
  repeat first
    [ apply yields_ret; intros ? [= <-]; reflexivity
    | apply yields_ret; by intros ?
    | yields_step ].
Qed.

Lemma yields_Reconcile_charts charts : yields not_complete (Reconcile_charts w charts).
Proof.
  induction charts as [|chart charts IH]; simpl.
  - apply yields_ret. by intros ?.
  - repeat first
      [ exact IH
      | apply yields_ret; intros ? [= <-]; reflexivity
      | yields_step ].
Qed.

Lemma yields_Reconcile_groups groups : yields not_complete (Reconcile_groups w groups).
Proof.
  induction groups as [|charts groups IH]; simpl.
  - apply yields_ret. by intros ?.
  - unfold pauseReconciliation.
    repeat first
      [ exact IH
      | apply yields_ret; intros ? [= <-]; reflexivity
      | match goal with
        | |- yields _ (?m ≫= _) =>
            match type of m with
            | M (option exit) =>
                apply (yields_bind_of not_complete);
                [apply yields_Reconcile_charts | intros ? ?]
            end
        end
      | apply yields_ret; intros ? [= <-]; auto
      | yields_step ].
Qed.

Lemma yields_Reconcile_complete : yields complete_exit (Reconcile_complete w).
Proof.
  unfold Reconcile_complete, complete_exit.
  apply yields_bind; intros _. apply yields_bind; intros r.
  apply yields_bind; intros [e|]; [by apply yields_ret|].
  apply yields_bind; intros r1.
  apply (yields_bind_of (fun '(reason, _) =>
           reason = status.ConditionReasonInstallSuccessful
           \/ reason = status.ConditionReasonUpdateSuccessful)).
  { destruct (isUpdating r1); apply yields_bind; intros _; apply yields_ret; auto. }
  intros [reason message] Hreason.
  apply yields_bind; intros _. apply yields_bind; intros _.
  apply yields_ret. simpl. auto.
Qed.

Lemma yields_Reconcile_body fuel reason0 message0 :
  yields complete_exit (Reconcile_body w fuel reason0 message0).
Proof.
  assert (forall e, not_complete (Some e) -> complete_exit e) as Hnc.
  { intros e He Hc. rewrite (He e eq_refl) in Hc. done. }
  unfold Reconcile_body.
  apply yields_bind; intros r.
  apply (yields_bind_of not_complete).
  { destruct (renderings r).
    - destruct (decide _); [apply yields_Reconcile_resume|].
      apply yields_ret. by intros ?.
    - apply yields_Reconcile_render. }
  intros [e|] He; [apply yields_ret; by apply Hnc|].
  apply yields_bind; intros groups.
  apply (yields_bind_of not_complete); [apply yields_Reconcile_groups|].
  intros [e'|] He'; [apply yields_ret; by apply Hnc|].
  apply yields_Reconcile_complete.
Qed.

End body_exits.

(** X13. [Reconcile] reports completion only on success: when the body of
    [Reconcile] ends with [reconciliationComplete] set, it ends without an
    error and with the reason InstallSuccessful or UpdateSuccessful; every
    pause and every failure leaves [reconciliationComplete] unset. *)
Theorem Reconcile_body_complete_is_success (w : controlplane.World) fuel reason0 message0
    (r r' : controlplane.controlPlaneInstanceReconciler) (exit : controlplane.exit) :
  controlplane.Reconcile_body w fuel reason0 message0 r = controlplane.Returns (exit, r') ->
  controlplane.reconciliationComplete exit = true ->
  controlplane.err exit = None
  /\ (controlplane.reconciliationReason exit = status.ConditionReasonInstallSuccessful
      \/ controlplane.reconciliationReason exit = status.ConditionReasonUpdateSuccessful).
Proof. intros Hr. exact (yields_Reconcile_body w fuel reason0 message0 r exit r' Hr). Qed.

Lemma Reconcile_body_complete_is_success_witness :
  let w := samples.sampleWorld samples.noTemplates samples.versionKnown
             samples.instanceFound samples.patchAccepted samples.allReady in
  let r := samples.ex_reconciler (Some samples.ex_renderings) {[ "istio" ]} in
  exists exit r',
    controlplane.Reconcile_body w 0 EmptyString EmptyString r
    = controlplane.Returns (exit, r')
    /\ controlplane.reconciliationComplete exit = true
    /\ controlplane.err exit = None.
Proof.
  intros w r.
  assert (exists exit r',
            controlplane.Reconcile_body w 0 EmptyString EmptyString r
            = controlplane.Returns (exit, r')
            /\ controlplane.reconciliationComplete exit = true)
    as (exit & r' & Hr & Hc) by (eexists _, _; split; vm_compute; reflexivity).
  exists exit, r'. split; [exact Hr|]. split; [exact Hc|].
  exact (proj1 (Reconcile_body_complete_is_success w 0 _ _ r r' exit Hr Hc)).
Defined.

(** ** Status, session and names *)

Section status_initialisation.
Import controlplane.
Context (w : World).
Implicit Types (r : controlPlaneInstanceReconciler).

(** X14. [initializeReconcileStatus] always returns, records one Normal
    event and sets the conditions Reconciled and Ready to false with the
    message of that event and the reason SpecUpdated for an update,
    ResourceCreated for an installation; it sets Installed the same way
    for an installation only; every other condition and the rest of the
    status are as they were. *)
Theorem initializeReconcileStatus_conditions r :
  let reason :=
    if isUpdating r then status.ConditionReasonSpecUpdated
    else status.ConditionReasonResourceCreated in
  let eventReason := if isUpdating r then eventReasonUpdating else eventReasonInstalling in
  exists message st,
    initializeReconcileStatus w r
    = Returns (tt, set_Status st
                     (set_log (log r ++ [EvRecorderEvent "Normal" eventReason message]) r))
    /\ (forall t,
          v2.GetCondition st t
          = if bool_decide (t = status.ConditionTypeReconciled
                            \/ t = status.ConditionTypeReady
                            \/ (t = status.ConditionTypeInstalled /\ isUpdating r = false))
            then {| status.Type_ := t; status.Status := status.ConditionStatusFalse;
                    status.Reason := reason; status.Message := message |}
            else v2.GetCondition (Status r) t)
    /\ v2.ObservedGeneration st = v2.ObservedGeneration (Status r)
    /\ v2.ReconciledVersion st = v2.ReconciledVersion (Status r)
    /\ v2.ComponentStatus st = v2.ComponentStatus (Status r)
    /\ v2.LastAppliedConfiguration st = v2.LastAppliedConfiguration (Status r).
Proof.
  unfold initializeReconcileStatus, EventRecorder_Event. run.
  destruct (isUpdating r); simpl; eexists _, _; (split; [reflexivity|]);
    (split; [|done]); intros t;
    unfold v2.GetCondition, v2.SetCondition; simpl.
  - destruct (decide (t = status.ConditionTypeReady)) as [->|Hready].
    { rewrite bool_decide_eq_true_2 by auto.
      by rewrite (GetCondition_SetCondition_eq _
           {| status.Type_ := status.ConditionTypeReady |}). }
    rewrite GetCondition_SetCondition_ne by (simpl; congruence).
    destruct (decide (t = status.ConditionTypeReconciled)) as [->|Hrec].
    { rewrite bool_decide_eq_true_2 by auto.
      by rewrite (GetCondition_SetCondition_eq _
           {| status.Type_ := status.ConditionTypeReconciled |}). }
    rewrite GetCondition_SetCondition_ne by (simpl; congruence).
    rewrite bool_decide_eq_false_2; [done|]. intros [?|[?|[_ ?]]]; done.
  - destruct (decide (t = status.ConditionTypeReady)) as [->|Hready].
    { rewrite bool_decide_eq_true_2 by auto.
      by rewrite (GetCondition_SetCondition_eq _
           {| status.Type_ := status.ConditionTypeReady |}). }
    rewrite GetCondition_SetCondition_ne by (simpl; congruence).
    destruct (decide (t = status.ConditionTypeReconciled)) as [->|Hrec].
    { rewrite bool_decide_eq_true_2 by auto.
      by rewrite (GetCondition_SetCondition_eq _
           {| status.Type_ := status.ConditionTypeReconciled |}). }
    rewrite GetCondition_SetCondition_ne by (simpl; congruence).
    destruct (decide (t = status.ConditionTypeInstalled)) as [->|Hinst].
    { rewrite bool_decide_eq_true_2 by auto.
      by rewrite (GetCondition_SetCondition_eq _
           {| status.Type_ := status.ConditionTypeInstalled |}). }
    rewrite GetCondition_SetCondition_ne by (simpl; congruence).
    rewrite bool_decide_eq_false_2; [done|]. intros [?|[?|[? _]]]; done.
Qed.

End status_initialisation.

Section session.
Import controlplane.
Implicit Types (r : controlPlaneInstanceReconciler).

(** X15. [SetInstance] always installs the new instance.  When its
    generation differs from the one of the instance held so far, the
    renderings and the wait set are dropped and the reconciler is no
    longer finished, whatever it was before, while the conditions other
    than Reconciled stay; when the generation is the same nothing but
    the instance changes. *)
Theorem SetInstance_generation (newInstance : v2.ServiceMeshControlPlane) r :
  exists r',
    SetInstance newInstance r = Returns (tt, r')
    /\ Instance r' = newInstance
    /\ if decide (v2.Generation newInstance = v2.Generation (Instance r))
       then r' = set_Instance newInstance r
       else renderings r' = None
            /\ waitForComponents r' = ∅
            /\ IsFinished r' = false
            /\ status.Status (v2.GetCondition (Status r') status.ConditionTypeReconciled)
               = status.ConditionStatusUnknown
            /\ forall t, t <> status.ConditionTypeReconciled ->
                 v2.GetCondition (Status r') t = v2.GetCondition (Status r) t.
Proof.
  unfold SetInstance. run.
  destruct (decide (v2.Generation newInstance = v2.Generation (Instance r))) as [Heq|Hne].
  - rewrite decide_False by (intros ?; done). simpl.
    eexists. split; [reflexivity|]. split; [done|]. by destruct r.
  - rewrite decide_True by done. simpl.
    eexists. split; [reflexivity|]. split; [done|]. simpl.
    unfold IsFinished, v2.GetCondition, v2.SetCondition. simpl.
    rewrite (GetCondition_SetCondition_eq _
               {| status.Type_ := status.ConditionTypeReconciled |}). simpl.
    repeat split.
    intros t Ht. by rewrite GetCondition_SetCondition_ne by (simpl; congruence).
Qed.

(** X16. The first [Reconcile] of a reconciler that was just created for an
    instance whose Reconciled condition is not false does no
    reconciliation work.  It records the initial status, which differs
    from the one of the instance, and so always fetches the instance to
    post it.  When the instance is found it patches that instance with
    the working status, and returns the error of the patch unless it says
    that the instance is gone or not found; when the instance cannot be
    fetched it makes no patch, and returns the error of the fetch with
    the same exception.  No chart is rendered and the reconciler is not
    finished. *)
Theorem first_Reconcile_posts_status (w : World) fuel
    (newInstance : v2.ServiceMeshControlPlane) cniConfig oauthProxy l :
  status.Status (v2.GetCondition (v2.Status newInstance) status.ConditionTypeReconciled)
  <> status.ConditionStatusFalse ->
  let r := NewControlPlaneInstanceReconciler newInstance cniConfig oauthProxy l in
  let namespace := v2.Namespace newInstance in
  let name := v2.Name newInstance in
  let reason := if isUpdating r then eventReasonUpdating else eventReasonInstalling in
  exists err r' message,
    let initialised := l ++ [EvRecorderEvent "Normal" reason message] in
    Reconcile w fuel r = Returns (err, r')
    /\ Status r' <> v2.Status newInstance
    /\ match answerGetInstance w initialised namespace name with
       | inr instance =>
           let patched := v2.set_Status (Status r') instance in
           log r' = initialised ++ [EvGetInstance namespace name; EvStatusPatch patched]
           /\ err = benign "error updating ServiceMeshControlPlane status"
                      (answerStatusPatch w (initialised ++ [EvGetInstance namespace name])
                         patched)
       | inl e =>
           log r' = initialised ++ [EvGetInstance namespace name]
           /\ err = benign "error getting ServiceMeshControlPlane prior to updating status"
                      (Some e)
       end
    /\ renderings r' = None
    /\ IsFinished r' = false.
Proof.
  intros Hne r namespace name reason.
  unfold Reconcile. unfold mbind at 1. unfold M_bind at 1. unfold get at 1.
  rewrite decide_True by done. unfold mbind, M_bind.
  destruct (initializeReconcileStatus_returns w r)
    as (message & st & -> & Hrec & _).
  assert (st <> v2.Status newInstance) as Hst.
  { intros Heq. apply Hne. rewrite <- Heq, Hrec. done. }
  rewrite PostStatus_changed by exact Hst. simpl.
  destruct (answerGetInstance w _ _ _) as [e|instance] eqn:Hans; simpl.
  - eexists _, _, message. subst reason. cbv zeta. split; [reflexivity|]. simpl in *. split; [exact Hst|].
    subst namespace name. rewrite Hans.
    split; [done|]. split; [done|]. unfold IsFinished. simpl. by rewrite Hrec.
  - eexists _, _, message. subst reason. cbv zeta. split; [reflexivity|]. simpl in *. split; [exact Hst|].
    subst namespace name. rewrite Hans. rewrite <- app_assoc.
    split; [done|]. split; [done|]. unfold IsFinished. simpl. by rewrite Hrec.
Qed.

Lemma first_Reconcile_posts_status_witness :
  let w := samples.sampleWorld samples.noTemplates samples.versionKnown
             samples.instanceFound samples.patchAccepted samples.allReady in
  let r := NewControlPlaneInstanceReconciler samples.ex_instance
             {| cni.Enabled := false |} more_samples.ex_oauthProxy [] in
  exists r' message,
    Reconcile w 1 r = Returns (None, r')
    /\ log r'
       = [ EvRecorderEvent "Normal" eventReasonInstalling message;
           EvGetInstance "istio-system" "basic";
           EvStatusPatch (v2.set_Status (Status r') samples.ex_instance) ]
    /\ IsFinished r' = false.
Proof.
  intros w r.
  destruct (first_Reconcile_posts_status w 1 samples.ex_instance
              {| cni.Enabled := false |} more_samples.ex_oauthProxy [])
    as (err & r' & message & Hr & _ & Hpost & _ & Hfin).
  { vm_compute. congruence. }
  destruct Hpost as [Hlog ->].
  by exists r', message.
Defined.

End session.

Section chart_names.
Import controlplane.

Lemma Contains_slash_cons c s :
  Contains (String c s) "/" = bool_decide (c = "/"%char) || Contains s "/".
Proof.
  cbn [Contains]. unfold HasPrefix. cbn [String.prefix].
  destruct (ascii_dec "/" c) as [<-|Hne].
  - rewrite bool_decide_eq_true_2 by done. by destruct s.
  - rewrite bool_decide_eq_false_2 by congruence. done.
Qed.

Lemma Contains_slash_app dir name : Contains (dir +:+ "/" +:+ name) "/" = true.
Proof.
  induction dir as [|c dir IH].
  - change (Contains (String "/" name) "/" = true). by rewrite Contains_slash_cons.
  - change (Contains (String c (dir +:+ "/" +:+ name)) "/" = true).
    rewrite Contains_slash_cons, IH. by destruct (bool_decide _).
Qed.

Lemma afterLast_no_slash name :
  Contains name "/" = false -> afterLast "/" name = name.
Proof.
  destruct name as [|c name]; [done|].
  rewrite Contains_slash_cons. intros [Hc Hname]%orb_false_iff.
  cbn [afterLast]. rewrite Hname. apply bool_decide_eq_false in Hc.
  by rewrite decide_False.
Qed.

End chart_names.

(** X17. [componentFromChartName] gives the last element of a chart path: a
    name without a slash is its own component name, and any directory put
    in front of it, however deep, is dropped. *)
Theorem componentFromChartName_last_element (dir name : string) :
  Contains name "/" = false ->
  controlplane.componentFromChartName name = name
  /\ controlplane.componentFromChartName (dir +:+ "/" +:+ name) = name.
Proof.
  intros Hname. unfold controlplane.componentFromChartName.
  change (ascii_of_nat 47) with "/"%char.
  split; [by apply afterLast_no_slash|].
  induction dir as [|c dir IH].
  - change (controlplane.afterLast "/" (String "/" name) = name).
    cbn [controlplane.afterLast]. rewrite Hname. by rewrite decide_True.
  - change (controlplane.afterLast "/" (String c (dir +:+ "/" +:+ name)) = name).
    cbn [controlplane.afterLast]. by rewrite Contains_slash_app.
Qed.

Lemma componentFromChartName_last_element_witness :
  controlplane.componentFromChartName "galley" = "galley"
  /\ controlplane.componentFromChartName "istio/charts/galley" = "galley".
Proof. apply (componentFromChartName_last_element "istio/charts" "galley"). reflexivity. Defined.

Section nested_writes.

Local Arguments SetNestedField : simpl never.

Lemma SetNestedField_one (data : gmap string value) (val : value) (c : string) :
  SetNestedField data val [c] = (<[c := val]> data, None).
Proof. reflexivity. Qed.

(** The path of three fields: the write fails exactly when the first
    field, or the second inside it, holds a value that is not a map. *)
Lemma SetNestedField_three (data : gmap string value) (val : value) (a b c : string) :
  let blocked :=
    exists v, (get_path [a] (VMap data) = Some v \/ get_path [a; b] (VMap data) = Some v)
              /\ is_map v = false in
  (blocked -> (SetNestedField data val [a; b; c]).1 = data)
  /\ (~ blocked ->
      get_path [a; b; c] (VMap (SetNestedField data val [a; b; c]).1) = Some val
      /\ forall k, k <> a -> (SetNestedField data val [a; b; c]).1 !! k = data !! k).
Proof.
  intros blocked. unfold blocked. clear blocked.
  rewrite SetNestedField_cons. cbn [get_path].
  destruct (data !! a) as [va|] eqn:Ha; simpl.
  - destruct (is_map va) eqn:Hmap.
    + destruct va as [| | | | |g]; try done.
      rewrite SetNestedField_cons.
      destruct (g !! b) as [vb|] eqn:Hb; simpl.
      * destruct (is_map vb) eqn:Hmapb.
        -- destruct vb as [| | | | |o]; try done. rewrite ?SetNestedField_one. simpl. split.
           ++ intros (v & [[= <-]|[= <-]] & Hv); done.
           ++ intros _. rewrite lookup_insert_eq. simpl. rewrite lookup_insert_eq. simpl.
              rewrite lookup_insert_eq. split; [done|].
              intros k Hk. by rewrite lookup_insert_ne.
        -- split.
           ++ intros _. destruct vb; try done; simpl; by apply insert_id.
           ++ intros Hnb. exfalso. apply Hnb. exists vb. split; [by right|done].
      * rewrite ?SetNestedField_one. simpl. split.
        -- intros (v & [[= <-]|?] & Hv); done.
        -- intros _. rewrite lookup_insert_eq. simpl. rewrite lookup_insert_eq. simpl.
           rewrite lookup_insert_eq. split; [done|].
           intros k Hk. by rewrite lookup_insert_ne.
    + split.
      * intros _. by destruct va.
      * intros Hnb. exfalso. apply Hnb. exists va. split; [by left|done].
  - rewrite ?SetNestedField_cons, ?lookup_empty, ?SetNestedField_one. simpl. split.
    + intros (v & [?|?] & Hv); done.
    + intros _. rewrite lookup_insert_eq. simpl. rewrite lookup_insert_eq. simpl.
      rewrite lookup_insert_eq. split; [done|].
      intros k Hk. by rewrite lookup_insert_ne.
Qed.

End nested_writes.

Section oauth_proxy.
Import controlplane.
Context (w : World).
Implicit Types (r : controlPlaneInstanceReconciler).


Lemma updateImageField_run data (image : string) r :
  image <> EmptyString ->
  updateImageField (Some data) "global.oauthproxy.image" image r
  = Returns ((Some (SetNestedField data (VString image)
                      ["global"; "oauthproxy"; "image"]).1,
              (SetNestedField data (VString image) ["global"; "oauthproxy"; "image"]).2),
             r).
Proof.
  intros Himage. unfold updateImageField, SetField.
  rewrite decide_False by (by rewrite length_zero_empty).
  change (v1.Split "global.oauthproxy.image" v1.dot) with ["global"; "oauthproxy"; "image"].
  by destruct (SetNestedField data (VString image) ["global"; "oauthproxy"; "image"]).
Qed.

Lemma updateOauthProxyConfig_run (spec : v1.ControlPlaneSpec) r data :
  v1.Istio spec = Some data ->
  let cfg := OAuthProxy r in
  let off := negb (common.Query cfg)
             || bool_decide (common.Name cfg = EmptyString)
             || bool_decide (common.Namespace cfg = EmptyString) in
  exists image,
    updateOauthProxyConfig w spec r
    = Returns ((v1.set_Istio
                  (Some (if off || bool_decide (image = EmptyString) then data
                         else (SetNestedField data (VString image)
                                 ["global"; "oauthproxy"; "image"]).1)) spec,
                None),
               set_OAuthProxy (common.set_Image image cfg)
                 (set_log (log r ++ (if off then []
                                     else [EvGetImageStream (common.Namespace cfg)
                                                            (common.Name cfg)])) r))
    /\ (image = common.Image cfg \/ image <> EmptyString)
    /\ (off = true -> image = common.Image cfg)
    /\ (forall e,
          answerGetImageStream w (log r) (common.Namespace cfg) (common.Name cfg) = inl e ->
          image = common.Image cfg)
    /\ (image <> common.Image cfg ->
        exists imageStream tag item items,
          answerGetImageStream w (log r) (common.Namespace cfg) (common.Name cfg)
          = inr imageStream
          /\ List.find (fun tag => bool_decide (imagev1.Tag tag = common.Tag cfg))
                       (imagev1.Tags imageStream) = Some tag
          /\ imagev1.Items tag = item :: items
          /\ image = imagev1.DockerImageReference item)
    /\ (forall imageStream tag item items,
          off = false ->
          answerGetImageStream w (log r) (common.Namespace cfg) (common.Name cfg)
          = inr imageStream ->
          List.find (fun tag => bool_decide (imagev1.Tag tag = common.Tag cfg))
                    (imagev1.Tags imageStream) = Some tag ->
          imagev1.Items tag = item :: items ->
          imagev1.DockerImageReference item <> EmptyString ->
          image = imagev1.DockerImageReference item).
Proof.
  intros Hdata cfg off.
  assert (forall s : string, bool_decide (String.length s = 0) = bool_decide (s = EmptyString))
    as Hlen by (intros s; apply bool_decide_ext, length_zero_empty).
  assert (v1.set_Istio (Some data) spec = spec) as Hspec.
  { destruct spec. simpl in *. by subst. }
  unfold updateOauthProxyConfig.
  unfold mbind at 1. unfold M_bind at 1. unfold get at 1. fold cfg.
  rewrite !Hlen. fold off.
  destruct off eqn:Hoff.
  { exists (common.Image cfg). simpl. rewrite Hspec. split; [|split; [by left|]].
    - unfold cfg. destruct r as [? ? ? ? ? ? ? [] ?]. simpl. by rewrite app_nil_r.
    - done. }
  unfold mbind at 1. unfold M_bind at 1. unfold call at 1. cbv beta iota.
  set (r0 := set_log _ r).
  match goal with |- context [_ ≫= ?t] => set (tail := t) end.
  assert (forall image r1,
            OAuthProxy r1 = common.set_Image image cfg ->
            tail tt r1
            = Returns ((v1.set_Istio
                          (Some (if bool_decide (image = EmptyString) then data
                                 else (SetNestedField data (VString image)
                                         ["global"; "oauthproxy"; "image"]).1)) spec,
                        None), r1)) as Htail.
  { intros image r1 Hr1. unfold tail. unfold mbind at 1. unfold M_bind at 1.
    unfold get at 1. rewrite Hr1. simpl.
    destruct (decide (String.length image = 0)) as [Hz|Hnz].
    - apply length_zero_empty in Hz as ->.
      rewrite bool_decide_eq_true_2 by done. by rewrite Hspec.
    - assert (image <> EmptyString) as Hne by (by rewrite <- length_zero_empty).
      rewrite bool_decide_eq_false_2 by done. rewrite Hdata.
      unfold mbind, M_bind. by rewrite updateImageField_run. }
  assert (r0 = set_OAuthProxy (common.set_Image (common.Image cfg) cfg) r0) as Hr0.
  { unfold r0, cfg. by destruct r as [? ? ? ? ? ? ? [] ?]. }
  assert ((skip ≫= tail) r0
          = Returns ((v1.set_Istio
                        (Some (if bool_decide (common.Image cfg = EmptyString) then data
                               else (SetNestedField data (VString (common.Image cfg))
                                       ["global"; "oauthproxy"; "image"]).1)) spec,
                      None),
                     set_OAuthProxy (common.set_Image (common.Image cfg) cfg) r0)) as Hskip.
  { unfold mbind, M_bind, skip. rewrite <- Hr0. apply Htail.
    unfold r0, cfg. by destruct r as [? ? ? ? ? ? ? [] ?]. }
  destruct (answerGetImageStream w (log r) _ _) as [e|imageStream] eqn:Hans.
  { exists (common.Image cfg). split; [exact Hskip|]. split; [by left|].
    split; [done|]. split; [done|]. split; [done|]. by intros ? ? ? ? _ ?. }
  destruct (List.find _ _) as [tag|] eqn:Hfind.
  2: { exists (common.Image cfg). split; [exact Hskip|]. split; [by left|].
       split; [done|]. split; [done|]. split; [done|]. intros ? ? ? ? _ [= <-] Hf. congruence. }
  destruct (imagev1.Items tag) as [|item items] eqn:Hitems.
  { exists (common.Image cfg). split; [exact Hskip|]. split; [by left|].
    split; [done|]. split; [done|]. split; [done|]. intros ? ? ? ? _ [= <-] Hf. congruence. }
  destruct (decide (0 < String.length (imagev1.DockerImageReference item))) as [Hpos|Hz].
  2: { exists (common.Image cfg). split; [exact Hskip|]. split; [by left|].
       split; [done|]. split; [done|]. split; [done|]. intros ? ? ? ? _ [= <-] Hf Hi Hne.
       exfalso. rewrite Hfind in Hf. injection Hf as <-. rewrite Hitems in Hi.
       injection Hi as <- <-. apply Hz.
       destruct (imagev1.DockerImageReference item); [done|simpl; lia]. }
  exists (imagev1.DockerImageReference item).
  split.
  { unfold mbind at 1. unfold M_bind at 1. unfold modify at 1. by apply Htail. }
  split.
  { right. intros Heq. rewrite Heq in Hpos. simpl in Hpos. lia. }
  split; [done|]. split; [done|].
  split; [intros _; by exists imageStream, tag, item, items|].
  intros ? ? ? ? _ [= <-] Hf Hi Hne. rewrite Hfind in Hf. injection Hf as <-.
  rewrite Hitems in Hi. by injection Hi as <- <-.
Qed.

End oauth_proxy.

(** X18. [updateOauthProxyConfig] never reports an error.  When the istio
    values are present it returns, having made at most the one call that
    fetches the image stream, and it changes nothing of the reconciler but
    the cached image, which it never replaces by an empty one, which it
    keeps when the image stream cannot be fetched, and which it replaces
    only by the reference of the first image of a tag of the stream that
    has the configured name.  When the lookup is
    switched off or no image is known, the spec is returned as it was.
    Otherwise the cached image is written to the istio values at
    [global.oauthproxy.image], the values under every other top-level key
    staying as they were, unless [global], or [oauthproxy] inside it,
    holds a value that is not a map: then the values are returned as they
    were, and the failure of the write is not reported. *)
Theorem updateOauthProxyConfig_never_fails (w : controlplane.World)
    (spec : v1.ControlPlaneSpec) (r : controlplane.controlPlaneInstanceReconciler) data :
  v1.Istio spec = Some data ->
  let cfg := controlplane.OAuthProxy r in
  let off := negb (common.Query cfg)
             || bool_decide (common.Name cfg = EmptyString)
             || bool_decide (common.Namespace cfg = EmptyString) in
  let blocked :=
    exists v, (get_path ["global"] (VMap data) = Some v
               \/ get_path ["global"; "oauthproxy"] (VMap data) = Some v)
              /\ is_map v = false in
  exists image data',
    controlplane.updateOauthProxyConfig w spec r
    = controlplane.Returns
        ((v1.set_Istio (Some data') spec, None),
         controlplane.set_OAuthProxy (common.set_Image image cfg)
           (controlplane.set_log
              (controlplane.log r
               ++ (if off then []
                   else [controlplane.EvGetImageStream (common.Namespace cfg)
                                                       (common.Name cfg)])) r))
    /\ (image = common.Image cfg \/ image <> EmptyString)
    /\ (off = true -> image = common.Image cfg)
    /\ (forall e,
          controlplane.answerGetImageStream w (controlplane.log r)
            (common.Namespace cfg) (common.Name cfg) = inl e ->
          image = common.Image cfg)
    /\ (image <> common.Image cfg ->
        exists imageStream tag item items,
          controlplane.answerGetImageStream w (controlplane.log r)
            (common.Namespace cfg) (common.Name cfg) = inr imageStream
          /\ List.find (fun tag => bool_decide (imagev1.Tag tag = common.Tag cfg))
                       (imagev1.Tags imageStream) = Some tag
          /\ imagev1.Items tag = item :: items
          /\ image = imagev1.DockerImageReference item)
    /\ (off = true \/ image = EmptyString \/ blocked -> data' = data)
    /\ (off = false -> image <> EmptyString -> ~ blocked ->
        get_path ["global"; "oauthproxy"; "image"] (VMap data') = Some (VString image)
        /\ forall k, k <> "global" -> data' !! k = data !! k).
Proof.
  intros Hdata cfg off blocked.
  destruct (updateOauthProxyConfig_run w spec r data Hdata)
    as (image & Hrun & Himage & Hoff & Herr & Hnew & _).
  fold cfg off in Hrun, Himage, Hoff, Herr, Hnew.
  destruct (SetNestedField_three data (VString image) "global" "oauthproxy" "image")
    as [Hblocked Hwritten].
  eexists image, _. split; [exact Hrun|]. split; [exact Himage|].
  split; [exact Hoff|]. split; [exact Herr|]. split; [exact Hnew|]. split.
  - intros [->|[->|Hb]]; [done| |].
    + by rewrite orb_true_r.
    + destruct (off || bool_decide (image = EmptyString)); [done|]. by apply Hblocked.
  - intros -> Hne Hnb. rewrite bool_decide_eq_false_2 by done. simpl.
    by apply Hwritten.
Qed.

Lemma updateOauthProxyConfig_never_fails_witness :
  let w := more_samples.withImageStream
             (samples.sampleWorld samples.noTemplates samples.versionKnown
                samples.instanceFound samples.patchAccepted samples.allReady)
             (fun _ _ _ => inl (Errorf "connection refused")) in
  let cached := common.set_Image "registry.local/oauth-proxy:cached"
                  more_samples.ex_oauthProxy in
  let r := controlplane.set_OAuthProxy cached (samples.ex_reconciler None ∅) in
  let spec := v1.set_Istio (Some samples.ex_tagged) samples.emptySpec in
  exists data',
    controlplane.updateOauthProxyConfig w spec r
    = controlplane.Returns
        ((v1.set_Istio (Some data') spec, None),
         controlplane.set_log
           [controlplane.EvGetImageStream "openshift" "oauth-proxy"] r)
    /\ get_path ["global"; "oauthproxy"; "image"] (VMap data')
       = Some (VString "registry.local/oauth-proxy:cached").
Proof.
  intros w cached r spec.
  destruct (updateOauthProxyConfig_never_fails w spec r samples.ex_tagged eq_refl)
    as (image & data' & Hrun & _ & _ & Herr & _ & _ & Hwritten).
  assert (image = "registry.local/oauth-proxy:cached") as ->
    by (by eapply Herr).
  exists data'. split; [exact Hrun|].
  apply Hwritten; [reflexivity | discriminate |].
  intros (v & [Hv|Hv] & Hmap); vm_compute in Hv; by simplify_eq.
Defined.



(** ** The installation loops and the posting of the status *)

Section install_loop.
Import controlplane.
Context (w : World).
Implicit Types (r : controlPlaneInstanceReconciler).

(** X20. The installation loop over the groups of charts always returns.
    It ends early with an error only for the reason ReconcileError, and
    with a pause only while components of the group it was installing are
    not ready: the wait set is then not empty and holds components of that
    group only.  When it runs through all the groups, nothing is waited
    for any more.  It never reports completion itself. *)
Theorem Reconcile_groups_outcome groups : forall r,
  exists returned r',
    Reconcile_groups w groups r = Returns (returned, r')
    /\ match returned with
       | None =>
           if decide (groups = []) then r' = r else waitForComponents r' = ∅
       | Some exit =>
           reconciliationComplete exit = false
           /\ (exists i charts,
                 groups !! i = Some charts
                 /\ waitForComponents r'
                    ⊆ list_to_set (componentFromChartName <$> charts))
           /\ match err exit with
              | Some _ => reconciliationReason exit = status.ConditionReasonReconcileError
              | None =>
                  waitForComponents r' <> ∅
                  /\ (reconciliationReason exit = status.ConditionReasonPausingInstall
                      \/ reconciliationReason exit = status.ConditionReasonPausingUpdate)
              end
       end.
Proof.
  assert (forall X : gset string, 0 < size X -> X <> ∅) as Hnonempty.
  { intros X HX ->. rewrite size_empty in HX. lia. }
  assert (forall X : gset string, ~ 0 < size X -> X = ∅) as Hempty.
  { intros X HX. apply leibniz_equiv, size_empty_inv. lia. }
  assert (forall r, (if isUpdating r then status.ConditionReasonPausingUpdate
                     else status.ConditionReasonPausingInstall)
                    = status.ConditionReasonPausingInstall
                    \/ (if isUpdating r then status.ConditionReasonPausingUpdate
                        else status.ConditionReasonPausingInstall)
                       = status.ConditionReasonPausingUpdate) as Hreason.
  { intros r. destruct (isUpdating r); auto. }
  induction groups as [|charts groups IH]; intros r.
  - exists None, r. by rewrite decide_True.
  - destruct (Reconcile_charts_returns w charts (set_waitForComponents ∅ r))
      as (returned1 & r1 & Hcharts & Hsub & _ & Hexit).
    simpl in Hsub. rewrite union_empty_l_L in Hsub.
    cbn [Reconcile_groups]. unfold calculateComponentReadiness. run.
    rewrite Hcharts.
    destruct returned1 as [exit|].
    { exists (Some exit), r1. split; [done|]. destruct Hexit as (Hr & He & Hc).
      split; [done|]. split; [by exists 0, charts|].
      destruct (err exit); done. }
    destruct (decide (0 < size (waitForComponents r1))) as [Hsize|Hsize].
    + destruct (answerCalculateComponentReadiness w (log r1) (waitForComponents r1))
        as [[ready unready] [e|]]; simpl.
      * match goal with |- context [pauseReconciliation ?r0] =>
          rewrite (pauseReconciliation_returns r0) end. simpl.
        eexists _, _. split; [reflexivity|]. simpl.
        split; [done|]. split; [by exists 0, charts|]. split; [by apply Hnonempty|].
        apply Hreason.
      * destruct (decide (0 < size (waitForComponents r1 ∖ ready))) as [Hwaited|Hwaited].
        -- match goal with |- context [pauseReconciliation ?r0] =>
             rewrite (pauseReconciliation_returns r0) end. simpl.
           eexists _, _. split; [reflexivity|]. simpl.
           split; [done|]. split; [exists 0, charts; split; [done|set_solver]|].
           split; [by apply Hnonempty|]. apply Hreason.
        -- match goal with |- context [Reconcile_groups w groups ?r0] =>
             destruct (IH r0) as (returned & r' & -> & Hout) end.
           exists returned, r'. split; [done|].
           destruct returned as [exit|].
           ++ destruct Hout as (Hc & (i & charts' & Hi & Hsub') & Herr).
              split; [done|]. split; [by exists (S i), charts'|]. done.
           ++ destruct (decide (groups = [])); [|done].
              subst r'. simpl. by apply Hempty.
    + destruct (IH r1) as (returned & r' & -> & Hout).
      exists returned, r'. split; [done|].
      destruct returned as [exit|].
      * destruct Hout as (Hc & (i & charts' & Hi & Hsub') & Herr).
        split; [done|]. split; [by exists (S i), charts'|]. done.
      * destruct (decide (groups = [])); [|done].
        subst r'. by apply Hempty.
Qed.

(** X21. Resuming a paused reconciliation asks once for the readiness of
    the components waited for.  When that inspection fails, the error is
    returned wrapped, with the reason ProbeError, and the wait set is as it
    was.  Otherwise the components reported ready leave the wait set: when
    none is left the reconciliation goes on, and when some are left it
    pauses again, without an error, with the reason PausingInstall or
    PausingUpdate, recording one Normal event whose message lists the
    components still waited for. *)
Theorem Reconcile_resume_outcome r :
  let '(ready, _, readinessErr) :=
    answerCalculateComponentReadiness w (log r) (waitForComponents r) in
  let inspected :=
    set_log (log r ++ [EvCalculateComponentReadiness (waitForComponents r)]) r in
  match readinessErr with
  | Some e =>
      Reconcile_resume w r
      = Returns (Some {| reconciliationReason := status.ConditionReasonProbeError;
                         reconciliationMessage := "Error checking component readiness";
                         err := Some (Wrap e "Error checking component readiness");
                         reconciliationComplete := false |},
                 inspected)
  | None =>
      let waited := waitForComponents r ∖ ready in
      let r1 := set_waitForComponents waited inspected in
      if decide (waited = ∅)
      then Reconcile_resume w r = Returns (None, r1)
      else
        let message := "Paused until the following components become ready: "
                       +:+ fmt_strings (sets_List waited) in
        Reconcile_resume w r
        = Returns (Some {| reconciliationReason :=
                             if isUpdating r then status.ConditionReasonPausingUpdate
                             else status.ConditionReasonPausingInstall;
                           reconciliationMessage := message;
                           err := None;
                           reconciliationComplete := false |},
                   set_log (log r1
                            ++ [EvRecorderEvent "Normal"
                                  (if isUpdating r then eventReasonPausingUpdate
                                   else eventReasonPausingInstall) message]) r1)
  end.
Proof.
  unfold Reconcile_resume, calculateComponentReadiness. run.
  destruct (answerCalculateComponentReadiness w (log r) (waitForComponents r))
    as [[ready unready] [e|]]; simpl; [done|].
  destruct (decide (waitForComponents r ∖ ready = ∅)) as [Hempty|Hleft].
  - rewrite decide_False; [done|]. rewrite Hempty, size_empty. lia.
  - rewrite decide_True.
    + match goal with |- context [pauseReconciliation ?r0] =>
        rewrite (pauseReconciliation_returns r0) end. simpl.
      unfold isUpdating. simpl. reflexivity.
    + destruct (decide (0 < size (waitForComponents r ∖ ready))); [done|].
      exfalso. apply Hleft. apply leibniz_equiv, size_empty_inv. lia.
Qed.

Lemma Reconcile_charts_app before rest : forall r,
  Reconcile_charts w (before ++ rest) r
  = match Reconcile_charts w before r with
    | Returns (None, r1) => Reconcile_charts w rest r1
    | other => other
    end.
Proof.
  induction before as [|chart before IH]; intros r; [done|].
  cbn [app Reconcile_charts]. unfold processComponentManifests. run.
  destruct (answerProcessComponentManifests w (log r) (Status r) chart)
    as [[st hasReadiness] [e|]]; simpl; [done|].
  destruct hasReadiness; simpl; apply IH.
Qed.

Lemma Reconcile_charts_cons chart rest r :
  Reconcile_charts w (chart :: rest) r
  = let '(st, hasReadiness, failure) :=
      answerProcessComponentManifests w (log r) (Status r) chart in
    let r1 := set_Status st (set_log (log r ++ [EvProcessComponentManifests chart]) r) in
    match failure with
    | Some e =>
        Returns (Some {| reconciliationReason := status.ConditionReasonReconcileError;
                         reconciliationMessage :=
                           "Error processing component " +:+ componentFromChartName chart
                           +:+ ": " +:+ Error e;
                         err := Some e;
                         reconciliationComplete := false |}, r1)
    | None =>
        Reconcile_charts w rest
          (if (hasReadiness : bool)
           then set_waitForComponents
                  ({[ componentFromChartName chart ]} ∪ waitForComponents r1) r1
           else r1)
    end.
Proof.
  cbn [Reconcile_charts]. unfold processComponentManifests. run.
  destruct (answerProcessComponentManifests w (log r) (Status r) chart)
    as [[st hasReadiness] [e|]]; simpl; [done|].
  by destruct hasReadiness.
Qed.

Lemma app_snoc_split {A} (init before rest : list A) (x chart : A) :
  init ++ [x] = before ++ chart :: rest ->
  (rest = [] /\ before = init /\ chart = x)
  \/ exists rest', rest = rest' ++ [x] /\ init = before ++ chart :: rest'.
Proof.
  destruct rest as [|y rest' _] using rev_ind.
  - intros [-> ->]%app_inj_tail. by left.
  - rewrite app_comm_cons, app_assoc. intros [-> ->]%app_inj_tail.
    right. by exists rest'.
Qed.

(** X22. The loop over the charts of a group always returns, and it
    processes the charts in order up to the first whose processing fails.
    When it ends without an exit, every chart was processed, each without
    an error, and the wait set holds what it held before together with
    the components of exactly the charts whose processing reported
    readiness checks.  When it ends with an exit, the processing of one
    chart failed after all the charts before it had succeeded: that chart
    is the last one processed, and the exit carries its error, the reason
    ReconcileError and a message naming its component. *)
Theorem Reconcile_charts_stops_at_failure charts r :
  exists returned r',
    Reconcile_charts w charts r = Returns (returned, r')
    /\ match returned with
       | None =>
           log r' = log r ++ (EvProcessComponentManifests <$> charts)
           /\ (forall before chart rest,
                 charts = before ++ chart :: rest ->
                 exists r1 st hasReadiness,
                   Reconcile_charts w before r = Returns (None, r1)
                   /\ answerProcessComponentManifests w (log r1) (Status r1) chart
                      = (st, hasReadiness, None))
           /\ (forall component,
                 component ∈ waitForComponents r'
                 <-> component ∈ waitForComponents r
                     \/ exists before chart rest r1 st,
                          charts = before ++ chart :: rest
                          /\ Reconcile_charts w before r = Returns (None, r1)
                          /\ answerProcessComponentManifests w (log r1) (Status r1) chart
                             = (st, true, None)
                          /\ component = componentFromChartName chart)
       | Some exit =>
           exists before chart rest r1 st hasReadiness e,
             charts = before ++ chart :: rest
             /\ Reconcile_charts w before r = Returns (None, r1)
             /\ answerProcessComponentManifests w (log r1) (Status r1) chart
                = (st, hasReadiness, Some e)
             /\ exit = {| reconciliationReason := status.ConditionReasonReconcileError;
                          reconciliationMessage :=
                            "Error processing component "
                            +:+ componentFromChartName chart +:+ ": " +:+ Error e;
                          err := Some e;
                          reconciliationComplete := false |}
             /\ r' = set_Status st
                       (set_log (log r1 ++ [EvProcessComponentManifests chart]) r1)
             /\ log r' = log r ++ (EvProcessComponentManifests <$> before ++ [chart])
             /\ waitForComponents r' = waitForComponents r1
       end.
Proof.
  induction charts as [|x init IH] using rev_ind.
  - exists None, r. split; [done|]. split; [by rewrite app_nil_r|]. split.
    + intros before chart rest Heq. by destruct before.
    + intros component. split; [by left|].
      intros [?|(before & chart & rest & ? & ? & Heq & _)]; [done|by destruct before].
  - destruct IH as (returned & r1 & Hinit & Hret).
    rewrite Reconcile_charts_app, Hinit.
    destruct returned as [exit|].
    { exists (Some exit), r1. split; [done|].
      destruct Hret as (before & chart & rest & r0 & st & has & e & Heq & Hrest).
      exists before, chart, (rest ++ [x]), r0, st, has, e.
      split; [by rewrite Heq, <- app_assoc|]. exact Hrest. }
    destruct Hret as (Hlog & Hsplit & Hwait).
    rewrite Reconcile_charts_cons.
    destruct (answerProcessComponentManifests w (log r1) (Status r1) x)
      as [[st has] [e|]] eqn:Hans.
    { eexists (Some _), _. split; [reflexivity|].
      exists init, x, [], r1, st, has, e.
      split; [done|]. split; [done|]. split; [done|]. split; [done|]. split; [done|].
      split; [|done]. simpl. by rewrite Hlog, fmap_app, app_assoc. }
    cbn [Reconcile_charts]. eexists None, _. split; [reflexivity|].
    split; [|split].
    + destruct has; simpl; by rewrite Hlog, fmap_app, app_assoc.
    + intros before chart rest [(-> & -> & ->)|(rest' & -> & ->)]%app_snoc_split.
      * by exists r1, st, has.
      * by eapply Hsplit.
    + intros component.
      assert (component ∈ waitForComponents r1
              \/ (has = true /\ component = componentFromChartName x)
              <-> component ∈ waitForComponents r
                  \/ exists before chart rest r0 st0,
                       init ++ [x] = before ++ chart :: rest
                       /\ Reconcile_charts w before r = Returns (None, r0)
                       /\ answerProcessComponentManifests w (log r0) (Status r0) chart
                          = (st0, true, None)
                       /\ component = componentFromChartName chart) as Hiff.
      { rewrite Hwait. split.
        - intros [[?|(before & chart & rest & r0 & st0 & -> & Hd & Ha & Hc)]|[-> ->]].
          + by left.
          + right. exists before, chart, (rest ++ [x]), r0, st0.
            by rewrite <- app_assoc.
          + right. by exists init, x, [], r1, st.
        - intros [?|(before & chart & rest & r0 & st0 & Heq & Hd & Ha & Hc)].
          + left. by left.
          + apply app_snoc_split in Heq as [(-> & -> & ->)|(rest' & -> & ->)].
            * right. rewrite Hinit in Hd. injection Hd as <-.
              rewrite Hans in Ha. by injection Ha as <- <-.
            * left. right. by exists before, chart, rest', r0, st0. }
      rewrite <- Hiff. destruct has; simpl; set_solver.
Qed.

End install_loop.

Section status_posting.
Import controlplane.
Context (w : World).
Implicit Types (r : controlPlaneInstanceReconciler).

Lemma GetCondition_Type_ conditions t : status.Type_ (status.GetCondition conditions t) = t.
Proof.
  induction conditions as [|c conditions IH]; simpl; [done|].
  by destruct (decide (status.Type_ c = t)).
Qed.

(** X23. [postReconciliationStatus] always returns.  When the update of the
    readiness status fails, its error is returned and nothing else
    happens: no condition is written, no event is recorded and nothing is
    posted.  Otherwise the Reconciled condition keeps its status and takes
    the reason and the message given, the message followed by the cause
    of the processing error when there is one, which is also recorded as
    one Warning event; the other conditions stay, and all further calls
    are those that post the status. *)
Theorem postReconciliationStatus_condition reason message (processingErr : option error) r :
  let '(st, _, readinessErr) := answerUpdateReadinessStatus w (log r) (Status r) in
  let updated := set_Status st (set_log (log r ++ [EvUpdateReadinessStatus]) r) in
  match readinessErr with
  | Some e => postReconciliationStatus w reason message processingErr r
              = Returns (Some e, updated)
  | None =>
      let text := match processingErr with
                  | Some e => message +:+ ": error: " +:+ Error (Cause e)
                  | None => message
                  end in
      let warning := match processingErr with
                     | Some _ =>
                         [EvRecorderEvent "Warning"
                            (if isUpdating r then eventReasonUpdating
                             else eventReasonInstalling) text]
                     | None => []
                     end in
      exists statusErr r' post,
        postReconciliationStatus w reason message processingErr r
        = Returns (statusErr, r')
        /\ log r' = log updated ++ warning ++ post
        /\ forallb isStatusPost post = true
        /\ v2.GetCondition (Status r') status.ConditionTypeReconciled
           = {| status.Type_ := status.ConditionTypeReconciled;
                status.Status :=
                  status.Status (v2.GetCondition st status.ConditionTypeReconciled);
                status.Reason := reason; status.Message := text |}
        /\ forall t, t <> status.ConditionTypeReconciled ->
             v2.GetCondition (Status r') t = v2.GetCondition st t
  end.
Proof.
  unfold postReconciliationStatus, updateReadinessStatus, EventRecorder_Event. run.
  destruct (answerUpdateReadinessStatus w (log r) (Status r)) as [[st updated] [e|]];
    simpl; [done|].
  destruct processingErr as [processingErr|]; simpl.
  - match goal with |- context [PostStatus w ?r0] =>
      destruct (PostStatus_posts w r0) as (err & post & -> & Hpost) end.
    eexists _, _, post. split; [reflexivity|]. simpl.
    rewrite <- !app_assoc. split; [done|]. split; [done|].
    unfold v2.GetCondition, v2.SetCondition. simpl.
    rewrite !GetCondition_Type_.
    split.
    + by rewrite (GetCondition_SetCondition_eq _
                    {| status.Type_ := status.ConditionTypeReconciled |}).
    + intros t Ht. by rewrite GetCondition_SetCondition_ne by (simpl; congruence).
  - match goal with |- context [PostStatus w ?r0] =>
      destruct (PostStatus_posts w r0) as (err & post & -> & Hpost) end.
    eexists _, _, post. split; [reflexivity|]. simpl.
    split; [done|]. split; [done|].
    unfold v2.GetCondition, v2.SetCondition. simpl.
    rewrite !GetCondition_Type_.
    split.
    + by rewrite (GetCondition_SetCondition_eq _
                    {| status.Type_ := status.ConditionTypeReconciled |}).
    + intros t Ht. by rewrite GetCondition_SetCondition_ne by (simpl; congruence).
Qed.

End status_posting.
